(** * Buxxel marketplace front end: cart store and listing feed

    A shallow embedding of the browser script of the Buxxel marketplace: the
    jQuery ready callback that keeps the shopping cart in [localStorage] and
    loads the listing feed page by page. The script exists in three
    variants; the cart code is the same in all of them, line for line, and
    the paginated feed is in the latest one.

    The model:
    - [JSNumber]: the Number type (IEEE 754 binary64) with its arithmetic
      and its conversions to and from text;
    - [Object]: the own properties of an object in enumeration order, and
      the names every object inherits from [Object.prototype];
    - [JSON]: [JSON.stringify] and [JSON.parse];
    - [Conversion]: the text of a value (ToString, with the TypeError it can
      raise) and jQuery's reading of a [data-] attribute;
    - [Cart]: the cart, [updateCart], [saveCart], the statement that loads
      the cart, and the four click handlers, with what [cart[id]] finds
      along the prototype chain;
    - [Feed]: [loadMoreListings] with the URL it builds, its AJAX
      continuations, the filter handlers and the scroll observer, as
      transitions on the part of the DOM they read and write;
    - [Debounce], [Purveyor], [Preview], [Session], [Tags]: the debounced
      search, the purveyor modal, the card description and image preview,
      the stored session, and the tag buttons.

    The properties: [JSONFacts] (a stored value is read back),
    [NumberFacts] (integers below 2^53 add up exactly), [CartFacts],
    [FeedFacts], and one module of further properties for each part.

    Strings are [string]s read as UTF-8 text. *)

From Stdlib Require Import ZArith List String Ascii Bool Lia.
From Stdlib Require Import SpecFloat.
Import ListNotations.

Set Warnings "-register-all".

Local Open Scope string_scope.
Local Open Scope list_scope.
Local Open Scope Z_scope.

(** ** JavaScript numbers *)

Module JSNumber.

(** A Number is a binary64 value. [spec_float] is the Standard Library's
    executable description of IEEE 754 values, instantiated here at the
    binary64 parameters. NaN has no payload, as in JavaScript. *)
Definition Number : Type := spec_float.

Definition prec : Z := 53.
Definition emax : Z := 1024.

Definition NaN : Number := S754_nan.
Definition zero : Number := S754_zero false.

Definition Number_add : Number -> Number -> Number := SFadd prec emax.
Definition Number_mul : Number -> Number -> Number := SFmul prec emax.

(** Identity of representations. The operations above and below return
    normalised values, on which it is identity of Numbers (NaN included). *)
Definition Number_eqb (x y : Number) : bool :=
  match x, y with
  | S754_zero a, S754_zero b => Bool.eqb a b
  | S754_infinity a, S754_infinity b => Bool.eqb a b
  | S754_nan, S754_nan => true
  | S754_finite a m e, S754_finite b n f => Bool.eqb a b && Pos.eqb m n && Z.eqb e f
  | _, _ => false
  end.

(** ToBoolean: zero and NaN are falsy. *)
Definition truthy (x : Number) : bool :=
  match x with
  | S754_zero _ | S754_nan => false
  | _ => true
  end.

(** The Number nearest to [m * 10^e] (ties to even), with sign [neg]: the
    Number value of a decimal literal. *)
Definition decimal (neg : bool) (m : N) (e : Z) : Number :=
  match m with
  | N0 => S754_zero neg
  | Npos p =>
      if 0 <=? e
      then binary_round prec emax neg (p * Z.to_pos (10 ^ e)) 0
      else
        let '(q, e', l) := SFdiv_core_binary prec emax (Zpos p) 0 (10 ^ (- e)) 0 in
        binary_round_aux prec emax neg q e' l
  end.

(** The Number of an integer. *)
Definition Number_of_Z (z : Z) : Number :=
  decimal (z <? 0) (Z.abs_N z) 0.

(** The Number 1. *)
Definition one : Number := Number_of_Z 1.

(** *** Decimal digits *)

Definition digit_char (d : N) : ascii := ascii_of_N (48 + d).

Fixpoint digits_aux (fuel : nat) (n : N) (acc : string) : string :=
  match fuel with
  | O => acc
  | S f =>
      let acc' := String (digit_char (n mod 10)) acc in
      if (n / 10 =? 0)%N then acc' else digits_aux f (n / 10)%N acc'
  end.

(** The decimal numeral of [n], without leading zeros. *)
Definition digits (n : N) : string :=
  digits_aux (S (N.to_nat (N.size n))) n EmptyString.

Definition is_digit (c : ascii) : bool :=
  ((48 <=? N_of_ascii c) && (N_of_ascii c <=? 57))%N.

(** The value of a run of digits. *)
Fixpoint digits_value (acc : N) (s : string) : N :=
  match s with
  | EmptyString => acc
  | String c s' => digits_value (10 * acc + (N_of_ascii c - 48))%N s'
  end.

Fixpoint zeros (n : nat) : string :=
  match n with
  | O => EmptyString
  | S n' => String "0" (zeros n')
  end.

(** *** Number::toString *)

(** A positive finite value [m * 2^e] as a fraction. *)
Definition fraction (m : positive) (e : Z) : Z * Z :=
  if 0 <=? e then (Zpos m * 2 ^ e, 1) else (Zpos m, 2 ^ (- e)).

(** [floor (num / den / 10^q)] *)
Definition scaled_floor (num den q : Z) : Z :=
  if 0 <=? q then num / (den * 10 ^ q) else (num * 10 ^ (- q)) / den.

(** The least [j >= from] with [num * 10^j >= den], for a value below 1. *)
Fixpoint first_digit_place (fuel : nat) (num den from : Z) : Z :=
  match fuel with
  | O => from
  | S f =>
      if den <=? num * 10 ^ from then from
      else first_digit_place f num den (from + 1)
  end.

(** The [n] with [10^(n-1) <= num/den < 10^n]. *)
Definition magnitude (num den : Z) : Z :=
  if den <=? num
  then Z.of_nat (String.length (digits (Z.to_N (num / den))))
  else 1 - first_digit_place 400 num den 1.

(** [num/den] compared with the midpoint of [lo * 10^q] and [(lo+1) * 10^q]. *)
Definition against_midpoint (num den lo q : Z) : comparison :=
  if 0 <=? q
  then (2 * num ?= (2 * lo + 1) * 10 ^ q * den)
  else (2 * num * 10 ^ (- q) ?= (2 * lo + 1) * den).

(** The digits [s] and the exponent [n] of the shortest decimal
    [s * 10^(n-k)], [10^(k-1) <= s < 10^k], that denotes [x]; of two with
    the same [k], the nearer to [x]. The search runs over [k = 1, 2, ...];
    17 digits always suffice for a binary64 value. *)
Fixpoint shortest (fuel : nat) (x : Number) (num den n k : Z) : Z * Z * Z :=
  let q := n - k in
  let lo := scaled_floor num den q in
  let hi := lo + 1 in
  let hi_s := if hi =? 10 ^ k then 10 ^ (k - 1) else hi in
  let hi_n := if hi =? 10 ^ k then n + 1 else n in
  let ok_lo := (10 ^ (k - 1) <=? lo) &&
               Number_eqb (decimal false (Z.to_N lo) q) x in
  let ok_hi := Number_eqb (decimal false (Z.to_N hi_s) (hi_n - k)) x in
  let take_lo := (lo, n, k) in
  let take_hi := (hi_s, hi_n, k) in
  match fuel with
  | O => take_lo
  | S f =>
      match ok_lo, ok_hi with
      | true, false => take_lo
      | false, true => take_hi
      | true, true =>
          match against_midpoint num den lo q with
          | Lt => take_lo
          | Gt => take_hi
          | Eq => if Z.even lo then take_lo else take_hi
          end
      | false, false => shortest f x num den n (k + 1)
      end
  end.

(** The text of the exponent part: a sign, then the digits. *)
Definition exponent_text (e : Z) : string :=
  ((if (e <? 0)%Z then "-" else "+") ++ digits (Z.abs_N e))%string.

(** The numeral for digits [s] ([k] of them) and exponent [n]. *)
Definition numeral (s n k : Z) : string :=
  let ds := digits (Z.to_N s) in
  if (k <=? n) && (n <=? 21) then
    (ds ++ zeros (Z.to_nat (n - k)))%string
  else if (0 <? n) && (n <=? 21) then
    (substring 0 (Z.to_nat n) ds ++ "." ++
     substring (Z.to_nat n) (Z.to_nat (k - n)) ds)%string
  else if (-6 <? n) && (n <=? 0) then
    ("0." ++ zeros (Z.to_nat (- n)) ++ ds)%string
  else if k =? 1 then
    (ds ++ "e" ++ exponent_text (n - 1))%string
  else
    (substring 0 1 ds ++ "." ++ substring 1 (Z.to_nat (k - 1)) ds ++
     "e" ++ exponent_text (n - 1))%string.

Definition Number_toString (x : Number) : string :=
  match x with
  | S754_nan => "NaN"
  | S754_zero _ => "0"
  | S754_infinity s => if s then "-Infinity" else "Infinity"
  | S754_finite s m e =>
      let '(num, den) := fraction m e in
      let '(d, n, k) :=
        shortest 17 (S754_finite false m e) num den (magnitude num den) 1 in
      ((if s then "-" else "") ++ numeral d n k)%string
  end.

(** *** Number.prototype.toFixed(2) *)

(** For a positive finite value: the integer [n] with [n / 100] nearest to
    it, the larger one of two. *)
Definition hundredths (num den : Z) : Z := (200 * num + den) / (2 * den).

Definition toFixed2 (x : Number) : string :=
  match x with
  | S754_nan => "NaN"
  | S754_infinity _ => Number_toString x
  | S754_zero _ => "0.00"
  | S754_finite s m e =>
      let '(num, den) := fraction m e in
      if 10 ^ 21 * den <=? num then Number_toString x
      else
        let n := hundredths num den in
        let ds := digits (Z.to_N n) in
        let padded := (zeros (3 - String.length ds) ++ ds)%string in
        let w := String.length padded in
        ((if s then "-" else "") ++
         substring 0 (w - 2) padded ++ "." ++ substring (w - 2) 2 padded)%string
  end.

(** *** Numerals read back *)

(** The longest prefix whose characters satisfy [p], and the rest. *)
Fixpoint span (p : ascii -> bool) (s : string) : string * string :=
  match s with
  | EmptyString => (EmptyString, EmptyString)
  | String c s' =>
      if p c then let '(a, b) := span p s' in (String c a, b)
      else (EmptyString, s)
  end.

Definition no_leading_zero (ds : string) : bool :=
  match ds with
  | EmptyString => false
  | String "0" EmptyString => true
  | String "0" _ => false
  | _ => true
  end.

(** The exponent part [e] / [E], sign, digits, which must end the token. *)
Definition read_exponent (t : string) : option Z :=
  match t with
  | EmptyString => Some 0
  | String c t1 =>
      if (N_of_ascii c =? 101)%N || (N_of_ascii c =? 69)%N then
        let '(neg, t2) :=
          match t1 with
          | String "-" r => (true, r)
          | String "+" r => (false, r)
          | _ => (false, t1)
          end in
        let '(ds, rest) := span is_digit t2 in
        match ds, rest with
        | String _ _, EmptyString =>
            let v := Z.of_N (digits_value 0 ds) in
            Some (if neg then - v else v)
        | _, _ => None
        end
      else None
  end.

(** A whole token read by the JSON number grammar: an optional minus; the
    integer part, a lone 0 or digits not starting with 0; an optional point
    with at least one digit; an optional exponent. *)
Definition read_numeral (t : string) : option Number :=
  let '(neg, t1) :=
    match t with
    | String "-" r => (true, r)
    | _ => (false, t)
    end in
  let '(ip, t2) := span is_digit t1 in
  if no_leading_zero ip then
    let '(fp, t3) :=
      match t2 with
      | String "." r => span is_digit r
      | _ => (EmptyString, t2)
      end in
    let frac_ok :=
      match t2, fp with
      | String "." _, EmptyString => false
      | _, _ => true
      end in
    if frac_ok then
      match read_exponent t3 with
      | Some ex =>
          Some (decimal neg (digits_value 0 (ip ++ fp))
                        (ex - Z.of_nat (String.length fp)))
      | None => None
      end
    else None
  else None.

End JSNumber.

(** ** Properties of a JavaScript object *)

Module Object.

Import JSNumber.

(** An object with string keys, as the list of its own properties in the
    order in which [for ... in], [Object.keys] and [JSON.stringify] visit
    them: the keys that are array indices first, in ascending numeric order,
    then the other keys in the order of their creation. *)
Definition object (A : Type) : Type := list (string * A).

(** The array index a key denotes, if any: a decimal numeral without leading
    zeros whose value is below 2^32 - 1. *)
Definition array_index (k : string) : option N :=
  let '(ds, rest) := span is_digit k in
  match rest with
  | EmptyString =>
      if no_leading_zero ds && (digits_value 0 ds <? 4294967295)%N
      then Some (digits_value 0 ds) else None
  | _ => None
  end.

(** A new key [k] is visited before the existing key [k']. *)
Definition key_before (k k' : string) : bool :=
  match array_index k, array_index k' with
  | Some a, Some b => (a <? b)%N
  | Some _, None => true
  | None, _ => false
  end.

Section Properties.

Context {A : Type}.

(** The own property [k] of [o], [None] when [o] has none of that name.
    What [o[k]] finds when there is none is decided by the prototype, see
    [prototype_functions] below. *)
Fixpoint get (k : string) (o : object A) : option A :=
  match o with
  | [] => None
  | (k', v) :: o' => if String.eqb k k' then Some v else get k o'
  end.

(** [o[k] = v]: an existing property keeps its place, a new one takes the
    place its key gives it. *)
Fixpoint put (k : string) (v : A) (o : object A) : object A :=
  match o with
  | [] => [(k, v)]
  | (k', v') :: o' =>
      if String.eqb k k' then (k, v) :: o'
      else if key_before k k' then (k, v) :: o
      else (k', v') :: put k v o'
  end.

(** [delete o[k]] *)
Fixpoint delete (k : string) (o : object A) : object A :=
  match o with
  | [] => []
  | (k', v') :: o' =>
      if String.eqb k k' then delete k o' else (k', v') :: delete k o'
  end.

End Properties.

(** The properties every object inherits from [Object.prototype] besides the
    accessor [__proto__]. Each holds a function; none is enumerable. *)
Definition prototype_functions : list string :=
  ["constructor"; "hasOwnProperty"; "isPrototypeOf"; "propertyIsEnumerable";
   "toLocaleString"; "toString"; "valueOf"; "__defineGetter__"; "__defineSetter__";
   "__lookupGetter__"; "__lookupSetter__"].

(** The accessor whose value is the prototype itself. *)
Definition proto : string := "__proto__".

End Object.

(** ** JSON text *)

Module JSON.

Import JSNumber Object.

(** The values [JSON.parse] returns. *)
Inductive value : Type :=
| Null
| Bool (b : bool)
| Num (n : Number)
| Str (s : string)
| Arr (l : list value)
| Obj (o : list (string * value)).

Definition quote_char : ascii := "034"%char.
Definition backslash : ascii := "092"%char.

Definition hex_digit (d : N) : ascii :=
  if (d <? 10)%N then ascii_of_N (48 + d) else ascii_of_N (87 + d).

(** QuoteJSONString, one character at a time: the quote and the backslash
    are escaped, the control characters too, by their short form if they
    have one. *)
Definition escape (c : ascii) : string :=
  let n := N_of_ascii c in
  if (n =? 34)%N then String backslash (String quote_char EmptyString)
  else if (n =? 92)%N then String backslash (String backslash EmptyString)
  else if (n =? 8)%N then String backslash "b"
  else if (n =? 9)%N then String backslash "t"
  else if (n =? 10)%N then String backslash "n"
  else if (n =? 12)%N then String backslash "f"
  else if (n =? 13)%N then String backslash "r"
  else if (n <? 32)%N then
    String backslash
      (String "u" (String "0" (String "0"
         (String (hex_digit (n / 16)) (String (hex_digit (n mod 16)) EmptyString)))))
  else String c EmptyString.

Fixpoint escape_all (s : string) : string :=
  match s with
  | EmptyString => EmptyString
  | String c s' => (escape c ++ escape_all s')%string
  end.

Definition quote (s : string) : string :=
  String quote_char (escape_all s ++ String quote_char EmptyString).

Definition is_finite (n : Number) : bool :=
  match n with
  | S754_zero _ | S754_finite _ _ _ => true
  | _ => false
  end.

(** The texts of [l] with commas between them. *)
Fixpoint join (l : list string) : string :=
  match l with
  | [] => EmptyString
  | [x] => x
  | x :: l' => (x ++ "," ++ join l')%string
  end.

(** [JSON.stringify(v)], without indentation. A Number that is not finite
    is written as null. *)
Fixpoint stringify (v : value) : string :=
  match v with
  | Null => "null"
  | Bool b => if b then "true" else "false"
  | Num n => if is_finite n then Number_toString n else "null"
  | Str s => quote s
  | Arr l => ("[" ++ join (map stringify l) ++ "]")%string
  | Obj o =>
      ("{" ++
       join (map (fun kv => match kv with
                            | (k, x) => (quote k ++ ":" ++ stringify x)%string
                            end) o) ++
       "}")%string
  end.

(** *** Reading *)

Definition is_ws (c : ascii) : bool :=
  let n := N_of_ascii c in
  ((n =? 32) || (n =? 9) || (n =? 10) || (n =? 13))%N.

Fixpoint skip_ws (s : string) : string :=
  match s with
  | String c s' => if is_ws c then skip_ws s' else s
  | EmptyString => EmptyString
  end.

(** The characters a number token is made of. *)
Definition is_number_char (c : ascii) : bool :=
  let n := N_of_ascii c in
  (is_digit c || (n =? 45) || (n =? 43) || (n =? 46) || (n =? 101) || (n =? 69))%N.

Definition hex_value (c : ascii) : option N :=
  let n := N_of_ascii c in
  if ((48 <=? n) && (n <=? 57))%N then Some (n - 48)%N
  else if ((97 <=? n) && (n <=? 102))%N then Some (n - 87)%N
  else if ((65 <=? n) && (n <=? 70))%N then Some (n - 55)%N
  else None.

(** What a string literal holds: characters taken as they stand, and UTF-16
    code units given by escapes. *)
Inductive item : Type :=
| Raw (c : ascii)
| Unit16 (u : N).

(** The body of a string literal up to its closing quote. A control
    character, an unknown escape or a missing quote is a syntax error. *)
Fixpoint read_items (s : string) : option (list item * string) :=
  match s with
  | EmptyString => None
  | String c s' =>
      let n := N_of_ascii c in
      if (n =? 34)%N then Some ([], s')
      else if (n <? 32)%N then None
      else if (n =? 92)%N then
        match s' with
        | EmptyString => None
        | String e s'' =>
            let simple (u : N) :=
              match read_items s'' with
              | Some (l, r) => Some (Unit16 u :: l, r)
              | None => None
              end in
            let m := N_of_ascii e in
            if (m =? 34)%N then simple 34%N
            else if (m =? 92)%N then simple 92%N
            else if (m =? 47)%N then simple 47%N
            else if (m =? 98)%N then simple 8%N
            else if (m =? 102)%N then simple 12%N
            else if (m =? 110)%N then simple 10%N
            else if (m =? 114)%N then simple 13%N
            else if (m =? 116)%N then simple 9%N
            else if (m =? 117)%N then
              match s'' with
              | String h1 (String h2 (String h3 (String h4 r))) =>
                  match hex_value h1, hex_value h2, hex_value h3, hex_value h4 with
                  | Some a, Some b, Some c', Some d =>
                      match read_items r with
                      | Some (l, r') =>
                          Some (Unit16 (((a * 16 + b) * 16 + c') * 16 + d)%N :: l, r')
                      | None => None
                      end
                  | _, _, _, _ => None
                  end
              | _ => None
              end
            else None
        end
      else
        match read_items s' with
        | Some (l, r) => Some (Raw c :: l, r)
        | None => None
        end
  end.

(** The UTF-8 bytes of a code point. *)
Definition utf8 (cp : N) : string :=
  let byte (n : N) := ascii_of_N n in
  (if cp <? 128 then String (byte cp) EmptyString
   else if cp <? 2048 then
     String (byte (192 + cp / 64)) (String (byte (128 + cp mod 64)) EmptyString)
   else if cp <? 65536 then
     String (byte (224 + cp / 4096))
       (String (byte (128 + (cp / 64) mod 64))
          (String (byte (128 + cp mod 64)) EmptyString))
   else
     String (byte (240 + cp / 262144))
       (String (byte (128 + (cp / 4096) mod 64))
          (String (byte (128 + (cp / 64) mod 64))
             (String (byte (128 + cp mod 64)) EmptyString))))%N.

Definition is_high_surrogate (u : N) : bool := ((55296 <=? u) && (u <? 56320))%N.
Definition is_low_surrogate (u : N) : bool := ((56320 <=? u) && (u <? 57344))%N.

(** The text of a list of items; a high surrogate followed by a low one is
    one code point. *)
Fixpoint text_of (l : list item) : string :=
  match l with
  | [] => EmptyString
  | Raw c :: l' => String c (text_of l')
  | Unit16 u :: l' =>
      match l' with
      | Unit16 w :: l'' =>
          if is_high_surrogate u && is_low_surrogate w
          then (utf8 (65536 + (u - 55296) * 1024 + (w - 56320)) ++ text_of l'')%string
          else (utf8 u ++ text_of l')%string
      | _ => (utf8 u ++ text_of l')%string
      end
  end.

(** A string literal after its opening quote. *)
Definition read_string (s : string) : option (string * string) :=
  match read_items s with
  | Some (l, r) => Some (text_of l, r)
  | None => None
  end.

(** [s] without the prefix [p], if it starts with it. *)
Fixpoint strip_prefix (p s : string) : option string :=
  match p, s with
  | EmptyString, _ => Some s
  | String a p', String b s' => if Ascii.eqb a b then strip_prefix p' s' else None
  | _, _ => None
  end.

(** One value and the text after it. [fuel] bounds the nesting and the
    number of members visited; [parse] supplies more than the text can use. *)
Fixpoint parse_value (fuel : nat) (s : string) : option (value * string) :=
  match fuel with
  | O => None
  | S f =>
      match skip_ws s with
      | EmptyString => None
      | String c r =>
          let n := N_of_ascii c in
          if (n =? 123)%N then
            match skip_ws r with
            | String c' r' =>
                if (N_of_ascii c' =? 125)%N then Some (Obj [], r')
                else parse_members f r []
            | EmptyString => None
            end
          else if (n =? 91)%N then
            match skip_ws r with
            | String c' r' =>
                if (N_of_ascii c' =? 93)%N then Some (Arr [], r')
                else parse_elements f r []
            | EmptyString => None
            end
          else if (n =? 34)%N then
            match read_string r with
            | Some (str, r') => Some (Str str, r')
            | None => None
            end
          else if is_digit c || (n =? 45)%N then
            let '(tok, r') := span is_number_char (String c r) in
            match read_numeral tok with
            | Some x => Some (Num x, r')
            | None => None
            end
          else
            match strip_prefix "true" (String c r),
                  strip_prefix "false" (String c r),
                  strip_prefix "null" (String c r) with
            | Some r', _, _ => Some (Bool true, r')
            | _, Some r', _ => Some (Bool false, r')
            | _, _, Some r' => Some (Null, r')
            | _, _, _ => None
            end
      end
  end

with parse_members (fuel : nat) (s : string) (acc : list (string * value))
  : option (value * string) :=
  match fuel with
  | O => None
  | S f =>
      match skip_ws s with
      | EmptyString => None
      | String c r =>
          if (N_of_ascii c =? 34)%N then
            match read_string r with
            | None => None
            | Some (k, r1) =>
                match skip_ws r1 with
                | EmptyString => None
                | String c1 r2 =>
                    if (N_of_ascii c1 =? 58)%N then
                      match parse_value f r2 with
                      | None => None
                      | Some (v, r3) =>
                          match skip_ws r3 with
                          | EmptyString => None
                          | String c3 r4 =>
                              if (N_of_ascii c3 =? 44)%N
                              then parse_members f r4 (put k v acc)
                              else if (N_of_ascii c3 =? 125)%N
                              then Some (Obj (put k v acc), r4)
                              else None
                          end
                      end
                    else None
                end
            end
          else None
      end
  end

with parse_elements (fuel : nat) (s : string) (acc : list value)
  : option (value * string) :=
  match fuel with
  | O => None
  | S f =>
      match parse_value f s with
      | None => None
      | Some (v, r) =>
          match skip_ws r with
          | EmptyString => None
          | String c r' =>
              if (N_of_ascii c =? 44)%N then parse_elements f r' (acc ++ [v])
              else if (N_of_ascii c =? 93)%N then Some (Arr (acc ++ [v]), r')
              else None
          end
      end
  end.

(** [JSON.parse(text)]; [None] stands for the SyntaxError it throws. *)
Definition parse (text : string) : option value :=
  match parse_value (S (String.length text)) text with
  | Some (v, rest) =>
      match skip_ws rest with
      | EmptyString => Some v
      | _ => None
      end
  | None => None
  end.

(** ToBoolean *)
Definition to_boolean (v : value) : bool :=
  match v with
  | Null => false
  | Bool b => b
  | Num n => truthy n
  | Str EmptyString => false
  | _ => true
  end.

End JSON.

(** ** Values as texts, attributes as values *)

Module Conversion.

Import JSNumber Object JSON.

(** ToString of a value that [JSON.parse] built, as a template literal and
    a property access apply it; [None] stands for the TypeError it can end
    in. An array gives the texts of its elements with commas between them,
    null giving the empty text. An object gives [[object Object]] through the
    [toString] it inherits; when a property of its own hides that function,
    what it holds there cannot be called, [valueOf] gives the object back, and
    the conversion fails. *)
Fixpoint to_string (v : value) : option string :=
  match v with
  | Null => Some "null"
  | Bool b => Some (if b then "true" else "false")
  | Num n => Some (Number_toString n)
  | Str s => Some s
  | Arr l =>
      let fix elements (l : list value) : option (list string) :=
        match l with
        | [] => Some []
        | x :: l' =>
            match match x with
                  | Null => Some EmptyString
                  | _ => to_string x
                  end, elements l' with
            | Some t, Some ts => Some (t :: ts)
            | _, _ => None
            end
        end in
      match elements l with
      | Some ts => Some (join ts)
      | None => None
      end
  | Obj o =>
      match get "toString" o with
      | None => Some "[object Object]"
      | Some _ => None
      end
  end.

(** The last character of a text. *)
Fixpoint last_char (s : string) : option ascii :=
  match s with
  | EmptyString => None
  | String c EmptyString => Some c
  | String _ s' => last_char s'
  end.

(** jQuery's [rbrace]: the text starts with an opening brace and ends with
    the closing one, or does so with brackets. *)
Definition rbrace (s : string) : bool :=
  match s with
  | String c r =>
      match last_char r with
      | Some d =>
          (Ascii.eqb c "{" && Ascii.eqb d "}") || (Ascii.eqb c "[" && Ascii.eqb d "]")
      | None => false
      end
  | EmptyString => false
  end.

(** The Number [+data] when [data === +data + ""], that is, when the text
    is the one [Number::toString] gives for the Number it denotes. Such a
    text is NaN, an infinity, or a numeral of the JSON grammar, which is how
    it is read here. *)
Definition numeric (s : string) : option Number :=
  if String.eqb s "NaN" then Some NaN
  else if String.eqb s "Infinity" then Some (S754_infinity false)
  else if String.eqb s "-Infinity" then Some (S754_infinity true)
  else
    match read_numeral s with
    | Some x => if String.eqb (Number_toString x) s then Some x else None
    | None => None
    end.

(** jQuery's [getData], through which [.data(key)] hands out a [data-key]
    attribute: true, false and null become the values they name, a text that
    is the numeral of a Number becomes that Number, a text in braces or
    brackets is read as JSON if it can be, anything else stays a string. *)
Definition data (attribute : string) : value :=
  if String.eqb attribute "true" then Bool true
  else if String.eqb attribute "false" then Bool false
  else if String.eqb attribute "null" then Null
  else
    match numeric attribute with
    | Some x => Num x
    | None =>
        if rbrace attribute
        then match parse attribute with
             | Some v => v
             | None => Str attribute
             end
        else Str attribute
    end.

(** The double quote and the line feed, for markup held in strings. *)
Definition dq : string := String "034"%char EmptyString.
Definition nl : string := String "010"%char EmptyString.

End Conversion.

(** ** The cart *)

Module Cart.

Import JSNumber Object JSON Conversion.

(** A cart line, the object [{ name: name, price: price, quantity: 1 }] and
    its later states. The name is what [button.data('name')] gives, a value;
    the price is what [parseFloat] gives, a Number. The quantity starts at 1
    and moves by one per click; it is kept as an integer, which a Number
    holds exactly below 2^53, and is made a Number where it is added to
    another or written. *)
Record line : Type := {
  name : value;
  price : Number;
  quantity : Z
}.

(** The variable [cart]: the lines it has as own properties, under the item
    ids. *)
Definition cart : Type := object line.

(** The cart as the JavaScript value it is. *)
Definition value_of_line (l : line) : value :=
  Obj [("name", name l); ("price", Num (price l));
       ("quantity", Num (Number_of_Z (quantity l)))].

Definition value_of_cart (c : cart) : value :=
  Obj (map (fun kv => (fst kv, value_of_line (snd kv))) c).

(** The markup of one [<li>] of the cart modal, the template literal
    [itemHtml] with the four texts it interpolates: the id, the name, the
    price to two decimals and the quantity. jQuery parses it when it is
    appended. *)
Definition itemHtml (id name price quantity : string) : string :=
  (
   nl ++
   "                    <li class=" ++ dq ++
     "list-group-item d-flex justify-content-between align-items-center" ++ dq ++
     " data-id=" ++ dq ++ id ++ dq ++ ">" ++ nl ++
   "                        <div>" ++ nl ++
   "                            <h6 class=" ++ dq ++ "my-0" ++ dq ++ ">" ++ name ++
     "</h6>" ++ nl ++
   "                            <small class=" ++ dq ++ "text-muted" ++ dq ++
     ">Price: $" ++ price ++ "</small>" ++ nl ++
   "                        </div>" ++ nl ++
   "                        <div class=" ++ dq ++ "d-flex align-items-center" ++ dq ++
     ">" ++ nl ++
   "                            <button class=" ++ dq ++
     "btn btn-sm btn-outline-secondary decrease-qty" ++ dq ++ " data-id=" ++ dq ++
     id ++ dq ++ ">-</button>" ++ nl ++
   "                            <span class=" ++ dq ++ "mx-2 cart-item-quantity" ++
     dq ++ ">" ++ quantity ++ "</span>" ++ nl ++
   "                            <button class=" ++ dq ++
     "btn btn-sm btn-outline-secondary increase-qty" ++ dq ++ " data-id=" ++ dq ++
     id ++ dq ++ ">+</button>" ++ nl ++
   "                            <button class=" ++ dq ++
     "btn btn-sm btn-danger ms-3 remove-item" ++ dq ++ " data-id=" ++ dq ++ id ++ dq ++
     " aria-label=" ++ dq ++ "Remove item" ++ dq ++ ">&times;</button>" ++ nl ++
   "                        </div>" ++ nl ++
   "                    </li>" ++ nl ++
   "                "
  )%string.

(** What [#cart-items-container] holds: the paragraph "Your cart is
    empty.", the list with its [<li>] elements, or nothing at all, when
    [updateCart] has emptied it and raised before putting anything in. *)
Inductive items : Type :=
| Empty_message
| Item_list (lis : list string)
| Emptied.

(** What [updateCart] writes: the content of [#cart-items-container], the
    Number given to [$('#cart-count').text(...)] and the text of
    [#cart-total]. *)
Record view : Type := {
  cart_items : items;
  cart_count : Number;
  cart_total : string
}.

(** How a call ends: it returns, or it raises a TypeError. *)
Inductive completion : Type :=
| Normal
| TypeError.

(** The body of the [for (const id in cart)] loop of [updateCart] at an own
    line, on the variables [totalItems], [totalPrice] and [itemList]; [None]
    once the template literal has raised, which it does at a name that has
    no text. *)
Definition updateCart_body (acc : option (Number * Number * list string))
    (kv : string * line) : option (Number * Number * list string) :=
  match acc with
  | None => None
  | Some (totalItems, totalPrice, itemList) =>
      let item := snd kv in
      let totalItems' := Number_add totalItems (Number_of_Z (quantity item)) in
      let totalPrice' :=
        Number_add totalPrice (Number_mul (price item) (Number_of_Z (quantity item))) in
      match to_string (name item) with
      | Some nm =>
          Some (totalItems', totalPrice',
                itemList ++ [itemHtml (fst kv) nm (toFixed2 (price item))
                               (Number_toString (Number_of_Z (quantity item)))])
      | None => None
      end
  end.

(** The loop over the own lines. *)
Definition updateCart_loop (c : cart) : option (Number * Number * list string) :=
  fold_left updateCart_body c (Some (zero, zero, [])).

(** [totalItems] and [totalPrice] when the loop has visited the own lines. *)
Definition totals (c : cart) : option (Number * Number) :=
  match updateCart_loop c with
  | Some (totalItems, totalPrice, _) => Some (totalItems, totalPrice)
  | None => None
  end.

(** The keys [for ... in] visits after the own ones: the enumerable
    properties of [Object.prototype] that no own property hides. There is
    one at most, [quantity], once a click has created it ([polluted]). *)
Definition inherited_keys (polluted : bool) (c : cart) : list string :=
  if polluted
  then match get "quantity" c with
       | None => ["quantity"]
       | Some _ => []
       end
  else [].

(** [updateCart()] on a page that shows [shown]. At the inherited key
    [quantity] the item is the Number NaN that [Object.prototype] holds
    there, [item.price] is undefined and [item.price.toFixed(2)] raises. When
    the loop raises, the container stays emptied and neither the count nor
    the total is written. *)
Definition updateCart (polluted : bool) (c : cart) (shown : view) : view * completion :=
  match c with
  | [] =>
      ({| cart_items := Empty_message; cart_count := zero;
          cart_total := toFixed2 zero |}, Normal)
  | _ =>
      match updateCart_loop c, inherited_keys polluted c with
      | Some (totalItems, totalPrice, itemList), [] =>
          ({| cart_items := Item_list itemList; cart_count := totalItems;
              cart_total := toFixed2 totalPrice |}, Normal)
      | _, _ =>
          ({| cart_items := Emptied; cart_count := cart_count shown;
              cart_total := cart_total shown |}, TypeError)
      end
  end.

(** The text [saveCart] stores under [buxxelCart]. *)
Definition saveCart (c : cart) : string := stringify (value_of_cart c).

(** How the first statement of the ready callback ends. *)
Inductive loaded : Type :=
| SyntaxError
| Loaded (v : value).

(** [JSON.parse(localStorage.getItem('buxxelCart')) || {}]. A missing item
    is null, which [JSON.parse] reads as the text of null. *)
Definition restore (item : option string) : loaded :=
  let text := match item with Some s => s | None => "null" end in
  match parse text with
  | None => SyntaxError
  | Some v => Loaded (if to_boolean v then v else Obj [])
  end.

(** The cart, what the page shows of it, what the store holds, and whether
    [Object.prototype] has been given a property [quantity]. *)
Record page : Type := {
  cart_var : cart;
  dom : view;
  buxxelCart : option string;
  proto_quantity : bool
}.

(** [updateCart(); saveCart();] with the cart being [c]: when [updateCart]
    raises, [saveCart] is not reached. *)
Definition refreshed (polluted : bool) (c : cart) (pg : page) : page :=
  let '(shown, how) := updateCart polluted c (dom pg) in
  {| cart_var := c; dom := shown;
     buxxelCart := match how with
                   | Normal => Some (saveCart c)
                   | TypeError => buxxelCart pg
                   end;
     proto_quantity := polluted |}.

(** The line with its quantity set to [q]. *)
Definition with_quantity (item : line) (q : Z) : line :=
  {| name := name item; price := price item; quantity := q |}.

(** What [cart[id]] is: a line of the cart's own; or, for an id the cart
    has no line under, what the prototype has under that name: a function,
    or the prototype itself for [__proto__], both of them truthy; or
    something falsy, undefined or the NaN under [quantity]. *)
Inductive found : Type :=
| Own (item : line)
| Inherited_function
| Inherited_prototype
| Absent.

Definition lookup (id : string) (c : cart) : found :=
  match get id c with
  | Some item => Own item
  | None =>
      if String.eqb id proto then Inherited_prototype
      else if existsb (String.eqb id) prototype_functions then Inherited_function
      else Absent
  end.

(** Click on an [.add-to-cart-btn], with the constants [id] (as the
    property key it is used as), [name] and [price] holding [id], [nm] and
    [pr]. A click at which [parseFloat] or the conversion of [id] to a
    property key raises ends there, before the cart is touched, and is no
    operation here. On a function of the prototype, [cart[id].quantity++]
    leaves the cart as it is; on the prototype itself it creates [quantity]
    there, with the value NaN. *)
Definition add_to_cart_click (id : string) (nm : value) (pr : Number) (pg : page) : page :=
  let c := cart_var pg in
  match lookup id c with
  | Own item =>
      refreshed (proto_quantity pg) (put id (with_quantity item (quantity item + 1)) c) pg
  | Inherited_function => refreshed (proto_quantity pg) c pg
  | Inherited_prototype => refreshed true c pg
  | Absent =>
      refreshed (proto_quantity pg) (put id {| name := nm; price := pr; quantity := 1 |} c) pg
  end.

(** Click on [.increase-qty]. *)
Definition increase_qty_click (id : string) (pg : page) : page :=
  let c := cart_var pg in
  match lookup id c with
  | Own item =>
      refreshed (proto_quantity pg) (put id (with_quantity item (quantity item + 1)) c) pg
  | Inherited_function => refreshed (proto_quantity pg) c pg
  | Inherited_prototype => refreshed true c pg
  | Absent => pg
  end.

(** Click on [.decrease-qty]. The quantity NaN of an inherited object is not
    [<= 0], so nothing is deleted there. *)
Definition decrease_qty_click (id : string) (pg : page) : page :=
  let c := cart_var pg in
  match lookup id c with
  | Own item =>
      let lowered := with_quantity item (quantity item - 1) in
      let c1 := put id lowered c in
      refreshed (proto_quantity pg) (if quantity lowered <=? 0 then delete id c1 else c1) pg
  | Inherited_function => refreshed (proto_quantity pg) c pg
  | Inherited_prototype => refreshed true c pg
  | Absent => pg
  end.

(** Click on [.remove-item]; [delete] removes own properties only. *)
Definition remove_item_click (id : string) (pg : page) : page :=
  let c := cart_var pg in
  match lookup id c with
  | Own _ => refreshed (proto_quantity pg) (delete id c) pg
  | Inherited_function | Inherited_prototype => refreshed (proto_quantity pg) c pg
  | Absent => pg
  end.

(** The four operations on the cart. *)
Inductive op : Type :=
| Add (id : string) (nm : value) (pr : Number)
| Increase (id : string)
| Decrease (id : string)
| Remove (id : string).

(** The page after an operation. *)
Definition apply (pg : page) (o : op) : page :=
  match o with
  | Add id nm pr => add_to_cart_click id nm pr pg
  | Increase id => increase_qty_click id pg
  | Decrease id => decrease_qty_click id pg
  | Remove id => remove_item_click id pg
  end.

(** The page after a sequence of operations. *)
Definition run (pg : page) (os : list op) : page := fold_left apply os pg.

(** The page once the ready callback has run with nothing stored: the empty
    cart, shown by the first [updateCart()]. *)
Definition fresh : page :=
  {| cart_var := [];
     dom := {| cart_items := Empty_message; cart_count := zero;
               cart_total := toFixed2 zero |};
     buxxelCart := None;
     proto_quantity := false |}.

End Cart.

(** ** The listing feed (infinite scroll and filters) *)

Module Feed.

Import JSNumber JSON Conversion.

(** One element of [response.listings]; the fields are the ones the success
    handler reads. *)
Record listing : Type := {
  id : string;
  name : string;
  price : Number;
  description : string;
  tags : list string;
  image_urls : list string;
  user_id : string
}.

(** A child of [#listing-grid]: the product card built from a listing, or the
    "No listings match your filters." block. *)
Inductive node : Type :=
| Card (l : listing)
| NoMatches.

(** [response.pagination] and [response.listings]. *)
Record response : Type := {
  listings : list listing;
  page : Number;
  has_next : bool
}.

(** A pending [$.ajax] call: its URL together with the variables its
    continuations close over ([isNewFilter], [originalHtml]). *)
Record request : Type := {
  rq_url : string;
  rq_isNewFilter : bool;
  rq_originalHtml : string
}.

(** The part of the page the feed code reads and writes. *)
Record feed : Type := {
  grid : list node;              (* children of #listing-grid *)
  btn_disabled : bool;           (* $('#load-more-btn').prop('disabled') *)
  btn_html : string;             (* $('#load-more-btn').html() *)
  btn_hidden : bool;             (* set by button.hide() *)
  next_page : option Number;     (* button.data('next-page'); None: undefined *)
  active_tag : option string;    (* data-tag of the .tag-btn.active element *)
  search_bar : string;           (* $('#search-bar').val() *)
  observing : bool;              (* the IntersectionObserver is connected *)
  in_flight : list request       (* requests sent and not yet answered *)
}.

(** The markup of the button while a request is pending. *)
Definition spinner_html : string :=
  ("<span class=" ++ dq ++ "spinner-border spinner-border-sm" ++ dq ++
   " role=" ++ dq ++ "status" ++ dq ++ " aria-hidden=" ++ dq ++ "true" ++ dq ++
   "></span> Loading...")%string.

(** The text of the button after a failed request. *)
Definition failed_html : string := "Failed to load. Try again?".

(** [!nextPage]: undefined, 0 and NaN are falsy. *)
Definition truthy_page (p : option Number) : option Number :=
  match p with
  | Some n => if truthy n then Some n else None
  | None => None
  end.

(** The characters [encodeURIComponent] leaves as they are: letters, digits
    and [-_.!~*'()]. *)
Definition uri_unreserved (c : ascii) : bool :=
  let n := N_of_ascii c in
  ((48 <=? n) && (n <=? 57) || (65 <=? n) && (n <=? 90) || (97 <=? n) && (n <=? 122) ||
   existsb (N.eqb n) [45; 95; 46; 33; 126; 42; 39; 40; 41])%N.

(** An upper-case hexadecimal digit. *)
Definition hex_upper (d : N) : ascii :=
  if (d <? 10)%N then ascii_of_N (48 + d) else ascii_of_N (55 + d).

(** [encodeURIComponent(text)]: every byte of the UTF-8 text that is not
    left as it is becomes [%XX]. A text with a lone surrogate, for which the
    function raises a URIError, has no UTF-8 form and is no [string] here. *)
Fixpoint encodeURIComponent (s : string) : string :=
  match s with
  | EmptyString => EmptyString
  | String c s' =>
      if uri_unreserved c then String c (encodeURIComponent s')
      else
        let n := N_of_ascii c in
        String "%" (String (hex_upper (n / 16)) (String (hex_upper (n mod 16))
          (encodeURIComponent s')))
  end.

(** The template literal of the URL. The tag goes in as it is, the search
    text encoded. *)
Definition url (nextPage : Number) (activeTag searchTerm : string) : string :=
  ("/api/listings/paged?page=" ++ Number_toString nextPage ++
   "&tag=" ++ activeTag ++ "&search=" ++ encodeURIComponent searchTerm)%string.

(** [$('.tag-btn.active').data('tag') || 'all']: the attribute of the active
    button as jQuery hands it out, or all in the place of a falsy value and
    when no button is active. *)
Definition activeTag (s : feed) : value :=
  match active_tag s with
  | Some attribute =>
      let v := data attribute in
      if to_boolean v then v else Str "all"
  | None => Str "all"
  end.

(** [loadMoreListings(isNewFilter)] up to the point where [$.ajax] has sent
    the request; the request joins [in_flight] with what its continuations
    will need. When the tag is a value without a text, the template literal
    raises a TypeError: the button has been disabled by then, and nothing is
    sent. *)
Definition loadMoreListings (isNewFilter : bool) (s : feed) : feed :=
  if btn_disabled s && negb isNewFilter then s
  else
    let s1 :=
      if isNewFilter
      then {| grid := []; btn_disabled := btn_disabled s; btn_html := btn_html s;
              btn_hidden := btn_hidden s; next_page := Some one;
              active_tag := active_tag s; search_bar := search_bar s;
              observing := observing s; in_flight := in_flight s |}
      else s in
    let nextPage := if isNewFilter then Some one else next_page s in
    match truthy_page nextPage with
    | None => s1
    | Some p =>
        let sent :=
          match to_string (activeTag s1) with
          | Some tag =>
              [{| rq_url := url p tag (search_bar s1);
                  rq_isNewFilter := isNewFilter; rq_originalHtml := btn_html s1 |}]
          | None => []
          end in
        {| grid := grid s1; btn_disabled := true; btn_html := spinner_html;
           btn_hidden := btn_hidden s1; next_page := next_page s1;
           active_tag := active_tag s1; search_bar := search_bar s1;
           observing := observing s1; in_flight := in_flight s1 ++ sent |}
    end.

(** How a callback ends: it returns, or it raises. *)
Inductive completion : Type :=
| Normal
| ReferenceError (identifier : string).

(** The identifiers a statement in the [success] callback can resolve, from
    the innermost scope outwards: the callback's own, those of
    [loadMoreListings], and those declared at the top of the ready callback.
    [observer] is declared with [const] inside the block of the
    [if (loadMoreContainer && loadMoreBtn)] statement that follows
    [loadMoreListings], so it belongs to none of the three. *)
Definition success_scope : list string := ["response"; "listings"; "pagination"].

Definition loadMoreListings_scope : list string :=
  ["isNewFilter"; "button"; "nextPage"; "originalHtml"; "activeTag"; "searchTerm"].

Definition ready_scope : list string :=
  ["cart"; "updateCart"; "saveCart"; "purveyorButton"; "originalButtonHtml";
   "loadMoreContainer"; "loadMoreListings"; "loadMoreBtn"; "debounce";
   "updateAuthState"; "loadPopularTags"; "loadUserLocation"].

Definition in_scope (x : string) : bool :=
  existsb (String.eqb x) (success_scope ++ loadMoreListings_scope ++ ready_scope).

(** The list without its [i]-th element. *)
Definition remove_at {A : Type} (i : nat) (l : list A) : list A :=
  firstn i l ++ skipn (S i) l.

(** The [success] callback of the request at position [i] of [in_flight],
    called with [r]. *)
Definition success (i : nat) (r : response) (s : feed) : feed * completion :=
  match nth_error (in_flight s) i with
  | None => (s, Normal)
  | Some rq =>
      let appended := grid s ++ map Card (listings r) in
      let g :=
        if rq_isNewFilter rq && (List.length (listings r) =? 0)%nat
        then [NoMatches] else appended in
      if has_next r
      then
        ({| grid := g; btn_disabled := false; btn_html := rq_originalHtml rq;
            btn_hidden := btn_hidden s; next_page := Some (Number_add (page r) one);
            active_tag := active_tag s; search_bar := search_bar s;
            observing := observing s; in_flight := remove_at i (in_flight s) |},
         Normal)
      else
        let hidden (o : bool) :=
          {| grid := g; btn_disabled := btn_disabled s; btn_html := btn_html s;
             btn_hidden := true; next_page := next_page s;
             active_tag := active_tag s; search_bar := search_bar s;
             observing := o; in_flight := remove_at i (in_flight s) |} in
        if in_scope "observer"
        then (hidden false, Normal)
        else (hidden (observing s), ReferenceError "observer")
  end.

(** The [error] callback of the request at position [i]. *)
Definition error (i : nat) (s : feed) : feed :=
  match nth_error (in_flight s) i with
  | None => s
  | Some _ =>
      {| grid := grid s; btn_disabled := false; btn_html := failed_html;
         btn_hidden := btn_hidden s; next_page := next_page s;
         active_tag := active_tag s; search_bar := search_bar s;
         observing := observing s; in_flight := remove_at i (in_flight s) |}
  end.

(** Click on a [.tag-btn] whose [data-tag] attribute is [tag]: the clicked
    button becomes the active one. *)
Definition tag_btn_click (tag : string) (s : feed) : feed :=
  loadMoreListings true
    {| grid := grid s; btn_disabled := btn_disabled s; btn_html := btn_html s;
       btn_hidden := btn_hidden s; next_page := next_page s;
       active_tag := Some tag; search_bar := search_bar s;
       observing := observing s; in_flight := in_flight s |}.

(** The debounced [keyup] callback of [#search-bar], run when the quiet
    window ends; [text] is what the field holds by then. *)
Definition search_bar_keyup (text : string) (s : feed) : feed :=
  loadMoreListings true
    {| grid := grid s; btn_disabled := btn_disabled s; btn_html := btn_html s;
       btn_hidden := btn_hidden s; next_page := next_page s;
       active_tag := active_tag s; search_bar := text;
       observing := observing s; in_flight := in_flight s |}.

(** The IntersectionObserver callback with [isIntersecting]; a disconnected
    observer delivers nothing. *)
Definition intersect (s : feed) : feed :=
  if observing s then loadMoreListings false s else s.

(** What can happen to the feed, one event-loop turn each. *)
Inductive event : Type :=
| TagClick (tag : string)
| SearchKeyup (text : string)
| Intersect
| Success (i : nat) (r : response)
| Error (i : nat).

(** The page after an event; an exception a callback ends with is lost to
    the event loop, what the callback did before it stays. *)
Definition step (s : feed) (e : event) : feed :=
  match e with
  | TagClick tag => tag_btn_click tag s
  | SearchKeyup text => search_bar_keyup text s
  | Intersect => intersect s
  | Success i r => fst (success i r s)
  | Error i => error i s
  end.

(** The page after a sequence of events. *)
Definition run (s : feed) (es : list event) : feed := fold_left step es s.

(** The page as served, before the script runs: an empty grid, an enabled
    load-more button with no page stored, no tag buttons yet. *)
Definition served : feed :=
  {| grid := []; btn_disabled := false; btn_html := "Load More";
     btn_hidden := false; next_page := None; active_tag := None;
     search_bar := EmptyString; observing := false; in_flight := [] |}.

(** The end of the ready callback: observe the container, fetch page 1. *)
Definition ready (s : feed) : feed :=
  loadMoreListings true
    {| grid := grid s; btn_disabled := btn_disabled s; btn_html := btn_html s;
       btn_hidden := btn_hidden s; next_page := next_page s;
       active_tag := active_tag s; search_bar := search_bar s;
       observing := true; in_flight := in_flight s |}.

End Feed.

(** ** Debouncing *)

Module Debounce.

Import Feed.

Section Debounced.

(** What a call passes on: [this] and the arguments. *)
Context {A : Type}.

(** The timer the variable [timeout] of a debounced function refers to,
    while it has neither run nor been cleared: the time it is due, in
    milliseconds, and what it will pass to [func]. *)
Definition timer : Type := (nat * A)%type.

(** The function [debounce(func, delay)] returns, called at time [now]:
    [clearTimeout(timeout); timeout = setTimeout(..., delay)]. *)
Definition debounced (delay now : nat) (args : A) (timeout : option timer)
  : option timer :=
  Some ((now + delay)%nat, args).

(** The event loop up to time [now]: a timer that is due has run, calling
    [func.apply(this, args)] at the time it was due. *)
Definition elapse (now : nat) (timeout : option timer)
  : list (nat * A) * option timer :=
  match timeout with
  | Some (due, args) =>
      if (due <=? now)%nat then ([(due, args)], None) else ([], timeout)
  | None => ([], None)
  end.

(** The calls of [func], each with its time, that a sequence of calls of the
    debounced function leads to; the calls are given with their times, in
    the order in which they happen. A timer left at the end runs when it is
    due. *)
Fixpoint play (delay : nat) (timeout : option timer) (calls : list (nat * A))
  : list (nat * A) :=
  match calls with
  | [] =>
      match timeout with
      | Some t => [t]
      | None => []
      end
  | (now, args) :: calls' =>
      let '(ran, timeout') := elapse now timeout in
      ran ++ play delay (debounced delay now args timeout') calls'
  end.

End Debounced.

(** The search field with its debounced [keyup] handler: each key stroke,
    given with its time and with what the field holds after it, restarts
    the timer; the timer runs [loadMoreListings(true)]. *)
Fixpoint typing (delay : nat) (timeout : option (@timer unit)) (s : feed)
    (keys : list (nat * string)) : feed :=
  match keys with
  | [] =>
      match timeout with
      | Some _ => loadMoreListings true s
      | None => s
      end
  | (now, text) :: keys' =>
      let '(ran, timeout') := elapse now timeout in
      let s1 := match ran with [] => s | _ => loadMoreListings true s end in
      let typed :=
        {| grid := grid s1; btn_disabled := btn_disabled s1; btn_html := btn_html s1;
           btn_hidden := btn_hidden s1; next_page := next_page s1;
           active_tag := active_tag s1; search_bar := text;
           observing := observing s1; in_flight := in_flight s1 |} in
      typing delay (debounced delay now tt timeout') typed keys'
  end.

(** The delay of the search field. *)
Definition search_delay : nat := 300.

End Debounce.

(** ** The purveyor profile modal *)

Module Purveyor.

Import Object JSON Conversion Feed.

(** A [.view-purveyor-btn] element, as far as the handler touches it. *)
Record button : Type := { disabled : bool; html : string }.

(** What [#purveyor-profile-content] holds: what the page came with, the
    spinner, the markup built from a profile, or the alert. *)
Inductive content : Type :=
| Template
| Loading
| Profile (markup : string)
| Alert.

(** [${profile.k}] for a name [k] that no prototype holds. Reading a
    property of null raises a TypeError (here [None]); where there is no such
    property the text is undefined; the value of a property is turned into
    its text, which can raise a TypeError as well. *)
Definition member_text (k : string) (profile : value) : option string :=
  match profile with
  | Null => None
  | Obj o =>
      match get k o with
      | Some v => to_string v
      | None => Some "undefined"
      end
  | _ => Some "undefined"
  end.

(** The template literal of [profileHtml]. *)
Definition profileHtml (profile : value) : option string :=
  match member_text "username" profile,
        member_text "active_listings_count" profile,
        member_text "user_id" profile with
  | Some username, Some count, Some id =>
      Some (
   nl ++
   "                    <div class=" ++ dq ++ "text-center" ++ dq ++ ">" ++ nl ++
   "                        <i class=" ++ dq ++
     "bi bi-shop-window fs-1 text-secondary mb-3" ++ dq ++ "></i>" ++ nl ++
   "                        <h4 class=" ++ dq ++ "mb-1" ++ dq ++ ">" ++ username ++
     "</h4>" ++ nl ++
   "                        <p class=" ++ dq ++ "text-muted" ++ dq ++ ">Has " ++
     count ++ " active listings.</p>" ++ nl ++
   "                        <hr>" ++ nl ++
   "                        <p>What would you like to do?</p>" ++ nl ++
   "                        <a href=" ++ dq ++ "/profile/" ++ id ++ dq ++
     " class=" ++ dq ++ "btn btn-primary w-100 mb-2" ++ dq ++
     ">View All Listings by this Purveyor</a>" ++ nl ++
   "                        <button class=" ++ dq ++
     "btn btn-outline-secondary w-100" ++ dq ++
     " disabled>Contact Purveyor (Coming Soon)</button>" ++ nl ++
   "                    </div>" ++ nl ++
   "                ")%string
  | _, _, _ => None
  end.

(** The modal, the buttons of the page (each element under a number of its
    own) with their [data-user-id] attributes, the two variables
    [purveyorButton] and [originalButtonHtml] that all clicks share, and how
    many profile requests are in flight. *)
Record modal : Type := {
  buttons : nat -> button;
  user_id : nat -> string;
  purveyorButton : option nat;
  originalButtonHtml : string;
  contentArea : content;
  footer_hidden : bool;
  pending : nat
}.

Definition set_button (b : nat) (x : button) (bs : nat -> button) : nat -> button :=
  fun b' => if (b' =? b)%nat then x else bs b'.

(** Click on the button [b]. A disabled button receives no click. The
    request is sent last, to the URL [/api/profiles/${userId}]; when what
    [.data('user-id')] hands out has no text, building the URL raises a
    TypeError and nothing is sent. *)
Definition view_purveyor_btn_click (b : nat) (s : modal) : modal :=
  if disabled (buttons s b) then s
  else
    {| buttons := set_button b {| disabled := true; html := spinner_html |} (buttons s);
       user_id := user_id s;
       purveyorButton := Some b;
       originalButtonHtml := html (buttons s b);
       contentArea := Loading;
       footer_hidden := true;
       pending := match to_string (data (user_id s b)) with
                  | Some _ => S (pending s)
                  | None => pending s
                  end |}.

(** The [complete] callback. *)
Definition complete (s : modal) : modal :=
  match purveyorButton s with
  | Some b =>
      {| buttons :=
           set_button b {| disabled := false; html := originalButtonHtml s |} (buttons s);
         user_id := user_id s;
         purveyorButton := None;
         originalButtonHtml := originalButtonHtml s;
         contentArea := contentArea s;
         footer_hidden := footer_hidden s;
         pending := pending s |}
  | None => s
  end.

(** One request ends. On failure [error] runs and then [complete]. On
    success [success] runs with the profile; when it builds the markup it
    shows it and [complete] follows, and when building the markup raises a
    TypeError the callback ends there, with the content and the footer
    untouched, and jQuery does not get to call [complete]. Nothing ends while
    nothing is in flight. *)
Definition answer (r : option value) (s : modal) : modal :=
  match pending s with
  | O => s
  | S n =>
      let shows (c : content) :=
        complete
          {| buttons := buttons s;
             user_id := user_id s;
             purveyorButton := purveyorButton s;
             originalButtonHtml := originalButtonHtml s;
             contentArea := c;
             footer_hidden := false;
             pending := n |} in
      match r with
      | Some profile =>
          match profileHtml profile with
          | Some markup => shows (Profile markup)
          | None =>
              {| buttons := buttons s;
                 user_id := user_id s;
                 purveyorButton := purveyorButton s;
                 originalButtonHtml := originalButtonHtml s;
                 contentArea := contentArea s;
                 footer_hidden := footer_hidden s;
                 pending := n |}
          end
      | None => shows Alert
      end
  end.

Inductive event : Type :=
| Click (b : nat)
| Answer (r : option value).

Definition step (s : modal) (e : event) : modal :=
  match e with
  | Click b => view_purveyor_btn_click b s
  | Answer r => answer r s
  end.

Definition run (s : modal) (es : list event) : modal := fold_left step es s.

End Purveyor.

(** ** The description of a card and the image preview *)

Module Preview.

(** A JavaScript string as the sequence of its UTF-16 code units. *)
Definition units : Type := list N.

(** The code units of a text of ASCII characters. *)
Definition units_of (s : string) : units :=
  map (fun c => N_of_ascii c) (list_ascii_of_string s).

(** The code units [escape] leaves as they are: letters, digits and
    [@*_+-./]. *)
Definition unescaped (c : N) : bool :=
  ((48 <=? c) && (c <=? 57) || (65 <=? c) && (c <=? 90) || (97 <=? c) && (c <=? 122) ||
   existsb (N.eqb c) (units_of "@*_+-./"))%N.

(** The upper-case hexadecimal digit of [d]. *)
Definition hex_digit (d : N) : N := (if d <? 10 then 48 + d else 55 + d)%N.

(** [escape] on one code unit: [%XX] below 256, [%uXXXX] from there on. *)
Definition escape_unit (c : N) : units :=
  (if unescaped c then [c]
   else if c <? 256 then [37; hex_digit (c / 16); hex_digit (c mod 16)]
   else [37; 117; hex_digit (c / 4096); hex_digit ((c / 256) mod 16);
         hex_digit ((c / 16) mod 16); hex_digit (c mod 16)])%N.

(** [escape(string)] *)
Definition escape (s : units) : units := flat_map escape_unit s.

(** The value of a hexadecimal digit, of either case. *)
Definition hex_value (c : N) : option N :=
  (if (48 <=? c) && (c <=? 57) then Some (c - 48)
   else if (65 <=? c) && (c <=? 70) then Some (c - 55)
   else if (97 <=? c) && (c <=? 102) then Some (c - 87)
   else None)%N.

Definition hex2 (a b : N) : option N :=
  match hex_value a, hex_value b with
  | Some x, Some y => Some (16 * x + y)%N
  | _, _ => None
  end.

Definition hex4 (a b c d : N) : option N :=
  match hex2 a b, hex2 c d with
  | Some x, Some y => Some (256 * x + y)%N
  | _, _ => None
  end.

(** What [unescape] reads after a [%]: the code unit and the rest, when the
    [%] starts [%uXXXX] or [%XX]. *)
Definition decode (r : units) : option (N * units) :=
  match r with
  | u :: h1 :: h2 :: h3 :: h4 :: r4 =>
      if (u =? 117)%N
      then match hex4 h1 h2 h3 h4 with
           | Some n => Some (n, r4)
           | None => None
           end
      else match hex2 u h1 with
           | Some n => Some (n, h2 :: h3 :: h4 :: r4)
           | None => None
           end
  | u :: h1 :: r2 =>
      match hex2 u h1 with
      | Some n => Some (n, r2)
      | None => None
      end
  | _ => None
  end.

Fixpoint unescape_from (fuel : nat) (s : units) : units :=
  match fuel with
  | O => []
  | S fuel' =>
      match s with
      | [] => []
      | c :: r =>
          if (c =? 37)%N
          then match decode r with
               | Some (n, rest) => n :: unescape_from fuel' rest
               | None => c :: unescape_from fuel' r
               end
          else c :: unescape_from fuel' r
      end
  end.

(** [unescape(string)] *)
Definition unescape (s : units) : units := unescape_from (List.length s) s.

Definition units_eqb (a b : units) : bool :=
  if list_eq_dec N.eq_dec a b then true else false.

(** The attributes that [.data()] hands out as a falsy value: the empty
    text, and the texts it turns into [0], [false], [null] and [NaN].
    (Any other text comes out as itself, or as [true] or a number whose text
    it is.) *)
Definition data_falsy (attribute : units) : bool :=
  existsb (units_eqb attribute)
    (map units_of [EmptyString; "0"; "false"; "null"; "NaN"]).

(** The [data-description] attribute the card of a listing is given. *)
Definition data_description (description : units) : units := escape description.

(** The click on an [.image-preview-trigger]: the text put into
    [#imagePreviewDescription], for a card with the attribute
    [data-description]: [unescape(... .data('description') || '')]. *)
Definition image_preview_description (attribute : units) : units :=
  unescape (if data_falsy attribute then [] else attribute).

End Preview.

(** ** The stored session (static/js/app.js) *)

Module Session.

Import JSNumber Object JSON.

(** [v.k] for a name [k] that is neither an index nor [length]: an own
    property of an object, undefined (here [None]) on anything else. *)
Definition property (k : string) (v : value) : option value :=
  match v with
  | Obj o => get k o
  | _ => None
  end.

(** What [updateAuthState] leaves in the navbar: the guest links with the
    call-to-action opening the modal, or the user menu, with what
    [$('#user-email').text(...)] was given ([None] for undefined), and the
    call-to-action leading to [/new-listing]. *)
Inductive navbar : Type :=
| Guest
| User (email : option value).

(** The branch [if (session && session.user)] takes. *)
Definition navbar_of (session : value) : navbar :=
  if to_boolean session
  then match property "user" session with
       | Some user => if to_boolean user then User (property "email" user) else Guest
       | None => Guest
       end
  else Guest.

Inductive outcome : Type :=
| Shown (n : navbar)
| SyntaxError.

(** [updateAuthState()] with [localStorage.getItem('supabaseSession')] being
    [item]; [JSON.parse] turns [null] into the text [null] first. *)
Definition updateAuthState (item : option string) : outcome :=
  match parse (match item with Some text => text | None => "null" end) with
  | Some session => Shown (navbar_of session)
  | None => SyntaxError
  end.

(** The [success] callback of the login request, as far as the storage goes:
    [localStorage.setItem('supabaseSession', JSON.stringify(response))]. *)
Definition login_success (response : value) (item : option string) : option string :=
  Some (stringify response).

(** Click on [#logout-btn]: [localStorage.removeItem('supabaseSession')]. *)
Definition logout_btn_click (item : option string) : option string := None.

End Session.

(** ** The tag buttons *)

Module Tags.

Import Feed.

(** A [.tag-btn]: its [data-tag] attribute and whether it has the class
    [active]. *)
Record tag_btn : Type := { data_tag : string; active : bool }.

(** [$('.tag-btn').removeClass('active'); $(this).addClass('active')], with
    [this] the [i]-th button. *)
Fixpoint activate (i : nat) (bar : list tag_btn) {struct bar} : list tag_btn :=
  match bar with
  | [] => []
  | b :: bar' =>
      {| data_tag := data_tag b; active := match i with O => true | S _ => false end |}
      :: match i with
         | O => map (fun b' => {| data_tag := data_tag b'; active := false |}) bar'
         | S i' => activate i' bar'
         end
  end.

(** The attribute [$('.tag-btn.active').data('tag')] starts from: that of
    the first active button. *)
Fixpoint first_active (bar : list tag_btn) : option string :=
  match bar with
  | [] => None
  | b :: bar' => if active b then Some (data_tag b) else first_active bar'
  end.

(** Click on the [i]-th tag button; there is no click without a button. *)
Definition tag_btn_click (i : nat) (page : list tag_btn * feed) : list tag_btn * feed :=
  let (bar, s) := page in
  match nth_error bar i with
  | None => page
  | Some _ =>
      let bar' := activate i bar in
      (bar',
       loadMoreListings true
         {| grid := grid s; btn_disabled := btn_disabled s; btn_html := btn_html s;
            btn_hidden := btn_hidden s; next_page := next_page s;
            active_tag := first_active bar'; search_bar := search_bar s;
            observing := observing s; in_flight := in_flight s |})
  end.

End Tags.

(** * Notions the properties are stated with *)

(** ** Values that are read back from their text *)

Module JSONSpec.

Import JSNumber Object JSON.

(** What a character of a quoted string is read back as. *)
Definition item_of (c : ascii) : item :=
  let n := N_of_ascii c in
  if ((n =? 34) || (n =? 92) || (n <? 32))%N then Unit16 n else Raw c.

(** Every character of [s] satisfies [p]. *)
Fixpoint all_chars (p : ascii -> bool) (s : string) : bool :=
  match s with
  | EmptyString => true
  | String c s' => p c && all_chars p s'
  end.

(** The text starts as a JSON number does: with a digit or a minus. *)
Definition starts_number (t : string) : bool :=
  match t with
  | String c _ => is_digit c || (N_of_ascii c =? 45)%N
  | EmptyString => false
  end.

(** The Number is finite and its numeral, read as a JSON number, is the
    Number again. JavaScript promises as much of every finite Number but -0;
    here it is a computation on the Number at hand. *)
Definition number_survives (n : Number) : bool :=
  let t := Number_toString n in
  is_finite n && starts_number t && all_chars is_number_char t &&
  match read_numeral t with
  | Some m => Number_eqb m n
  | None => false
  end.

(** The text after a value does not go on as a number. *)
Definition ends_token (rest : string) : bool :=
  match rest with
  | EmptyString => true
  | String c _ => negb (is_number_char c)
  end.

(** [k'] may follow [k] in an object: it is another key, and one that is
    not visited before [k]. *)
Definition may_follow (k k' : string) : bool :=
  negb (String.eqb k' k) && negb (key_before k' k).

(** The keys are distinct and stand in the order objects keep them in. *)
Fixpoint canonical_keys (ks : list string) : bool :=
  match ks with
  | [] => true
  | k :: ks' => forallb (may_follow k) ks' && canonical_keys ks'
  end.

(** An object whose properties stand in enumeration order. *)
Definition canonical {A : Type} (o : object A) : bool := canonical_keys (map fst o).

(** The objects of the value are canonical and its Numbers survive. *)
Fixpoint survives (v : value) : bool :=
  match v with
  | Null | Bool _ | Str _ => true
  | Num n => number_survives n
  | Arr l => forallb survives l
  | Obj o =>
      canonical_keys (map fst o) &&
      forallb (fun kv => match kv with (_, x) => survives x end) o
  end.

(** The fuel reading a value takes at most. *)
Fixpoint size (v : value) : nat :=
  match v with
  | Arr l => S (list_sum (map (fun x => S (size x)) l))
  | Obj o => S (list_sum (map (fun kv => match kv with (_, x) => S (size x) end) o))
  | _ => 1
  end.

(** The text of one member of an object. *)
Definition member_text (kv : string * value) : string :=
  match kv with
  | (k, x) => (quote k ++ ":" ++ stringify x)%string
  end.

(** The first character of the text of a value opens a value. *)
Definition opens_value (s : string) : bool :=
  match s with
  | EmptyString => false
  | String c _ =>
      negb (is_ws c) && negb (N_of_ascii c =? 93)%N && negb (N_of_ascii c =? 125)%N
  end.

(** With fuel for its size, the text of [v] is read as [v], up to the text
    that follows it. *)
Definition reads_back (v : value) : Prop :=
  forall fuel rest,
    (size v <= fuel)%nat -> ends_token rest = true ->
    parse_value fuel (stringify v ++ rest) = Some (v, rest).

End JSONSpec.

(** ** Integers as Numbers *)

Module NumberSpec.

Import JSNumber.

(** The mantissa of the Number of a positive integer below 2^53: its binary
    digits moved up to fill 53 bits. *)
Definition normal (z : positive) : positive :=
  Z.to_pos (Zpos z * 2 ^ (53 - Zpos (digits2_pos z))).

End NumberSpec.

(** ** Sums over the cart, and the scenario's item *)

Module CartSpec.

Import JSNumber Object JSON Conversion Cart JSONSpec.

(** Every line holds at least one item. *)
Definition positive_quantities (c : cart) : Prop :=
  Forall (fun kv => 1 <= quantity (snd kv)) c.

(** The widget of the scenarios: item X1, named Widget, priced 9.99. *)
Definition widget : op := Add "X1" (Str "Widget") (decimal false 999 (-2)).

(** A second item, for carts of two lines: the mug at 4.50. *)
Definition mug : op := Add "17" (Str "Mug") (decimal false 45 (-1)).

(** The sum of the quantities of the lines. *)
Definition sum_quantities (c : cart) : Z :=
  fold_right (fun kv acc => quantity (snd kv) + acc) 0 c.

(** The price of a line times its quantity. *)
Definition line_price (l : line) : Number :=
  Number_mul (price l) (Number_of_Z (quantity l)).

(** The sum of the first [n] lines' prices times quantities: the sum of the
    lines before the [n]-th, and then the [n]-th added to it. Number
    addition rounds, so the order matters; it is the order of the lines. *)
Fixpoint sum_of_first (n : nat) (c : cart) : Number :=
  match n with
  | O => zero
  | S k =>
      match nth_error c k with
      | Some kv => Number_add (sum_of_first k c) (line_price (snd kv))
      | None => sum_of_first k c
      end
  end.

Definition sum_prices (c : cart) : Number := sum_of_first (List.length c) c.

(** Whole prices: [dollars] gives a whole number for each id, and the price
    of every line is the Number of the one for its id. The total of such a
    cart as an integer. *)
Definition whole_prices (dollars : string -> Z) (c : cart) : Prop :=
  Forall (fun kv => 0 <= dollars (fst kv) /\
                    price (snd kv) = Number_of_Z (dollars (fst kv))) c.

Definition exact_total (dollars : string -> Z) (c : cart) : Z :=
  fold_right (fun kv acc => dollars (fst kv) * quantity (snd kv) + acc) 0 c.

(** A pen at 3 and a bottle of ink at 7. *)
Definition pen : op := Add "5" (Str "Pen") (Number_of_Z 3).
Definition ink : op := Add "ink" (Str "Ink") (Number_of_Z 7).

Definition pen_and_ink (id : string) : Z :=
  if String.eqb id "5" then 3 else if String.eqb id "ink" then 7 else 0.

(** The value has a text. *)
Definition has_text (v : value) : bool :=
  match to_string v with
  | Some _ => true
  | None => false
  end.

(** Every name in the cart has a text. *)
Definition names_have_text (c : cart) : bool :=
  forallb (fun kv => has_text (name (snd kv))) c.

(** [updateCart] returns on the page. *)
Definition completes (pg : page) : bool :=
  match snd (updateCart (proto_quantity pg) (cart_var pg) (dom pg)) with
  | Normal => true
  | TypeError => false
  end.

(** An operation that cannot make [updateCart] raise: its id is not
    [__proto__] and the name it carries has a text. *)
Definition plain (o : op) : bool :=
  match o with
  | Add id nm _ => negb (String.eqb id proto) && has_text nm
  | Increase id | Decrease id | Remove id => negb (String.eqb id proto)
  end.

(** The key is none of the names every object inherits. *)
Definition ordinary_key (k : string) : bool :=
  negb (String.eqb k proto) && negb (existsb (String.eqb k) prototype_functions).

Definition ordinary_keys (c : cart) : Prop :=
  Forall (fun kv => ordinary_key (fst kv) = true) c.

(** The names and the Numbers of the cart survive being written and read. *)
Definition values_survive (c : cart) : bool :=
  forallb
    (fun kv => survives (name (snd kv)) &&
               number_survives (price (snd kv)) &&
               number_survives (Number_of_Z (quantity (snd kv))))
    c.

(** The page shows what [updateCart] leaves for its cart, and when
    [updateCart] returns on it the store holds the text of the cart, or
    nothing while the cart has never changed. *)
Definition in_step (pg : page) : Prop :=
  dom pg = fst (updateCart (proto_quantity pg) (cart_var pg) (dom pg)) /\
  (completes pg = true ->
   buxxelCart pg = Some (saveCart (cart_var pg)) \/
   (cart_var pg = [] /\ buxxelCart pg = None)).

(** The text of a value that has one. *)
Definition text (v : value) : string :=
  match to_string v with
  | Some t => t
  | None => EmptyString
  end.

(** The [<li>] of a line whose name has the text [nm]. *)
Definition li_of (kv : string * line) (nm : string) : string :=
  itemHtml (fst kv) nm (toFixed2 (price (snd kv)))
    (Number_toString (Number_of_Z (quantity (snd kv)))).

(** The id an operation is about. *)
Definition op_id (o : op) : string :=
  match o with
  | Add id _ _ | Increase id | Decrease id | Remove id => id
  end.

End CartSpec.

(** ** Sample listings, answers, orderly event sequences, and URLs read *)

Module FeedSpec.

Import JSNumber JSON Conversion Feed JSONSpec.

(** Two listings. *)
Definition mug : listing :=
  {| id := "17"; name := "Mug"; price := S754_zero false; description := "A mug";
     tags := ["kitchen"]; image_urls := []; user_id := "u1" |}.

Definition atlas : listing :=
  {| id := "42"; name := "Atlas"; price := S754_zero false; description := "An atlas";
     tags := ["books"]; image_urls := []; user_id := "u2" |}.

(** The request the ready callback sends from the served page. *)
Definition first_request : request :=
  {| rq_url := "/api/listings/paged?page=1&tag=all&search=";
     rq_isNewFilter := true; rq_originalHtml := "Load More" |}.

(** The answer to the request for page 1 under the tag "all". *)
Definition answer_all : response :=
  {| listings := [mug]; page := one; has_next := true |}.

(** The answer to the request for page 1 under the tag "books". *)
Definition answer_books : response :=
  {| listings := [atlas]; page := one; has_next := true |}.

(** An answer that announces no further page. *)
Definition answer_last : response :=
  {| listings := [mug]; page := one; has_next := false |}.

(** The events that change the filter. *)
Definition is_filter (e : event) : bool :=
  match e with
  | TagClick _ | SearchKeyup _ => true
  | _ => false
  end.

(** The filter events of [es] each find nothing in flight. *)
Fixpoint filters_when_settled (s : feed) (es : list event) : Prop :=
  match es with
  | [] => True
  | e :: es' =>
      (is_filter e = true -> in_flight s = []) /\ filters_when_settled (step s e) es'
  end.

(** While a request is pending the button is disabled. *)
Definition one_at_a_time (s : feed) : Prop :=
  in_flight s = [] \/ (List.length (in_flight s) = 1%nat /\ btn_disabled s = true).

(** The text of the tag that goes into the URL, [None] when the tag is a
    value without a text. *)
Definition tag_text (s : feed) : option string := to_string (activeTag s).

(** The feed with [tag] as the attribute of the active button, and the feed
    with [text] in the search field. *)
Definition with_tag (tag : string) (s : feed) : feed :=
  {| grid := grid s; btn_disabled := btn_disabled s; btn_html := btn_html s;
     btn_hidden := btn_hidden s; next_page := next_page s;
     active_tag := Some tag; search_bar := search_bar s;
     observing := observing s; in_flight := in_flight s |}.

Definition with_search (text : string) (s : feed) : feed :=
  {| grid := grid s; btn_disabled := btn_disabled s; btn_html := btn_html s;
     btn_hidden := btn_hidden s; next_page := next_page s;
     active_tag := active_tag s; search_bar := text;
     observing := observing s; in_flight := in_flight s |}.

(** *** A URL as it is read *)

(** The text before the first [c], and the text after it. *)
Fixpoint before (c : ascii) (s : string) : string :=
  match s with
  | EmptyString => EmptyString
  | String a s' => if Ascii.eqb a c then EmptyString else String a (before c s')
  end.

Fixpoint after (c : ascii) (s : string) : option string :=
  match s with
  | EmptyString => None
  | String a s' => if Ascii.eqb a c then Some s' else after c s'
  end.

(** The pieces of a text between the occurrences of [c]. *)
Fixpoint split_on (c : ascii) (s : string) : list string :=
  match s with
  | EmptyString => [EmptyString]
  | String a s' =>
      if Ascii.eqb a c then EmptyString :: split_on c s'
      else match split_on c s' with
           | x :: xs => String a x :: xs
           | [] => [String a EmptyString]
           end
  end.

(** The query of a URL: what stands between the first [?] and the first
    [#]. The fragment from the [#] on is not sent. *)
Definition query (u : string) : string :=
  match after "?" (before "#" u) with
  | Some q => q
  | None => EmptyString
  end.

(** The value of the first pair named [k] among the pairs [name=value] of
    a query, which [&] separates. *)
Fixpoint value_of (k : string) (pairs : list string) : option string :=
  match pairs with
  | [] => None
  | p :: ps =>
      if String.eqb (before "=" p) k
      then Some (match after "=" p with Some v => v | None => EmptyString end)
      else value_of k ps
  end.

Definition param (k u : string) : option string := value_of k (split_on "&" (query u)).

(** The characters other than [c], and the four characters a URL is cut
    at. *)
Definition other_than (c : ascii) (a : ascii) : bool := negb (Ascii.eqb a c).

Definition cuts (c : ascii) : bool :=
  existsb (Ascii.eqb c) ["#"; "&"; "="; "?"]%char.

(** The text is made of characters that [encodeURIComponent] leaves as they
    are. *)
Definition unreserved (s : string) : bool := all_chars uri_unreserved s.

End FeedSpec.

(** ** Scrolling without a change of filter *)

Module FeedMoreSpec.

Import JSNumber Feed FeedSpec.

(** None of the events changes the filter. *)
Definition scroll_only (es : list event) : bool :=
  forallb (fun e => negb (is_filter e)) es.

(** None of the pending requests was sent by a change of filter. *)
Definition scroll_requests (s : feed) : bool :=
  forallb (fun rq => negb (rq_isNewFilter rq)) (in_flight s).

End FeedMoreSpec.

(** ** Calls that no later call overtakes *)

Module DebounceSpec.

Import Feed Debounce.

(** The calls that are not followed by another call within [delay]
    milliseconds. *)
Fixpoint survivors {A : Type} (delay : nat) (calls : list (nat * A)) : list (nat * A) :=
  match calls with
  | [] => []
  | (now, args) :: calls' =>
      match calls' with
      | [] => [(now, args)]
      | (next, _) :: _ =>
          if (now + delay <=? next)%nat
          then (now, args) :: survivors delay calls'
          else survivors delay calls'
      end
  end.

(** Each call comes less than [delay] milliseconds after the one before. *)
Fixpoint burst {A : Type} (delay : nat) (calls : list (nat * A)) : bool :=
  match calls with
  | [] => true
  | (now, _) :: calls' =>
      match calls' with
      | [] => true
      | (next, _) :: _ => (next <? now + delay)%nat && burst delay calls'
      end
  end.

(** The feed with the search field holding [text]. *)
Definition set_search (text : string) (s : feed) : feed :=
  {| grid := grid s; btn_disabled := btn_disabled s; btn_html := btn_html s;
     btn_hidden := btn_hidden s; next_page := next_page s;
     active_tag := active_tag s; search_bar := text;
     observing := observing s; in_flight := in_flight s |}.

End DebounceSpec.

(** ** Looking at purveyors *)

Module PurveyorSpec.

Import JSNumber JSON Conversion Feed Purveyor.

(** Profiles looked at one after the other: each click is answered before
    the next click. *)
Definition one_at_a_time (views : list (nat * option value)) : list event :=
  flat_map (fun v => [Click (fst v); Answer (snd v)]) views.

(** A page on which nothing has been clicked: every button enabled and
    labelled [label], all of them of the purveyor [u1]. *)
Definition untouched (label : string) : modal :=
  {| buttons := fun _ => {| disabled := false; html := label |};
     user_id := fun _ => "u1";
     purveyorButton := None;
     originalButtonHtml := EmptyString;
     contentArea := Template;
     footer_hidden := false;
     pending := 0 |}.

(** What [.data('user-id')] hands out for the button [b] has a text, so
    that a click on it sends a request. *)
Definition addressed (s : modal) (b : nat) : bool :=
  match to_string (data (user_id s b)) with
  | Some _ => true
  | None => false
  end.

(** The answer is a failure, or a profile the markup can be built from. *)
Definition renders (r : option value) : bool :=
  match r with
  | Some profile =>
      match profileHtml profile with
      | Some _ => true
      | None => false
      end
  | None => true
  end.

(** A profile as the service sends it. *)
Definition ada : value :=
  Obj [("user_id", Str "u1"); ("username", Str "ada");
       ("active_listings_count", Num (Number_of_Z 3))].

(** The button [b] shows the spinner, disabled, and [purveyorButton] does
    not refer to it. *)
Definition stuck (b : nat) (s : modal) : Prop :=
  buttons s b = {| disabled := true; html := spinner_html |} /\
  purveyorButton s <> Some b.

End PurveyorSpec.

(** ** Strings of code units *)

Module PreviewSpec.

Import Preview.

(** Every element is a UTF-16 code unit. *)
Definition code_units (s : units) : Prop := Forall (fun c => (c < 65536)%N) s.

(** The characters that end or change the value of a quoted attribute:
    the double quote and the ampersand. *)
Definition attribute_safe (s : units) : Prop :=
  Forall (fun c => c <> 34%N /\ c <> 38%N) s.

End PreviewSpec.

(** * JSON text read back *)

Module JSONFacts.

Import JSNumber Object JSON JSONSpec.

(** ** Strings *)

Lemma append_assoc (a b c : string) : ((a ++ b) ++ c = a ++ (b ++ c))%string.
Proof. induction a as [|x a IH]; simpl; [reflexivity|now rewrite IH]. Qed.

Lemma append_empty_r (a : string) : (a ++ EmptyString)%string = a.
Proof. induction a as [|x a IH]; simpl; [reflexivity|now rewrite IH]. Qed.

Lemma length_append (a b : string) :
  String.length (a ++ b) = (String.length a + String.length b)%nat.
Proof. induction a as [|x a IH]; simpl; [reflexivity|now rewrite IH]. Qed.

Lemma read_items_escape (c : ascii) (s : string) :
  read_items (escape c ++ s) =
  match read_items s with
  | Some (l, r) => Some (item_of c :: l, r)
  | None => None
  end.
Proof.
  destruct c as [[] [] [] [] [] [] [] []]; reflexivity.
Qed.

Lemma text_of_item_of (c : ascii) (l : list item) :
  text_of (item_of c :: l) = String c (text_of l).
Proof.
  destruct c as [[] [] [] [] [] [] [] []]; destruct l as [|[c0|w] l]; reflexivity.
Qed.

Lemma read_items_escape_all (s rest : string) :
  read_items (escape_all s ++ String quote_char rest) =
  Some (map item_of (list_ascii_of_string s), rest).
Proof.
  induction s as [|c s IH]; simpl; [reflexivity|].
  now rewrite append_assoc, read_items_escape, IH.
Qed.

Lemma text_of_items (s : string) :
  text_of (map item_of (list_ascii_of_string s)) = s.
Proof.
  induction s as [|c s IH]; [reflexivity|].
  change (text_of (item_of c :: map item_of (list_ascii_of_string s)) = String c s).
  now rewrite text_of_item_of, IH.
Qed.

(** A quoted string is read back as the string. *)
Lemma read_string_quote (s rest : string) :
  read_string (escape_all s ++ String quote_char rest) = Some (s, rest).
Proof.
  unfold read_string. now rewrite read_items_escape_all, text_of_items.
Qed.

Lemma quote_append (s rest : string) :
  (quote s ++ rest)%string = String quote_char (escape_all s ++ String quote_char rest).
Proof. unfold quote. simpl. now rewrite append_assoc. Qed.

(** ** Numbers *)

Lemma Number_eqb_eq (x y : Number) : Number_eqb x y = true -> x = y.
Proof.
  destruct x as [a|a| |a m e], y as [b|b| |b n f]; simpl; try discriminate.
  - intros H. now rewrite (Bool.eqb_prop _ _ H).
  - intros H. now rewrite (Bool.eqb_prop _ _ H).
  - reflexivity.
  - intros H. apply andb_prop in H as [H He]. apply andb_prop in H as [Hs Hm].
    apply Bool.eqb_prop in Hs. apply Pos.eqb_eq in Hm. apply Z.eqb_eq in He.
    now subst.
Qed.

Lemma span_all (p : ascii -> bool) (t rest : string) :
  all_chars p t = true ->
  match rest with EmptyString => true | String c _ => negb (p c) end = true ->
  span p (t ++ rest) = (t, rest).
Proof.
  intros Ht Hr. induction t as [|c t IH]; simpl in *.
  - destruct rest as [|c r]; [reflexivity|]. simpl.
    apply negb_true_iff in Hr. now rewrite Hr.
  - apply andb_prop in Ht as [Hc Ht]. now rewrite Hc, (IH Ht).
Qed.

Lemma parse_value_number (f : nat) (c : ascii) (r : string) :
  is_digit c || (N_of_ascii c =? 45)%N = true ->
  parse_value (S f) (String c r) =
  let '(tok, r') := span is_number_char (String c r) in
  match read_numeral tok with
  | Some x => Some (Num x, r')
  | None => None
  end.
Proof.
  destruct c as [[] [] [] [] [] [] [] []]; intros H; try discriminate H; reflexivity.
Qed.

Lemma parse_number (f : nat) (n : Number) (rest : string) :
  number_survives n = true -> ends_token rest = true ->
  parse_value (S f) (Number_toString n ++ rest) = Some (Num n, rest).
Proof.
  unfold number_survives. intros H Hr.
  apply andb_prop in H as [H Hread]. apply andb_prop in H as [H Hall].
  apply andb_prop in H as [_ Hstart].
  destruct (Number_toString n) as [|c t] eqn:E; [discriminate|].
  simpl in Hstart.
  change (String c t ++ rest)%string with (String c (t ++ rest)).
  rewrite (parse_value_number f c (t ++ rest) Hstart).
  change (String c (t ++ rest)) with (String c t ++ rest)%string.
  rewrite (span_all is_number_char (String c t) rest Hall Hr).
  destruct (read_numeral (String c t)) as [m|]; [|discriminate].
  now rewrite (Number_eqb_eq _ _ Hread).
Qed.

(** ** Keys in visiting order *)

Lemma canonical_keys_app (ks ks' : list string) :
  canonical_keys (ks ++ ks') = true -> canonical_keys ks = true.
Proof.
  induction ks as [|k ks IH]; simpl; [reflexivity|].
  intros H. apply andb_prop in H as [H1 H2].
  rewrite forallb_app in H1. apply andb_prop in H1 as [H1 _].
  now rewrite H1, (IH H2).
Qed.

(** A property defined after those of a canonical object, under a key that
    may follow theirs, is appended. *)
Lemma put_last {A : Type} (k : string) (v : A) (o : object A) :
  canonical_keys (map fst o ++ [k]) = true -> put k v o = o ++ [(k, v)].
Proof.
  induction o as [|[k' v'] o IH]; simpl; [reflexivity|].
  intros H. apply andb_prop in H as [H1 H2].
  rewrite forallb_app in H1. apply andb_prop in H1 as [_ H1].
  simpl in H1. rewrite andb_true_r in H1. unfold may_follow in H1.
  apply andb_prop in H1 as [Hne Hnb].
  apply negb_true_iff in Hne. apply negb_true_iff in Hnb.
  now rewrite Hne, Hnb, (IH H2).
Qed.

Lemma key_before_asym (a b : string) :
  key_before a b = true -> key_before b a = false.
Proof.
  unfold key_before.
  destruct (array_index a) as [x|], (array_index b) as [y|]; try discriminate; auto.
  intros H. apply N.ltb_lt in H. apply N.ltb_ge. lia.
Qed.

Lemma key_before_trans (a b c : string) :
  key_before a b = true -> key_before b c = true -> key_before a c = true.
Proof.
  unfold key_before.
  destruct (array_index a) as [x|], (array_index b) as [y|], (array_index c) as [z|];
    try discriminate; auto.
  intros H1 H2. apply N.ltb_lt in H1, H2. apply N.ltb_lt. lia.
Qed.

Lemma forallb_impl {A : Type} (P Q : A -> bool) (l : list A) :
  (forall x, P x = true -> Q x = true) -> forallb P l = true -> forallb Q l = true.
Proof.
  intros PQ. induction l as [|x l IH]; simpl; [reflexivity|].
  intros H. apply andb_prop in H as [Hx Hl]. now rewrite (PQ _ Hx), (IH Hl).
Qed.

Lemma forallb_keys_put {A : Type} (Q : string -> bool) (k : string) (v : A) (o : object A) :
  Q k = true -> forallb Q (map fst o) = true -> forallb Q (map fst (put k v o)) = true.
Proof.
  intros Hk. induction o as [|[k' v'] o IH]; simpl.
  - now rewrite Hk.
  - intros H. apply andb_prop in H as [Hk' Ho].
    destruct (String.eqb k k'); simpl; [now rewrite Hk, Ho|].
    destruct (key_before k k'); simpl; [now rewrite Hk, Hk', Ho|].
    now rewrite Hk', (IH Ho).
Qed.

Lemma forallb_keys_delete {A : Type} (Q : string -> bool) (k : string) (o : object A) :
  forallb Q (map fst o) = true -> forallb Q (map fst (delete k o)) = true.
Proof.
  induction o as [|[k' v'] o IH]; simpl; [reflexivity|].
  intros H. apply andb_prop in H as [Hk' Ho].
  destruct (String.eqb k k'); simpl; [now apply IH|]. now rewrite Hk', (IH Ho).
Qed.

(** Defining or assigning a property keeps an object canonical. *)
Lemma canonical_put {A : Type} (k : string) (v : A) (o : object A) :
  canonical o = true -> canonical (put k v o) = true.
Proof.
  unfold canonical. induction o as [|[k1 v1] o IH]; simpl; [reflexivity|].
  intros H. apply andb_prop in H as [H1 Ho].
  destruct (String.eqb k k1) eqn:E; simpl.
  - apply String.eqb_eq in E. subst k1. now rewrite H1, Ho.
  - destruct (key_before k k1) eqn:B; simpl.
    + rewrite H1, Ho, !andb_true_r.
      apply andb_true_intro. split.
      * unfold may_follow. rewrite String.eqb_sym, E.
        now rewrite (key_before_asym _ _ B).
      * apply (forallb_impl (may_follow k1)); [|exact H1].
        intros k' Hk'. unfold may_follow in *.
        apply andb_prop in Hk' as [Hne Hnb].
        apply negb_true_iff in Hne, Hnb.
        apply andb_true_intro. split; apply negb_true_iff.
        -- destruct (String.eqb k' k) eqn:E'; [|reflexivity].
           apply String.eqb_eq in E'. subst k'. congruence.
        -- destruct (key_before k' k) eqn:B'; [|reflexivity].
           rewrite (key_before_trans _ _ _ B' B) in Hnb. discriminate.
    + rewrite (IH Ho), andb_true_r.
      apply forallb_keys_put; [|exact H1].
      unfold may_follow. now rewrite E, B.
Qed.

(** So does deleting one. *)
Lemma canonical_delete {A : Type} (k : string) (o : object A) :
  canonical o = true -> canonical (delete k o) = true.
Proof.
  unfold canonical. induction o as [|[k1 v1] o IH]; simpl; [reflexivity|].
  intros H. apply andb_prop in H as [H1 Ho].
  destruct (String.eqb k k1); simpl; [now apply IH|].
  now rewrite (IH Ho), (forallb_keys_delete _ _ _ H1).
Qed.

(** ** Values that are read back as they are *)

Section ValueInduction.

Variable P : value -> Prop.
Hypothesis HNull : P Null.
Hypothesis HBool : forall b, P (Bool b).
Hypothesis HNum : forall n, P (Num n).
Hypothesis HStr : forall s, P (Str s).
Hypothesis HArr : forall l, Forall P l -> P (Arr l).
Hypothesis HObj : forall o, Forall (fun kv => P (snd kv)) o -> P (Obj o).

Fixpoint value_induction (v : value) : P v :=
  match v with
  | Null => HNull
  | Bool b => HBool b
  | Num n => HNum n
  | Str s => HStr s
  | Arr l =>
      HArr l ((fix all (l : list value) : Forall P l :=
               match l with
               | [] => Forall_nil P
               | x :: l' => Forall_cons x (value_induction x) (all l')
               end) l)
  | Obj o =>
      HObj o ((fix all (o : list (string * value)) : Forall (fun kv => P (snd kv)) o :=
               match o with
               | [] => Forall_nil _
               | (k, x) :: o' =>
                   Forall_cons (P := fun kv => P (snd kv)) (k, x)
                     (value_induction x) (all o')
               end) o)
  end.

End ValueInduction.

Lemma stringify_opens (v : value) : survives v = true -> opens_value (stringify v) = true.
Proof.
  destruct v as [|b|n|s|l|o]; simpl; intros H; try reflexivity.
  - now destruct b.
  - unfold number_survives in H.
    apply andb_prop in H as [H _]. apply andb_prop in H as [H _].
    apply andb_prop in H as [Hfin Hstart]. rewrite Hfin.
    destruct (Number_toString n) as [|c t]; [discriminate|]. simpl in *.
    destruct c as [[] [] [] [] [] [] [] []]; try discriminate Hstart; reflexivity.
Qed.

Lemma opens_value_append (s rest : string) :
  opens_value s = true -> opens_value (s ++ rest) = true.
Proof. destruct s; [discriminate|auto]. Qed.

(** ** Text read back *)

Lemma parse_value_string (f : nat) (r : string) :
  parse_value (S f) (String quote_char r) =
  match read_string r with
  | Some (str, r') => Some (Str str, r')
  | None => None
  end.
Proof. reflexivity. Qed.

Lemma parse_value_array (f : nat) (s : string) :
  opens_value s = true ->
  parse_value (S f) (String "[" s) = parse_elements f s [].
Proof.
  destruct s as [|c t]; [discriminate|]. simpl. intros H.
  apply andb_prop in H as [H H125]. apply andb_prop in H as [Hws H93].
  apply negb_true_iff in Hws, H93. now rewrite Hws, H93.
Qed.

Lemma parse_members_step (f : nat) (k sv rest : string) (v : value)
    (acc : list (string * value)) :
  parse_value f (sv ++ rest) = Some (v, rest) ->
  parse_members (S f) (quote k ++ ":" ++ sv ++ rest) acc =
  match skip_ws rest with
  | EmptyString => None
  | String c r =>
      if (N_of_ascii c =? 44)%N then parse_members f r (put k v acc)
      else if (N_of_ascii c =? 125)%N then Some (Obj (put k v acc), r)
      else None
  end.
Proof.
  intros H. rewrite quote_append.
  cbn [parse_members skip_ws].
  change (is_ws quote_char) with false. cbv iota.
  change (N_of_ascii quote_char =? 34)%N with true. cbv iota.
  rewrite read_string_quote.
  cbn [append skip_ws]. change (is_ws ":") with false. cbv iota.
  change (N_of_ascii ":" =? 58)%N with true. cbv iota.
  now rewrite H.
Qed.

Lemma parse_elements_step (f : nat) (sv rest : string) (v : value) (acc : list value) :
  parse_value f (sv ++ rest) = Some (v, rest) ->
  parse_elements (S f) (sv ++ rest) acc =
  match skip_ws rest with
  | EmptyString => None
  | String c r =>
      if (N_of_ascii c =? 44)%N then parse_elements f r (acc ++ [v])
      else if (N_of_ascii c =? 93)%N then Some (Arr (acc ++ [v]), r)
      else None
  end.
Proof. intros H. cbn [parse_elements]. now rewrite H. Qed.

Lemma elements_read_back (l : list value) :
  Forall (fun x => survives x = true -> reads_back x) l ->
  forallb survives l = true ->
  forall (x : value) (acc : list value) (f : nat) (rest : string),
    survives x = true -> reads_back x ->
    (list_sum (map (fun y => S (size y)) (x :: l)) <= f)%nat ->
    parse_elements f (join (map stringify (x :: l)) ++ String "]" rest) acc =
    Some (Arr (acc ++ x :: l), rest).
Proof.
  induction 1 as [|y l Hy Hl IH]; intros Hs x acc f rest Hx Rx Hf.
  - simpl in Hf. destruct f as [|f]; [lia|].
    cbn [map join].
    rewrite (parse_elements_step f (stringify x) (String "]" rest) x acc).
    + reflexivity.
    + apply Rx; [lia|reflexivity].
  - simpl in Hs. apply andb_prop in Hs as [Hys Hs].
    destruct f as [|f]; [simpl in Hf; lia|].
    change (join (map stringify (x :: y :: l)))
      with (stringify x ++ "," ++ join (map stringify (y :: l)))%string.
    rewrite !append_assoc.
    rewrite (parse_elements_step f (stringify x) _ x acc).
    + cbn [append skip_ws]. change (is_ws ",") with false. cbv iota.
      change (N_of_ascii "," =? 44)%N with true. cbv iota.
      rewrite (IH Hs y (acc ++ [x]) f rest Hys (Hy Hys)).
      * now rewrite <- app_assoc.
      * simpl in Hf |- *. lia.
    + apply Rx; [simpl in Hf; lia|reflexivity].
Qed.

Lemma parse_value_members (f : nat) (r : string) :
  parse_value (S f) (String "{" (String quote_char r)) =
  parse_members f (String quote_char r) [].
Proof. reflexivity. Qed.

Lemma member_text_append (k : string) (x : value) (rest : string) :
  (member_text (k, x) ++ rest)%string =
  (quote k ++ ":" ++ stringify x ++ rest)%string.
Proof. unfold member_text. now rewrite !append_assoc. Qed.

Lemma members_read_back (o : list (string * value)) :
  Forall (fun kv => survives (snd kv) = true -> reads_back (snd kv)) o ->
  forallb (fun kv => match kv with (_, x) => survives x end) o = true ->
  forall (k : string) (x : value) (acc : list (string * value)) (f : nat) (rest : string),
    survives x = true -> reads_back x ->
    canonical_keys (map fst (acc ++ (k, x) :: o)) = true ->
    (list_sum (map (fun kv => match kv with (_, y) => S (size y) end) ((k, x) :: o)) <= f)%nat ->
    parse_members f (join (map member_text ((k, x) :: o)) ++ String "}" rest) acc =
    Some (Obj (acc ++ (k, x) :: o), rest).
Proof.
  induction 1 as [|[k' y] o Hy Ho IH]; intros Hs k x acc f rest Hx Rx Hc Hf.
  - simpl in Hf. destruct f as [|f]; [lia|].
    cbn [map join]. rewrite member_text_append.
    rewrite (parse_members_step f k (stringify x) (String "}" rest) x acc).
    + cbn [skip_ws]. change (is_ws "}") with false. cbv iota.
      change (N_of_ascii "}" =? 44)%N with false.
      change (N_of_ascii "}" =? 125)%N with true. cbv iota.
      rewrite put_last; [reflexivity|].
      now rewrite map_app in Hc.
    + apply Rx; [lia|reflexivity].
  - simpl in Hs. apply andb_prop in Hs as [Hys Hs].
    destruct f as [|f]; [simpl in Hf; lia|].
    change (join (map member_text ((k, x) :: (k', y) :: o)))
      with (member_text (k, x) ++ "," ++ join (map member_text ((k', y) :: o)))%string.
    rewrite append_assoc, member_text_append.
    rewrite (parse_members_step f k (stringify x) _ x acc).
    + cbn [append skip_ws]. change (is_ws ",") with false. cbv iota.
      change (N_of_ascii "," =? 44)%N with true. cbv iota.
      assert (Hput : put k x acc = acc ++ [(k, x)]).
      { apply put_last. rewrite map_app in Hc. simpl in Hc.
        change (map fst acc ++ k :: k' :: map fst o)
          with (map fst acc ++ [k] ++ k' :: map fst o) in Hc.
        rewrite app_assoc in Hc. exact (canonical_keys_app _ _ Hc). }
      rewrite Hput.
      rewrite (IH Hs k' y (acc ++ [(k, x)]) f rest Hys (Hy Hys)).
      * now rewrite <- app_assoc.
      * now rewrite <- app_assoc.
      * simpl in Hf |- *. lia.
    + apply Rx; [simpl in Hf; lia|reflexivity].
Qed.

(** A value whose objects are canonical and whose Numbers survive is read
    back from its text, whatever follows the text. *)
Lemma stringify_reads_back (v : value) : survives v = true -> reads_back v.
Proof.
  induction v as [|b|n|s|l IH|o IH] using value_induction;
    intros Hs fuel rest Hf Hr; simpl in Hf.
  - destruct fuel as [|f]; [lia|]. reflexivity.
  - destruct fuel as [|f]; [lia|]. now destruct b.
  - destruct fuel as [|f]; [lia|]. simpl in Hs |- *.
    assert (Hfin : is_finite n = true).
    { unfold number_survives in Hs.
      apply andb_prop in Hs as [Hs _]. apply andb_prop in Hs as [Hs _].
      now apply andb_prop in Hs as [Hs _]. }
    rewrite Hfin. now apply parse_number.
  - destruct fuel as [|f]; [lia|].
    change (stringify (Str s)) with (quote s).
    now rewrite quote_append, parse_value_string, read_string_quote.
  - destruct fuel as [|f]; [lia|].
    destruct l as [|x l]; [reflexivity|].
    change (stringify (Arr (x :: l)))
      with ("[" ++ join (map stringify (x :: l)) ++ "]")%string.
    rewrite !append_assoc. cbn [append].
    simpl in Hs. apply andb_prop in Hs as [Hx Hl].
    inversion IH as [|x' l' Px Pl]; subst.
    rewrite parse_value_array.
    + rewrite (elements_read_back l Pl Hl x [] f rest Hx (Px Hx)); [reflexivity|].
      simpl in Hf |- *. lia.
    + destruct l as [|y l]; cbn [map join].
      * apply opens_value_append. now apply stringify_opens.
      * rewrite !append_assoc. apply opens_value_append. now apply stringify_opens.
  - destruct fuel as [|f]; [lia|].
    destruct o as [|[k x] o]; [reflexivity|].
    change (stringify (Obj ((k, x) :: o)))
      with ("{" ++ join (map member_text ((k, x) :: o)) ++ "}")%string.
    rewrite !append_assoc. cbn [append].
    simpl in Hs. apply andb_prop in Hs as [Hc Hs]. apply andb_prop in Hs as [Hx Ho].
    inversion IH as [|kx o' Px Po]; subst. simpl in Px.
    assert (Hhead : exists r,
               (join (map member_text ((k, x) :: o)) ++ String "}" rest)%string
               = String quote_char r).
    { destruct o as [|[k' y] o]; cbn [map join];
        rewrite ?append_assoc, member_text_append, quote_append; eauto. }
    destruct Hhead as [r Er].
    rewrite Er, parse_value_members, <- Er.
    rewrite (members_read_back o Po Ho k x [] f rest Hx (Px Hx)); [reflexivity| |].
    + exact Hc.
    + simpl in Hf |- *. lia.
Qed.

(** ** The size of a value and the length of its text *)

Lemma join_length {A : Type} (g : A -> nat) (h : A -> string) (l : list A) :
  Forall (fun a => (g a <= String.length (h a))%nat) l ->
  (list_sum (map (fun a => S (g a)) l) <= S (String.length (join (map h l))))%nat.
Proof.
  induction 1 as [|a l Ha Hl IH]; [simpl; lia|].
  destruct l as [|b l].
  - simpl. lia.
  - change (join (map h (a :: b :: l)))
      with (h a ++ String "," (join (map h (b :: l))))%string.
    rewrite length_append.
    change (list_sum (map (fun a0 => S (g a0)) (a :: b :: l)))
      with (S (g a) + list_sum (map (fun a0 => S (g a0)) (b :: l)))%nat.
    cbn [String.length]. lia.
Qed.

Lemma size_le_length (v : value) :
  survives v = true -> (size v <= String.length (stringify v))%nat.
Proof.
  induction v as [|b|n|s|l IH|o IH] using value_induction; intros Hs.
  - simpl. lia.
  - destruct b; simpl; lia.
  - simpl in *. unfold number_survives in Hs.
    apply andb_prop in Hs as [Hs _]. apply andb_prop in Hs as [Hs _].
    apply andb_prop in Hs as [Hfin Hstart]. rewrite Hfin.
    destruct (Number_toString n); [discriminate|]. simpl. lia.
  - simpl. lia.
  - change (stringify (Arr l)) with ("[" ++ join (map stringify l) ++ "]")%string.
    change (size (Arr l)) with (S (list_sum (map (fun x => S (size x)) l))).
    cbn [append String.length]. rewrite length_append. simpl String.length.
    simpl in Hs.
    assert (H : Forall (fun x => (size x <= String.length (stringify x))%nat) l).
    { rewrite Forall_forall in *. intros x Hx. apply IH; [exact Hx|].
      rewrite forallb_forall in Hs. now apply Hs. }
    pose proof (join_length size stringify l H) as J.
    clear - J. lia.
  - change (stringify (Obj o)) with ("{" ++ join (map member_text o) ++ "}")%string.
    change (size (Obj o))
      with (S (list_sum (map (fun kv : string * value =>
                                match kv with (_, x) => S (size x) end) o))).
    cbn [append String.length]. rewrite length_append. simpl String.length.
    simpl in Hs. apply andb_prop in Hs as [_ Hs].
    assert (H : Forall (fun kv => (size (snd kv) <= String.length (member_text kv))%nat) o).
    { rewrite Forall_forall in *. intros [k x] Hx.
      rewrite forallb_forall in Hs. specialize (Hs _ Hx). specialize (IH _ Hx Hs).
      cbn [snd] in IH |- *. unfold member_text. rewrite !length_append.
      clear - IH. lia. }
    pose proof (join_length (fun kv => size (snd kv)) member_text o H) as J.
    assert (E : map (fun kv : string * value => match kv with (_, x) => S (size x) end) o
                = map (fun kv => S (size (snd kv))) o).
    { apply map_ext. now intros [k x]. }
    rewrite E. clear - J. lia.
Qed.

(** [JSON.parse(JSON.stringify(v))] is [v] for a value whose objects are
    canonical and whose Numbers survive. *)
Lemma parse_stringify (v : value) : survives v = true -> parse (stringify v) = Some v.
Proof.
  intros Hs. unfold parse.
  pose proof (stringify_reads_back v Hs (S (String.length (stringify v))) EmptyString) as H.
  rewrite append_empty_r in H. rewrite H; [reflexivity| |reflexivity].
  pose proof (size_le_length v Hs). lia.
Qed.

(** ** Fuel *)

Lemma skip_ws_length (s : string) : (String.length (skip_ws s) <= String.length s)%nat.
Proof.
  induction s as [|c s IH]; simpl; [lia|].
  destruct (is_ws c); simpl; lia.
Qed.

Lemma span_length (p : ascii -> bool) (s a b : string) :
  span p s = (a, b) -> String.length s = (String.length a + String.length b)%nat.
Proof.
  revert a b. induction s as [|c s IH]; simpl; intros a b H.
  - injection H as <- <-. reflexivity.
  - destruct (p c).
    + destruct (span p s) as [a' b'] eqn:E. injection H as <- <-.
      simpl. now rewrite (IH a' b' eq_refl).
    + injection H as <- <-. reflexivity.
Qed.

Lemma strip_prefix_length (p s r : string) :
  strip_prefix p s = Some r -> String.length s = (String.length p + String.length r)%nat.
Proof.
  revert s. induction p as [|a p IH]; simpl; intros s H.
  - now injection H as <-.
  - destruct s as [|b s]; [discriminate|].
    destruct (Ascii.eqb a b); [|discriminate]. simpl. now rewrite (IH s H).
Qed.

Lemma read_items_length (n : nat) :
  forall s l r, (String.length s <= n)%nat ->
    read_items s = Some (l, r) -> (String.length r < String.length s)%nat.
Proof.
  induction n as [|n IH]; intros s l r Hn H.
  - destruct s; [discriminate|simpl in Hn; lia].
  - destruct s as [|c s]; [discriminate|]. simpl in Hn.
    cbn [read_items] in H.
    destruct (N_of_ascii c =? 34)%N.
    { injection H as <- <-. simpl. lia. }
    destruct (N_of_ascii c <? 32)%N; [discriminate|].
    destruct (N_of_ascii c =? 92)%N.
    2:{ destruct (read_items s) as [[l' r']|] eqn:E; [|discriminate].
        injection H as <- <-. apply IH in E; [simpl; lia|lia]. }
    destruct s as [|e s]; [discriminate|]. simpl in Hn.
    assert (Hs : forall u, match read_items s with
                           | Some (l0, r0) => Some (Unit16 u :: l0, r0)
                           | None => None
                           end = Some (l, r) ->
                           (String.length r < String.length (String c (String e s)))%nat).
    { intros u Hu. destruct (read_items s) as [[l' r']|] eqn:E; [|discriminate].
      injection Hu as <- <-. apply IH in E; [simpl; lia|lia]. }
    repeat match type of H with
           | (if ?b then _ else _) = _ => destruct b; [now apply (Hs _ H)|]
           end.
    destruct (N_of_ascii e =? 117)%N; [|discriminate].
    destruct s as [|h1 [|h2 [|h3 [|h4 s]]]]; try discriminate.
    destruct (hex_value h1), (hex_value h2), (hex_value h3), (hex_value h4); try discriminate.
    destruct (read_items s) as [[l' r']|] eqn:E; [|discriminate].
    injection H as <- <-. simpl in Hn. apply IH in E; [simpl; lia|lia].
Qed.

Lemma read_string_length (s t r : string) :
  read_string s = Some (t, r) -> (String.length r < String.length s)%nat.
Proof.
  unfold read_string. destruct (read_items s) as [[l r']|] eqn:E; [|discriminate].
  intros H. injection H as _ <-. exact (read_items_length _ _ _ _ (le_n _) E).
Qed.

(** Rewrites with the facts at hand about the text being read. *)
Ltac replay :=
  repeat match goal with
         | H : ?b = true |- context [?b] => rewrite H
         | H : ?b = false |- context [?b] => rewrite H
         | H : skip_ws ?s = _ |- context [skip_ws ?s] => rewrite H
         | H : read_string ?s = _ |- context [read_string ?s] => rewrite H
         | H : span ?p ?s = _ |- context [span ?p ?s] => rewrite H
         | H : read_numeral ?s = _ |- context [read_numeral ?s] => rewrite H
         | H : strip_prefix ?p ?s = _ |- context [strip_prefix ?p ?s] => rewrite H
         end.

(** What some fuel reads, any fuel from a bound the text read pays for reads
    alike. *)
Lemma fuel_adequate (f : nat) :
  (forall s v r, parse_value f s = Some (v, r) ->
     exists n, (1 <= n)%nat /\ (n + String.length r <= String.length s)%nat /\
       forall f', (n <= f')%nat -> parse_value f' s = Some (v, r)) /\
  (forall s acc v r, parse_members f s acc = Some (v, r) ->
     exists n, (1 <= n)%nat /\ (n + String.length r <= String.length s)%nat /\
       forall f', (n <= f')%nat -> parse_members f' s acc = Some (v, r)) /\
  (forall s acc v r, parse_elements f s acc = Some (v, r) ->
     exists n, (1 <= n)%nat /\ (n + String.length r <= String.length s)%nat /\
       forall f', (n <= f')%nat -> parse_elements f' s acc = Some (v, r)).
Proof.
  induction f as [|f (IHv & IHm & IHe)]; [repeat split; intros; discriminate|].
  split; [|split].
  - intros s v r H. cbn [parse_value] in H.
    pose proof (skip_ws_length s) as Ls.
    destruct (skip_ws s) as [|c t] eqn:Es; [discriminate|]. simpl in Ls.
    destruct (N_of_ascii c =? 123)%N eqn:E1.
    { pose proof (skip_ws_length t) as Lt.
      destruct (skip_ws t) as [|c' t'] eqn:Et; [discriminate|]. simpl in Lt.
      destruct (N_of_ascii c' =? 125)%N eqn:E2.
      - injection H as <- <-. exists 1%nat. split; [lia|split; [simpl; lia|]].
        intros [|f'] Hf; [lia|]. cbn [parse_value]. now replay.
      - destruct (IHm _ _ _ _ H) as (m & M1 & M2 & M3).
        exists (S m). split; [lia|split; [simpl; lia|]].
        intros [|f'] Hf; [lia|]. cbn [parse_value]. replay. apply M3. lia. }
    destruct (N_of_ascii c =? 91)%N eqn:E3.
    { pose proof (skip_ws_length t) as Lt.
      destruct (skip_ws t) as [|c' t'] eqn:Et; [discriminate|]. simpl in Lt.
      destruct (N_of_ascii c' =? 93)%N eqn:E2.
      - injection H as <- <-. exists 1%nat. split; [lia|split; [simpl; lia|]].
        intros [|f'] Hf; [lia|]. cbn [parse_value]. now replay.
      - destruct (IHe _ _ _ _ H) as (m & M1 & M2 & M3).
        exists (S m). split; [lia|split; [simpl; lia|]].
        intros [|f'] Hf; [lia|]. cbn [parse_value]. replay. apply M3. lia. }
    destruct (N_of_ascii c =? 34)%N eqn:E4.
    { destruct (read_string t) as [[str r']|] eqn:Er; [|discriminate].
      injection H as <- <-. pose proof (read_string_length _ _ _ Er).
      exists 1%nat. split; [lia|split; [simpl; lia|]].
      intros [|f'] Hf; [lia|]. cbn [parse_value]. now replay. }
    destruct (is_digit c || (N_of_ascii c =? 45)%N) eqn:E5.
    { destruct (span is_number_char (String c t)) as [tok r'] eqn:Et.
      destruct (read_numeral tok) as [x|] eqn:Ex; [|discriminate].
      injection H as <- <-. pose proof (span_length _ _ _ _ Et) as L. simpl in L.
      assert (tok <> EmptyString) by (intros ->; discriminate).
      destruct tok; [congruence|]. simpl in L.
      exists 1%nat. split; [lia|split; [simpl; lia|]].
      intros [|f'] Hf; [lia|]. cbn [parse_value]. now replay. }
    assert (Hlit : exists p, (1 <= String.length p)%nat /\
                             strip_prefix p (String c t) = Some r).
    { destruct (strip_prefix "true" (String c t)) as [r1|] eqn:T1.
      { injection H as <- <-. exists "true". split; [simpl; lia|exact T1]. }
      destruct (strip_prefix "false" (String c t)) as [r2|] eqn:T2.
      { injection H as <- <-. exists "false". split; [simpl; lia|exact T2]. }
      destruct (strip_prefix "null" (String c t)) as [r3|] eqn:T3; [|discriminate].
      injection H as <- <-. exists "null". split; [simpl; lia|exact T3]. }
    destruct Hlit as (p & Lp & Hp). apply strip_prefix_length in Hp. simpl in Hp.
    exists 1%nat. split; [lia|split; [simpl; lia|]].
    intros [|f'] Hf; [lia|]. cbn [parse_value]. replay. exact H.
  - intros s acc v r H. cbn [parse_members] in H.
    pose proof (skip_ws_length s) as Ls.
    destruct (skip_ws s) as [|c t] eqn:Es; [discriminate|]. simpl in Ls.
    destruct (N_of_ascii c =? 34)%N eqn:E1; [|discriminate].
    destruct (read_string t) as [[k r1]|] eqn:Er; [|discriminate].
    pose proof (read_string_length _ _ _ Er) as Lr.
    pose proof (skip_ws_length r1) as L1.
    destruct (skip_ws r1) as [|c1 r2] eqn:E2; [discriminate|]. simpl in L1.
    destruct (N_of_ascii c1 =? 58)%N eqn:E3; [|discriminate].
    destruct (parse_value f r2) as [[x r3]|] eqn:Ev; [|discriminate].
    destruct (IHv _ _ _ Ev) as (n1 & N1 & N2 & N3).
    pose proof (skip_ws_length r3) as L3.
    destruct (skip_ws r3) as [|c3 r4] eqn:E4; [discriminate|]. simpl in L3.
    destruct (N_of_ascii c3 =? 44)%N eqn:E5.
    + destruct (IHm _ _ _ _ H) as (n2 & M1 & M2 & M3).
      exists (S (n1 + n2)). split; [lia|split; [simpl; lia|]].
      intros [|f'] Hf; [lia|]. cbn [parse_members]. replay.
      rewrite (N3 f') by lia. replay. apply M3. lia.
    + destruct (N_of_ascii c3 =? 125)%N eqn:E6; [|discriminate].
      injection H as <- <-.
      exists (S n1). split; [lia|split; [simpl; lia|]].
      intros [|f'] Hf; [lia|]. cbn [parse_members]. replay.
      rewrite (N3 f') by lia. now replay.
  - intros s acc v r H. cbn [parse_elements] in H.
    destruct (parse_value f s) as [[x r1]|] eqn:Ev; [|discriminate].
    destruct (IHv _ _ _ Ev) as (n1 & N1 & N2 & N3).
    pose proof (skip_ws_length r1) as L1.
    destruct (skip_ws r1) as [|c r2] eqn:E2; [discriminate|]. simpl in L1.
    destruct (N_of_ascii c =? 44)%N eqn:E5.
    + destruct (IHe _ _ _ _ H) as (n2 & M1 & M2 & M3).
      exists (S (n1 + n2)). split; [lia|split; [simpl; lia|]].
      intros [|f'] Hf; [lia|]. cbn [parse_elements].
      rewrite (N3 f') by lia. replay. apply M3. lia.
    + destruct (N_of_ascii c =? 93)%N eqn:E6; [|discriminate].
      injection H as <- <-.
      exists (S n1). split; [lia|split; [simpl; lia|]].
      intros [|f'] Hf; [lia|]. cbn [parse_elements].
      rewrite (N3 f') by lia. now replay.
Qed.

(** The fuel [parse] supplies is enough: a text that any amount of fuel reads
    as a value, up to blanks, [parse] reads as that value. *)
Lemma parse_fuel_suffices (f : nat) (s : string) (v : value) (r : string) :
  parse_value f s = Some (v, r) -> skip_ws r = EmptyString -> parse s = Some v.
Proof.
  intros H Hr. destruct (fuel_adequate f) as (Hv & _ & _).
  destruct (Hv _ _ _ H) as (n & N1 & N2 & N3).
  unfold parse. rewrite (N3 (S (String.length s))) by lia. now rewrite Hr.
Qed.

End JSONFacts.

(** * Integers as Numbers *)

Module NumberFacts.

Import JSNumber NumberSpec.

(** ** Binary digits *)

Lemma digits2_pos_bounds (p : positive) :
  2 ^ (Zpos (digits2_pos p) - 1) <= Zpos p < 2 ^ Zpos (digits2_pos p).
Proof.
  induction p as [p IH|p IH|]; cbn [digits2_pos].
  - rewrite Pos2Z.inj_succ.
    replace (Z.succ (Zpos (digits2_pos p)) - 1) with (Z.succ (Zpos (digits2_pos p) - 1)) by lia.
    rewrite !Z.pow_succ_r by lia. lia.
  - rewrite Pos2Z.inj_succ.
    replace (Z.succ (Zpos (digits2_pos p)) - 1) with (Z.succ (Zpos (digits2_pos p) - 1)) by lia.
    rewrite !Z.pow_succ_r by lia. lia.
  - simpl. lia.
Qed.

Lemma digits2_pos_unique (p : positive) (n : Z) :
  2 ^ (n - 1) <= Zpos p < 2 ^ n -> Zpos (digits2_pos p) = n.
Proof.
  intros [Hl Hu]. pose proof (digits2_pos_bounds p) as [Bl Bu].
  assert (0 < n).
  { destruct (Z.ltb_spec 0 n); [assumption|].
    exfalso. assert (2 ^ n <= 2 ^ 0) by (destruct n; simpl; try lia; apply Z.pow_le_mono_r; lia).
    simpl in *. lia. }
  destruct (Z.lt_trichotomy (Zpos (digits2_pos p)) n) as [H1|[H1|H1]]; [|assumption|].
  - exfalso. assert (2 ^ Zpos (digits2_pos p) <= 2 ^ (n - 1)) by (apply Z.pow_le_mono_r; lia). lia.
  - exfalso. assert (2 ^ n <= 2 ^ (Zpos (digits2_pos p) - 1)) by (apply Z.pow_le_mono_r; lia). lia.
Qed.

(** ** Shifts *)

Lemma iter_xO (m d : positive) : Zpos (Pos.iter xO m d) = Zpos m * 2 ^ Zpos d.
Proof.
  induction d as [|d IH] using Pos.peano_ind.
  - simpl. lia.
  - rewrite Pos.iter_succ, Pos2Z.inj_succ, Z.pow_succ_r by lia.
    change (Zpos (Pos.iter xO m d)~0) with (2 * Zpos (Pos.iter xO m d)). lia.
Qed.

Lemma iter_pos_nat {A : Type} (f : A -> A) (p : positive) (x : A) :
  iter_pos f p x = Nat.iter (Pos.to_nat p) f x.
Proof.
  revert x. induction p as [p IH|p IH|]; intros x; cbn [iter_pos].
  - rewrite !IH, Pos2Nat.inj_xI.
    replace (S (2 * Pos.to_nat p))%nat with (Pos.to_nat p + (Pos.to_nat p + 1))%nat by lia.
    rewrite !Nat.iter_add. simpl. reflexivity.
  - rewrite !IH, Pos2Nat.inj_xO.
    replace (2 * Pos.to_nat p)%nat with (Pos.to_nat p + Pos.to_nat p)%nat by lia.
    rewrite Nat.iter_add. reflexivity.
  - reflexivity.
Qed.

Lemma shr_exact (n : nat) (m : positive) :
  Nat.iter n shr_1 {| shr_m := Zpos (Pos.shiftl_nat m n); shr_r := false; shr_s := false |} =
  {| shr_m := Zpos m; shr_r := false; shr_s := false |}.
Proof.
  induction n as [|n IH]; [reflexivity|].
  rewrite Nat.iter_succ_r. exact IH.
Qed.

Lemma shiftl_nat_value (m : positive) (n : nat) :
  Zpos (Pos.shiftl_nat m n) = Zpos m * 2 ^ Z.of_nat n.
Proof.
  induction n as [|n IH]; [simpl; lia|].
  change (Pos.shiftl_nat m (S n)) with (xO (Pos.shiftl_nat m n)).
  rewrite Nat2Z.inj_succ, Z.pow_succ_r by lia.
  change (Zpos (Pos.shiftl_nat m n)~0) with (2 * Zpos (Pos.shiftl_nat m n)). lia.
Qed.

(** Shifting out [d] zero bits is exact. *)
Lemma shr_zeros (m z : positive) (d : positive) (e : Z) :
  Zpos m = Zpos z * 2 ^ Zpos d ->
  shr {| shr_m := Zpos m; shr_r := false; shr_s := false |} e (Zpos d) =
  ({| shr_m := Zpos z; shr_r := false; shr_s := false |}, e + Zpos d).
Proof.
  intros H. unfold shr. f_equal.
  rewrite iter_pos_nat.
  replace m with (Pos.shiftl_nat z (Pos.to_nat d)).
  - apply shr_exact.
  - apply Pos2Z.inj. rewrite shiftl_nat_value, positive_nat_Z. symmetry. exact H.
Qed.

Lemma digits_shift (z : positive) (j : Z) (m : positive) :
  0 <= j -> Zpos m = Zpos z * 2 ^ j ->
  Zpos (digits2_pos m) = Zpos (digits2_pos z) + j.
Proof.
  intros Hj H. apply digits2_pos_unique. rewrite H.
  pose proof (digits2_pos_bounds z) as [Bl Bu].
  replace (Zpos (digits2_pos z) + j - 1) with ((Zpos (digits2_pos z) - 1) + j) by lia.
  rewrite !Z.pow_add_r by lia.
  assert (0 < 2 ^ j) by (apply Z.pow_pos_nonneg; lia).
  split; nia.
Qed.

(** ** Rounding an integer that needs no rounding *)

Lemma round_integer (s : bool) (m z : positive) (j : Z) :
  0 <= j -> Zpos m = Zpos z * 2 ^ j -> Zpos z < 2 ^ 53 ->
  binary_round prec emax s m (- j) =
  S754_finite s (normal z) (Zpos (digits2_pos z) - 53).
Proof.
  intros Hj Hm Hz.
  pose proof (digits2_pos_bounds z) as [Bl Bu].
  set (n := Zpos (digits2_pos z)) in *.
  assert (Hn : 1 <= n <= 53).
  { split; [subst n; lia|].
    destruct (Z.leb_spec n 53); [assumption|].
    exfalso. assert (2 ^ 53 <= 2 ^ (n - 1)) by (apply Z.pow_le_mono_r; lia). lia. }
  assert (Hnorm : Zpos (normal z) = Zpos z * 2 ^ (53 - n)).
  { unfold normal. fold n. rewrite Z2Pos.id; [reflexivity|].
    assert (0 < 2 ^ (53 - n)) by (apply Z.pow_pos_nonneg; lia). nia. }
  assert (Hdn : Zpos (digits2_pos (normal z)) = 53).
  { rewrite (digits_shift z (53 - n) (normal z)); [fold n; lia|lia|exact Hnorm]. }
  assert (Hshr : shr_fexp prec emax (Zpos (normal z)) (n - 53) loc_Exact =
                 ({| shr_m := Zpos (normal z); shr_r := false; shr_s := false |}, n - 53)).
  { unfold shr_fexp. cbn [Zdigits2 shr_record_of_loc]. rewrite Hdn.
    replace (fexp prec emax (53 + (n - 53)) - (n - 53)) with 0
      by (unfold fexp, emin, prec, emax; lia).
    reflexivity. }
  assert (Hle : (n - 53 <=? emax - prec) = true)
    by (apply Z.leb_le; unfold emax, prec; lia).
  assert (Hfinal : binary_round_aux prec emax s (Zpos (normal z)) (n - 53) loc_Exact =
                   S754_finite s (normal z) (n - 53)).
  { unfold binary_round_aux. rewrite Hshr.
    cbn [shr_m loc_of_shr_record round_nearest_even]. rewrite Hshr.
    cbn [shr_m]. rewrite Hle. reflexivity. }
  unfold binary_round.
  rewrite (digits_shift z j m Hj Hm). fold n.
  replace (fexp prec emax (n + j + - j)) with (n - 53)
    by (unfold fexp, emin, prec, emax; lia).
  unfold shl_align.
  destruct (n - 53 - - j) as [|d|d] eqn:E.
  - (* j = 53 - n *)
    replace m with (normal z); [replace (- j) with (n - 53) by lia; exact Hfinal|].
    apply Pos2Z.inj. rewrite Hnorm, Hm. f_equal. f_equal. lia.
  - (* the mantissa is longer than 53 bits *)
    unfold binary_round_aux at 1. unfold shr_fexp at 1.
    cbn [Zdigits2 shr_record_of_loc].
    rewrite (digits_shift z j m Hj Hm). fold n.
    replace (fexp prec emax (n + j + - j) - - j) with (Zpos d)
      by (unfold fexp, emin, prec, emax; lia).
    rewrite (shr_zeros m (normal z) d (- j)).
    2:{ rewrite Hnorm, Hm, <- Z.mul_assoc, <- Z.pow_add_r by lia. f_equal. f_equal. lia. }
    cbn [shr_m loc_of_shr_record round_nearest_even].
    replace (- j + Zpos d) with (n - 53) by lia.
    rewrite Hshr. cbn [shr_m]. rewrite Hle. reflexivity.
  - replace (Pos.iter xO m d) with (normal z); [exact Hfinal|].
    apply Pos2Z.inj. rewrite iter_xO, Hnorm, Hm, <- Z.mul_assoc, <- Z.pow_add_r by lia.
    f_equal. f_equal. lia.
Qed.

Lemma Number_of_Z_pos (p : positive) :
  Zpos p < 2 ^ 53 ->
  Number_of_Z (Zpos p) = S754_finite false (normal p) (Zpos (digits2_pos p) - 53).
Proof.
  intros H. unfold Number_of_Z, decimal. cbn [Z.abs_N Z.ltb Z.compare Z.leb].
  change (Z.to_pos (10 ^ 0)) with 1%positive. rewrite Pos.mul_1_r.
  apply (round_integer false p p 0); [lia|simpl; lia|exact H].
Qed.

Lemma shl_align_value (mx : positive) (ex ez : Z) :
  ez <= ex -> Zpos (fst (shl_align mx ex ez)) = Zpos mx * 2 ^ (ex - ez).
Proof.
  intros H. unfold shl_align. destruct (ez - ex) as [|d|d] eqn:E; cbn [fst].
  - replace (ex - ez) with 0 by lia. simpl. lia.
  - lia.
  - rewrite iter_xO. f_equal. f_equal. lia.
Qed.

Lemma normal_value (z : positive) :
  Zpos z < 2 ^ 53 -> Zpos (normal z) = Zpos z * 2 ^ (53 - Zpos (digits2_pos z)).
Proof.
  intros Hz. pose proof (digits2_pos_bounds z) as [Bl Bu].
  assert (Zpos (digits2_pos z) <= 53).
  { destruct (Z.leb_spec (Zpos (digits2_pos z)) 53); [assumption|].
    exfalso.
    assert (2 ^ 53 <= 2 ^ (Zpos (digits2_pos z) - 1)) by (apply Z.pow_le_mono_r; lia). lia. }
  unfold normal. rewrite Z2Pos.id; [reflexivity|].
  assert (0 < 2 ^ (53 - Zpos (digits2_pos z))) by (apply Z.pow_pos_nonneg; lia). nia.
Qed.

Lemma digits_at_most_53 (z : positive) : Zpos z < 2 ^ 53 -> Zpos (digits2_pos z) <= 53.
Proof.
  intros Hz. pose proof (digits2_pos_bounds z) as [Bl Bu].
  destruct (Z.leb_spec (Zpos (digits2_pos z)) 53); [assumption|].
  exfalso.
  assert (2 ^ 53 <= 2 ^ (Zpos (digits2_pos z) - 1)) by (apply Z.pow_le_mono_r; lia). lia.
Qed.

(** ** Sums *)

(** Adding integers is exact as long as the sum stays below 2^53. *)
Lemma Number_add_integers (a b : Z) :
  0 <= a -> 0 <= b -> a + b < 2 ^ 53 ->
  Number_add (Number_of_Z a) (Number_of_Z b) = Number_of_Z (a + b).
Proof.
  intros Ha Hb Hab.
  destruct a as [|pa|pa]; [|clear Ha|lia].
  { cbn [Z.add]. destruct b as [|pb|pb]; [reflexivity| |lia].
    rewrite Number_of_Z_pos by lia. reflexivity. }
  destruct b as [|pb|pb]; [|clear Hb|lia].
  { rewrite Z.add_0_r. rewrite Number_of_Z_pos by lia. reflexivity. }
  assert (Hpa : Zpos pa < 2 ^ 53) by lia.
  assert (Hpb : Zpos pb < 2 ^ 53) by lia.
  rewrite (Number_of_Z_pos pa Hpa), (Number_of_Z_pos pb Hpb).
  change (Zpos pa + Zpos pb) with (Zpos (pa + pb)) in *.
  rewrite (Number_of_Z_pos (pa + pb) Hab).
  pose proof (digits_at_most_53 pa Hpa) as Da.
  pose proof (digits_at_most_53 pb Hpb) as Db.
  unfold Number_add, SFadd. cbn [cond_Zopp].
  set (ea := Zpos (digits2_pos pa) - 53) in *.
  set (eb := Zpos (digits2_pos pb) - 53) in *.
  set (ez := Z.min ea eb).
  assert (Hez : ez <= 0) by (subst ez ea; lia).
  rewrite (shl_align_value (normal pa) ea ez) by (subst ez; lia).
  rewrite (shl_align_value (normal pb) eb ez) by (subst ez; lia).
  rewrite (normal_value pa Hpa), (normal_value pb Hpb).
  assert (Ea : Zpos pa * 2 ^ (53 - Zpos (digits2_pos pa)) * 2 ^ (ea - ez) = Zpos pa * 2 ^ (- ez)).
  { rewrite <- Z.mul_assoc, <- Z.pow_add_r by (subst ez ea eb; lia).
    f_equal. f_equal. subst ea. lia. }
  assert (Eb : Zpos pb * 2 ^ (53 - Zpos (digits2_pos pb)) * 2 ^ (eb - ez) = Zpos pb * 2 ^ (- ez)).
  { rewrite <- Z.mul_assoc, <- Z.pow_add_r by (subst ez ea eb; lia).
    f_equal. f_equal. subst eb. lia. }
  rewrite Ea, Eb, <- Z.mul_add_distr_r.
  change (Zpos pa + Zpos pb) with (Zpos (pa + pb)).
  assert (Hpos : 0 < Zpos (pa + pb) * 2 ^ (- ez)).
  { assert (0 < 2 ^ (- ez)) by (apply Z.pow_pos_nonneg; lia). nia. }
  destruct (Zpos (pa + pb) * 2 ^ (- ez)) as [|m|m] eqn:Em; [lia| |lia].
  cbn [binary_normalize].
  replace ez with (- (- ez)) at 1 by lia.
  apply (round_integer false m (pa + pb) (- ez)); [lia|symmetry; exact Em|exact Hab].
Qed.

(** ** Products *)

(** Rounding a mantissa of 53 bits or more that stands for an integer below
    2^53. *)
Lemma round_aux_integer (s : bool) (m z : positive) (j : Z) :
  53 - Zpos (digits2_pos z) <= j -> Zpos m = Zpos z * 2 ^ j -> Zpos z < 2 ^ 53 ->
  binary_round_aux prec emax s (Zpos m) (- j) loc_Exact =
  S754_finite s (normal z) (Zpos (digits2_pos z) - 53).
Proof.
  intros Hj Hm Hz.
  pose proof (digits_at_most_53 z Hz) as Hn.
  pose proof (normal_value z Hz) as Hnorm.
  set (n := Zpos (digits2_pos z)) in *.
  assert (Hn1 : 1 <= n) by (subst n; lia).
  assert (Hj0 : 0 <= j) by lia.
  assert (Hdn : Zpos (digits2_pos (normal z)) = 53).
  { rewrite (digits_shift z (53 - n) (normal z)); [fold n; lia|lia|exact Hnorm]. }
  assert (Hshr : shr_fexp prec emax (Zpos (normal z)) (n - 53) loc_Exact =
                 ({| shr_m := Zpos (normal z); shr_r := false; shr_s := false |}, n - 53)).
  { unfold shr_fexp. cbn [Zdigits2 shr_record_of_loc]. rewrite Hdn.
    replace (fexp prec emax (53 + (n - 53)) - (n - 53)) with 0
      by (unfold fexp, emin, prec, emax; lia).
    reflexivity. }
  assert (Hle : (n - 53 <=? emax - prec) = true)
    by (apply Z.leb_le; unfold emax, prec; lia).
  destruct (Z.eq_dec j (53 - n)) as [E|E].
  - replace m with (normal z).
    + replace (- j) with (n - 53) by lia.
      unfold binary_round_aux. rewrite Hshr.
      cbn [shr_m loc_of_shr_record round_nearest_even]. rewrite Hshr.
      cbn [shr_m]. rewrite Hle. reflexivity.
    + apply Pos2Z.inj. rewrite Hnorm, Hm. f_equal. f_equal. lia.
  - destruct (n - 53 + j) as [|d|d] eqn:Ed; [lia| |lia].
    unfold binary_round_aux at 1. unfold shr_fexp at 1.
    cbn [Zdigits2 shr_record_of_loc].
    rewrite (digits_shift z j m Hj0 Hm). fold n.
    replace (fexp prec emax (n + j + - j) - - j) with (Zpos d)
      by (unfold fexp, emin, prec, emax; lia).
    rewrite (shr_zeros m (normal z) d (- j)).
    2:{ rewrite Hnorm, Hm, <- Z.mul_assoc, <- Z.pow_add_r by lia. f_equal. f_equal. lia. }
    cbn [shr_m loc_of_shr_record round_nearest_even].
    replace (- j + Zpos d) with (n - 53) by lia.
    rewrite Hshr. cbn [shr_m]. rewrite Hle. reflexivity.
Qed.

Lemma digits_mul (a b : positive) :
  Zpos (digits2_pos a) + Zpos (digits2_pos b) - 1 <= Zpos (digits2_pos (a * b)).
Proof.
  pose proof (digits2_pos_bounds a) as [La _].
  pose proof (digits2_pos_bounds b) as [Lb _].
  pose proof (digits2_pos_bounds (a * b)) as [_ U].
  set (na := Zpos (digits2_pos a)) in *. set (nb := Zpos (digits2_pos b)) in *.
  set (n := Zpos (digits2_pos (a * b))) in *.
  assert (Hna : 1 <= na) by (subst na; lia).
  assert (Hnb : 1 <= nb) by (subst nb; lia).
  assert (Hn : 1 <= n) by (subst n; lia).
  destruct (Z.le_gt_cases (na + nb - 1) n) as [H|H]; [exact H|exfalso].
  assert (L : 2 ^ (na - 1 + (nb - 1)) <= Zpos (a * b)).
  { rewrite Z.pow_add_r by lia. rewrite Pos2Z.inj_mul.
    assert (0 < 2 ^ (na - 1)) by (apply Z.pow_pos_nonneg; lia).
    assert (0 < 2 ^ (nb - 1)) by (apply Z.pow_pos_nonneg; lia). nia. }
  assert (2 ^ n <= 2 ^ (na - 1 + (nb - 1))) by (apply Z.pow_le_mono_r; lia).
  lia.
Qed.

(** Multiplying integers is exact as long as the product stays below
    2^53. *)
Lemma Number_mul_integers (a b : Z) :
  0 <= a < 2 ^ 53 -> 0 <= b < 2 ^ 53 -> a * b < 2 ^ 53 ->
  Number_mul (Number_of_Z a) (Number_of_Z b) = Number_of_Z (a * b).
Proof.
  intros [Ha Hpa] [Hb Hpb] Hab.
  destruct a as [|pa|pa]; [|clear Ha|lia].
  { destruct b as [|pb|pb]; [reflexivity| |lia].
    cbn [Z.mul]. rewrite Number_of_Z_pos by exact Hpb. reflexivity. }
  destruct b as [|pb|pb]; [|clear Hb|lia].
  { rewrite Z.mul_0_r. rewrite Number_of_Z_pos by exact Hpa. reflexivity. }
  rewrite (Number_of_Z_pos pa Hpa), (Number_of_Z_pos pb Hpb).
  change (Zpos pa * Zpos pb) with (Zpos (pa * pb)) in *.
  rewrite (Number_of_Z_pos (pa * pb) Hab).
  pose proof (digits_at_most_53 pa Hpa) as Da.
  pose proof (digits_at_most_53 pb Hpb) as Db.
  pose proof (digits_mul pa pb) as Dab.
  unfold Number_mul, SFmul. cbn [xorb].
  set (na := Zpos (digits2_pos pa)) in *. set (nb := Zpos (digits2_pos pb)) in *.
  assert (Hna : 1 <= na) by (subst na; lia).
  assert (Hnb : 1 <= nb) by (subst nb; lia).
  replace (na - 53 + (nb - 53)) with (- (106 - na - nb)) by lia.
  apply (round_aux_integer false (normal pa * normal pb) (pa * pb) (106 - na - nb));
    [lia| |exact Hab].
  rewrite !Pos2Z.inj_mul, (normal_value pa Hpa), (normal_value pb Hpb).
  fold na nb.
  replace (106 - na - nb) with ((53 - na) + (53 - nb)) by lia.
  rewrite Z.pow_add_r by lia. ring.
Qed.

End NumberFacts.

(** * Properties of the cart *)

Module CartFacts.

Import JSNumber Object JSON Conversion Cart JSONSpec JSONFacts NumberFacts CartSpec.

(** ** Reading after writing *)

Section ObjectFacts.

Context {A : Type}.

Lemma get_put_same (k : string) (v : A) (o : object A) :
  get k (put k v o) = Some v.
Proof.
  induction o as [|[k' v'] o IH]; simpl.
  - now rewrite String.eqb_refl.
  - destruct (String.eqb k k') eqn:E; simpl.
    + now rewrite String.eqb_refl.
    + destruct (key_before k k'); simpl.
      * now rewrite String.eqb_refl.
      * now rewrite E.
Qed.

Lemma get_put_other (k k0 : string) (v : A) (o : object A) :
  k0 <> k -> get k0 (put k v o) = get k0 o.
Proof.
  intros Hne. apply String.eqb_neq in Hne.
  induction o as [|[k' v'] o IH]; simpl.
  - now rewrite Hne.
  - destruct (String.eqb k k') eqn:E; simpl.
    + apply String.eqb_eq in E. subst k'. now rewrite Hne.
    + destruct (key_before k k'); simpl.
      * now rewrite Hne.
      * now rewrite IH.
Qed.

Lemma get_delete_same (k : string) (o : object A) : get k (delete k o) = None.
Proof.
  induction o as [|[k' v'] o IH]; simpl; [reflexivity|].
  destruct (String.eqb k k') eqn:E; simpl; [exact IH|]. now rewrite E.
Qed.

Lemma get_delete_other (k k0 : string) (o : object A) :
  k0 <> k -> get k0 (delete k o) = get k0 o.
Proof.
  intros Hne. apply String.eqb_neq in Hne.
  induction o as [|[k' v'] o IH]; simpl; [reflexivity|].
  destruct (String.eqb k k') eqn:E; simpl.
  - apply String.eqb_eq in E. subst k'. now rewrite Hne.
  - now rewrite IH.
Qed.

Lemma get_In (k : string) (v : A) (o : object A) :
  get k o = Some v -> In (k, v) o.
Proof.
  induction o as [|[k' v'] o IH]; simpl; [discriminate|].
  destruct (String.eqb k k') eqn:E.
  - apply String.eqb_eq in E. subst k'. intros [= ->]. now left.
  - intros H. right. now apply IH.
Qed.

Lemma Forall_put (P : string * A -> Prop) (k : string) (v : A) (o : object A) :
  P (k, v) -> Forall P o -> Forall P (put k v o).
Proof.
  intros Hv Ho. induction Ho as [|[k' v'] o Hx Ho IH]; simpl.
  - now constructor.
  - destruct (String.eqb k k'); [now constructor|].
    destruct (key_before k k'); constructor; auto.
Qed.

Lemma Forall_delete (P : string * A -> Prop) (k : string) (o : object A) :
  Forall P o -> Forall P (delete k o).
Proof.
  intros Ho. induction Ho as [|[k' v'] o Hx Ho IH]; simpl; [constructor|].
  destruct (String.eqb k k'); [exact IH|]. now constructor.
Qed.

Lemma Forall_delete_put (P : string * A -> Prop) (k : string) (v : A) (o : object A) :
  Forall P o -> Forall P (delete k (put k v o)).
Proof.
  intros Ho. induction Ho as [|[k' v'] o Hx Ho IH]; simpl.
  - rewrite String.eqb_refl. constructor.
  - destruct (String.eqb k k') eqn:E; simpl.
    + rewrite String.eqb_refl. now apply Forall_delete.
    + destruct (key_before k k'); simpl.
      * rewrite String.eqb_refl, E. constructor; [exact Hx|now apply Forall_delete].
      * rewrite E. now constructor.
Qed.

End ObjectFacts.

(** ** What a click finds under an id *)

Lemma lookup_own (id : string) (c : cart) (item : line) :
  get id c = Some item -> lookup id c = Own item.
Proof. intros H. unfold lookup. now rewrite H. Qed.

Lemma lookup_Own_inv (id : string) (c : cart) (item : line) :
  lookup id c = Own item -> get id c = Some item.
Proof.
  unfold lookup. destruct (get id c); [now intros [= ->]|].
  destruct (String.eqb id proto); [discriminate|].
  destruct (existsb _ _); discriminate.
Qed.

Lemma lookup_Absent_inv (id : string) (c : cart) :
  lookup id c = Absent -> get id c = None /\ ordinary_key id = true.
Proof.
  unfold lookup, ordinary_key. destruct (get id c); [discriminate|].
  destruct (String.eqb id proto); [discriminate|].
  destruct (existsb _ _); [discriminate|]. now split.
Qed.

Lemma lookup_absent (id : string) (c : cart) :
  get id c = None -> ordinary_key id = true -> lookup id c = Absent.
Proof.
  unfold lookup, ordinary_key. intros -> H.
  apply andb_prop in H as [H1 H2]. apply negb_true_iff in H1, H2.
  now rewrite H1, H2.
Qed.

Lemma cart_var_refreshed (f : bool) (c : cart) (pg : page) :
  cart_var (refreshed f c pg) = c.
Proof. unfold refreshed. now destruct (updateCart f c (dom pg)). Qed.

Lemma proto_quantity_refreshed (f : bool) (c : cart) (pg : page) :
  proto_quantity (refreshed f c pg) = f.
Proof. unfold refreshed. now destruct (updateCart f c (dom pg)). Qed.

(** The cart a click leaves: the cart as it was, or the cart with the line
    of its id changed, created or deleted. *)
Lemma cart_after (pg : page) (o : op) :
  let c := cart_var pg in
  let id := op_id o in
  cart_var (apply pg o) = c \/
  (exists item, get id c = Some item /\
     (cart_var (apply pg o) = put id (with_quantity item (quantity item + 1)) c \/
      (1 < quantity item /\
       cart_var (apply pg o) = put id (with_quantity item (quantity item - 1)) c) \/
      cart_var (apply pg o) = delete id c)) \/
  (exists nm pr, get id c = None /\ ordinary_key id = true /\
     cart_var (apply pg o) = put id {| name := nm; price := pr; quantity := 1 |} c).
Proof.
  intros c id. subst c id.
  destruct o as [id nm pr|id|id|id]; cbn [apply op_id];
    [unfold add_to_cart_click|unfold increase_qty_click
    |unfold decrease_qty_click|unfold remove_item_click];
    destruct (lookup id (cart_var pg)) as [item| | |] eqn:L;
    rewrite ?cart_var_refreshed; auto.
  - right; left. exists item. split; [now apply lookup_Own_inv|now left].
  - right; right. exists nm, pr. destruct (lookup_Absent_inv _ _ L) as [G K].
    now repeat split.
  - right; left. exists item. split; [now apply lookup_Own_inv|now left].
  - right; left. exists item. split; [now apply lookup_Own_inv|].
    cbn [with_quantity quantity].
    destruct (quantity item - 1 <=? 0) eqn:E.
    + right; right. clear.
      induction (cart_var pg) as [|[k' v'] o IH]; simpl.
      * now rewrite String.eqb_refl.
      * destruct (String.eqb id k') eqn:E; simpl.
        -- now rewrite String.eqb_refl.
        -- destruct (key_before id k'); simpl.
           ++ now rewrite String.eqb_refl, E.
           ++ now rewrite E, IH.
    + right; left. apply Z.leb_gt in E. split; [lia|reflexivity].
  - right; left. exists item. split; [now apply lookup_Own_inv|]. right; now right.
Qed.

(** ** The quantity of a line *)

Lemma apply_positive_quantities (pg : page) (o : op) :
  positive_quantities (cart_var pg) -> positive_quantities (cart_var (apply pg o)).
Proof.
  unfold positive_quantities. intros Inv.
  assert (Hget : forall id item, get id (cart_var pg) = Some item -> 1 <= quantity item).
  { intros id item Hg. apply get_In in Hg.
    rewrite Forall_forall in Inv. exact (Inv _ Hg). }
  destruct (cart_after pg o) as [E|[(item & Hg & [E|[[H1 E]|E]])|(nm & pr & Hg & _ & E)]];
    rewrite E; auto.
  - apply Forall_put; [simpl; specialize (Hget _ _ Hg); lia|exact Inv].
  - apply Forall_put; [simpl; lia|exact Inv].
  - now apply Forall_delete.
  - apply Forall_put; [simpl; lia|exact Inv].
Qed.

Lemma apply_ordinary_keys (pg : page) (o : op) :
  ordinary_keys (cart_var pg) -> ordinary_keys (cart_var (apply pg o)).
Proof.
  unfold ordinary_keys. intros Inv.
  assert (Hget : forall id item, get id (cart_var pg) = Some item -> ordinary_key id = true).
  { intros id item Hg. apply get_In in Hg.
    rewrite Forall_forall in Inv. exact (Inv _ Hg). }
  destruct (cart_after pg o) as [E|[(item & Hg & [E|[[H1 E]|E]])|(nm & pr & Hg & K & E)]];
    rewrite E; auto.
  - apply Forall_put; [exact (Hget _ _ Hg)|exact Inv].
  - apply Forall_put; [exact (Hget _ _ Hg)|exact Inv].
  - now apply Forall_delete.
  - apply Forall_put; [exact K|exact Inv].
Qed.

Lemma apply_canonical (pg : page) (o : op) :
  canonical (cart_var pg) = true -> canonical (cart_var (apply pg o)) = true.
Proof.
  intros Inv.
  destruct (cart_after pg o) as [E|[(item & Hg & [E|[[H1 E]|E]])|(nm & pr & Hg & K & E)]];
    rewrite E; auto using canonical_put, canonical_delete.
Qed.

(** What holds of the empty cart and is kept by every click holds of every
    cart built from the empty cart. *)
Lemma run_invariant (P : cart -> Prop) :
  P [] -> (forall pg o, P (cart_var pg) -> P (cart_var (apply pg o))) ->
  forall os, P (cart_var (run fresh os)).
Proof.
  intros H0 Hstep os. unfold run.
  assert (H : P (cart_var fresh)) by exact H0.
  revert H. generalize fresh.
  induction os as [|o os IH]; intros pg H; simpl; [exact H|].
  apply IH, Hstep, H.
Qed.

Lemma run_positive_quantities (os : list op) :
  positive_quantities (cart_var (run fresh os)).
Proof.
  apply (run_invariant positive_quantities); [constructor|].
  apply apply_positive_quantities.
Qed.

Lemma run_ordinary_keys (os : list op) : ordinary_keys (cart_var (run fresh os)).
Proof.
  apply (run_invariant ordinary_keys); [constructor|]. apply apply_ordinary_keys.
Qed.

Lemma run_canonical (os : list op) : canonical (cart_var (run fresh os)) = true.
Proof.
  apply (run_invariant (fun c => canonical c = true)); [reflexivity|].
  apply apply_canonical.
Qed.

(** A line of a cart built from the empty cart stands under an id that is
    none of the inherited names. *)
Lemma own_id_ordinary (os : list op) (id : string) (item : line) :
  get id (cart_var (run fresh os)) = Some item -> ordinary_key id = true.
Proof.
  intros Hg. pose proof (run_ordinary_keys os) as Inv.
  unfold ordinary_keys in Inv. rewrite Forall_forall in Inv.
  exact (Inv _ (get_In _ _ _ Hg)).
Qed.

(** C4: every line of a cart built from the empty cart has a quantity of at
    least 1. A decrease leaves a line with more than one item in place, one
    lower; on a line with one item it deletes the line, after which an
    increase or a decrease of that id changes nothing on the page and an add
    creates the line anew with quantity 1. *)
Theorem quantity_at_least_one (os : list op) (id : string) (item : line) :
  get id (cart_var (run fresh os)) = Some item ->
  let pg := run fresh os in
  let pg' := decrease_qty_click id pg in
  1 <= quantity item /\
  (1 < quantity item ->
   get id (cart_var pg') = Some (with_quantity item (quantity item - 1))) /\
  (quantity item = 1 ->
   get id (cart_var pg') = None /\
   increase_qty_click id pg' = pg' /\
   decrease_qty_click id pg' = pg' /\
   forall nm pr,
     get id (cart_var (add_to_cart_click id nm pr pg')) =
     Some {| name := nm; price := pr; quantity := 1 |}).
Proof.
  intros Hg pg pg'.
  assert (Hq : 1 <= quantity item).
  { pose proof (run_positive_quantities os) as Inv.
    unfold positive_quantities in Inv. rewrite Forall_forall in Inv.
    exact (Inv _ (get_In _ _ _ Hg)). }
  pose proof (own_id_ordinary os id item Hg) as Hk.
  split; [exact Hq|]. subst pg'. unfold decrease_qty_click. fold pg in Hg.
  rewrite (lookup_own _ _ _ Hg). cbn [with_quantity quantity]. split.
  - intros H1. rewrite cart_var_refreshed.
    destruct (quantity item - 1 <=? 0) eqn:E.
    + apply Z.leb_le in E. lia.
    + apply get_put_same.
  - intros H1. rewrite H1. change (1 - 1 <=? 0) with true. cbv iota.
    set (c' := delete id (put id (with_quantity item (1 - 1)) (cart_var pg))).
    assert (Hnone : get id c' = None) by apply get_delete_same.
    assert (L : lookup id c' = Absent) by (apply lookup_absent; assumption).
    rewrite cart_var_refreshed. split; [exact Hnone|].
    unfold increase_qty_click, decrease_qty_click, add_to_cart_click.
    rewrite !cart_var_refreshed, L. repeat split.
    intros nm pr. rewrite cart_var_refreshed. apply get_put_same.
Qed.

Lemma quantity_at_least_one_witness :
  let item := {| name := Str "Widget"; price := decimal false 999 (-2); quantity := 1 |} in
  let pg := run fresh [widget; widget; Decrease "X1"] in
  let pg' := decrease_qty_click "X1" pg in
  1 <= quantity item /\
  (1 < quantity item ->
   get "X1" (cart_var pg') = Some (with_quantity item (quantity item - 1))) /\
  (quantity item = 1 ->
   get "X1" (cart_var pg') = None /\
   increase_qty_click "X1" pg' = pg' /\
   decrease_qty_click "X1" pg' = pg' /\
   forall nm pr,
     get "X1" (cart_var (add_to_cart_click "X1" nm pr pg')) =
     Some {| name := nm; price := pr; quantity := 1 |}).
Proof.
  exact (quantity_at_least_one [widget; widget; Decrease "X1"] "X1"
           {| name := Str "Widget"; price := decimal false 999 (-2); quantity := 1 |}
           eq_refl).
Defined.

(** ** What [updateCart] does *)

Lemma fold_body_None (c : cart) : fold_left updateCart_body c None = None.
Proof. induction c as [|kv c IH]; [reflexivity|exact IH]. Qed.

Lemma updateCart_body_step (n x : Number) (lis : list string) (kv : string * line) :
  updateCart_body (Some (n, x, lis)) kv =
  if has_text (name (snd kv))
  then Some (Number_add n (Number_of_Z (quantity (snd kv))),
             Number_add x (line_price (snd kv)),
             lis ++ [li_of kv (text (name (snd kv)))])
  else None.
Proof.
  unfold updateCart_body, has_text, text, li_of, line_price.
  now destruct (to_string (name (snd kv))).
Qed.

Lemma updateCart_loop_from (c : cart) (n x : Number) (lis : list string) :
  fold_left updateCart_body c (Some (n, x, lis)) =
  if names_have_text c
  then Some (fold_left (fun a kv => Number_add a (Number_of_Z (quantity (snd kv)))) c n,
             fold_left (fun a kv => Number_add a (line_price (snd kv))) c x,
             lis ++ map (fun kv => li_of kv (text (name (snd kv)))) c)
  else None.
Proof.
  revert n x lis. induction c as [|kv c IH]; intros n x lis.
  - cbn. now rewrite app_nil_r.
  - cbn [fold_left]. rewrite updateCart_body_step.
    change (names_have_text (kv :: c))
      with (has_text (name (snd kv)) && names_have_text c).
    destruct (has_text (name (snd kv))); cbn [andb].
    + rewrite IH. destruct (names_have_text c); [|reflexivity].
      cbn [map fold_left]. now rewrite <- app_assoc.
    + apply fold_body_None.
Qed.

Lemma sum_of_first_app (n : nat) (c c' : cart) :
  (n <= List.length c)%nat -> sum_of_first n (c ++ c') = sum_of_first n c.
Proof.
  induction n as [|n IH]; intros H; [reflexivity|].
  cbn [sum_of_first]. rewrite nth_error_app1 by lia. rewrite IH by lia. reflexivity.
Qed.

(** Adding up the lines one after the other gives the sum of the first
    lines at each line. *)
Lemma fold_sum_prices (c : cart) :
  fold_left (fun a kv => Number_add a (line_price (snd kv))) c zero = sum_prices c.
Proof.
  unfold sum_prices. induction c as [|kv c IH] using rev_ind; [reflexivity|].
  rewrite fold_left_app, length_app. cbn [fold_left List.length].
  rewrite Nat.add_1_r. cbn [sum_of_first].
  rewrite nth_error_app2 by lia. rewrite Nat.sub_diag. cbn [nth_error].
  rewrite sum_of_first_app by lia. now rewrite IH.
Qed.

Lemma sum_quantities_nonneg (c : cart) :
  positive_quantities c -> 0 <= sum_quantities c.
Proof.
  induction 1 as [|kv c Hkv _ IH]; simpl; lia.
Qed.

(** Below 2^53 the Number additions of the loop add the quantities up
    exactly. *)
Lemma fold_sum_quantities (c : cart) (n : Z) :
  positive_quantities c -> 0 <= n -> n + sum_quantities c < 2 ^ 53 ->
  fold_left (fun a kv => Number_add a (Number_of_Z (quantity (snd kv)))) c (Number_of_Z n) =
  Number_of_Z (n + sum_quantities c).
Proof.
  intros Hc. revert n. induction Hc as [|kv c Hkv Hc IH]; intros n Hn Hs.
  - cbn. now rewrite Z.add_0_r.
  - cbn [fold_left sum_quantities fold_right] in *.
    fold (sum_quantities c) in *.
    pose proof (sum_quantities_nonneg c Hc).
    rewrite Number_add_integers by lia.
    rewrite IH by lia. f_equal. lia.
Qed.

Lemma exact_total_nonneg (dollars : string -> Z) (c : cart) :
  positive_quantities c -> whole_prices dollars c -> 0 <= exact_total dollars c.
Proof.
  intros Hq Hw. induction Hq as [|kv c Hkv Hq IH]; [simpl; lia|].
  inversion Hw as [|? ? [Hp _] Hw']; subst.
  cbn [exact_total fold_right]. fold (exact_total dollars c).
  specialize (IH Hw'). nia.
Qed.

(** With whole prices, and below 2^53, the Number multiplications and
    additions of the loop give the total exactly. *)
Lemma fold_whole_prices (dollars : string -> Z) (c : cart) (n : Z) :
  positive_quantities c -> whole_prices dollars c ->
  sum_quantities c < 2 ^ 53 ->
  0 <= n -> n + exact_total dollars c < 2 ^ 53 ->
  fold_left (fun a kv => Number_add a (line_price (snd kv))) c (Number_of_Z n) =
  Number_of_Z (n + exact_total dollars c).
Proof.
  intros Hq. revert n. induction Hq as [|kv c Hkv Hq IH]; intros n Hw Hs Hn Ht.
  - cbn. now rewrite Z.add_0_r.
  - inversion Hw as [|? ? [Hp Hprice] Hw']; subst.
    cbn [fold_left sum_quantities exact_total fold_right] in *.
    fold (sum_quantities c) in *. fold (exact_total dollars c) in *.
    pose proof (sum_quantities_nonneg c Hq) as Hsq.
    pose proof (exact_total_nonneg dollars c Hq Hw') as Het.
    unfold line_price at 2. rewrite Hprice.
    rewrite Number_mul_integers by nia.
    rewrite Number_add_integers by nia.
    rewrite IH by (try assumption; nia). f_equal. lia.
Qed.

Lemma sum_prices_whole (dollars : string -> Z) (c : cart) :
  positive_quantities c -> whole_prices dollars c ->
  sum_quantities c < 2 ^ 53 -> exact_total dollars c < 2 ^ 53 ->
  sum_prices c = Number_of_Z (exact_total dollars c).
Proof.
  intros Hq Hw Hs Ht. rewrite <- fold_sum_prices.
  change zero with (Number_of_Z 0).
  now rewrite (fold_whole_prices dollars c 0 Hq Hw Hs).
Qed.

(** What [updateCart] leaves, case by case. *)
Lemma updateCart_cases (f : bool) (c : cart) (shown : view) :
  updateCart f c shown =
  match c with
  | [] =>
      ({| cart_items := Empty_message; cart_count := zero;
          cart_total := toFixed2 zero |}, Normal)
  | _ =>
      if names_have_text c &&
         match inherited_keys f c with [] => true | _ => false end
      then
        ({| cart_items := Item_list (map (fun kv => li_of kv (text (name (snd kv)))) c);
            cart_count :=
              fold_left (fun a kv => Number_add a (Number_of_Z (quantity (snd kv)))) c zero;
            cart_total := toFixed2 (sum_prices c) |}, Normal)
      else
        ({| cart_items := Emptied; cart_count := cart_count shown;
            cart_total := cart_total shown |}, TypeError)
  end.
Proof.
  unfold updateCart, updateCart_loop. rewrite updateCart_loop_from, fold_sum_prices.
  destruct c as [|kv c]; [reflexivity|].
  destruct (names_have_text (kv :: c)); [|reflexivity].
  now destruct (inherited_keys f (kv :: c)).
Qed.

Lemma updateCart_how (f : bool) (c : cart) (shown shown' : view) :
  snd (updateCart f c shown) = snd (updateCart f c shown').
Proof.
  rewrite !updateCart_cases. destruct c; [reflexivity|].
  now destruct (names_have_text _ && _).
Qed.

Lemma updateCart_again (f : bool) (c : cart) (shown : view) :
  fst (updateCart f c (fst (updateCart f c shown))) = fst (updateCart f c shown).
Proof.
  rewrite !updateCart_cases. destruct c; [reflexivity|].
  now destruct (names_have_text _ && _).
Qed.

(** ** The page and the store after a click *)

Lemma refreshed_in_step (f : bool) (c : cart) (pg : page) : in_step (refreshed f c pg).
Proof.
  unfold in_step, completes. rewrite cart_var_refreshed, proto_quantity_refreshed.
  unfold refreshed.
  rewrite (updateCart_how f c _ (dom pg)).
  destruct (updateCart f c (dom pg)) as [shown how] eqn:E. cbn [dom buxxelCart fst snd].
  split.
  - change shown with (fst (shown, how)). rewrite <- E. symmetry. apply updateCart_again.
  - destruct how; [now left|discriminate].
Qed.

Lemma apply_in_step (pg : page) (o : op) : in_step pg -> in_step (apply pg o).
Proof.
  intros Inv.
  destruct o as [id nm pr|id|id|id]; cbn [apply];
    [unfold add_to_cart_click|unfold increase_qty_click
    |unfold decrease_qty_click|unfold remove_item_click];
    destruct (lookup id (cart_var pg)); auto using refreshed_in_step.
Qed.

Lemma run_in_step (os : list op) : in_step (run fresh os).
Proof.
  unfold run.
  assert (H : in_step fresh) by (split; [reflexivity|intros _; right; now split]).
  revert H. generalize fresh.
  induction os as [|o os IH]; intros pg H; simpl; [exact H|].
  apply IH, apply_in_step, H.
Qed.

(** ** Clicks that cannot make [updateCart] raise *)

Lemma apply_names_have_text (pg : page) (o : op) :
  plain o = true -> names_have_text (cart_var pg) = true ->
  names_have_text (cart_var (apply pg o)) = true.
Proof.
  unfold names_have_text. intros Hp Inv.
  assert (Hget : forall id item, get id (cart_var pg) = Some item ->
                                 has_text (name item) = true).
  { intros id item Hg. apply get_In in Hg.
    rewrite forallb_forall in Inv. exact (Inv _ Hg). }
  assert (Hput : forall id l c, has_text (name l) = true ->
            forallb (fun kv : string * line => has_text (name (snd kv))) c = true ->
            forallb (fun kv : string * line => has_text (name (snd kv))) (put id l c) = true).
  { intros id l c Hl Hc. apply forallb_forall. intros kv Hin.
    assert (F : Forall (fun kv : string * line => has_text (name (snd kv)) = true)
                  (put id l c)).
    { apply Forall_put; [exact Hl|]. apply Forall_forall. now apply forallb_forall. }
    rewrite Forall_forall in F. now apply F. }
  assert (Hdel : forall id c,
            forallb (fun kv : string * line => has_text (name (snd kv))) c = true ->
            forallb (fun kv : string * line => has_text (name (snd kv))) (delete id c) = true).
  { intros id c Hc. apply forallb_forall. intros kv Hin.
    assert (F : Forall (fun kv : string * line => has_text (name (snd kv)) = true)
                  (delete id c)).
    { apply Forall_delete. apply Forall_forall. now apply forallb_forall. }
    rewrite Forall_forall in F. now apply F. }
  destruct o as [id nm pr|id|id|id]; cbn [apply plain] in *;
    [unfold add_to_cart_click|unfold increase_qty_click
    |unfold decrease_qty_click|unfold remove_item_click];
    destruct (lookup id (cart_var pg)) as [item| | |] eqn:L;
    rewrite ?cart_var_refreshed; auto.
  - apply Hput; [|exact Inv]. exact (Hget _ _ (lookup_Own_inv _ _ _ L)).
  - apply Hput; [|exact Inv]. now apply andb_prop in Hp.
  - apply Hput; [|exact Inv]. exact (Hget _ _ (lookup_Own_inv _ _ _ L)).
  - pose proof (Hget _ _ (lookup_Own_inv _ _ _ L)) as Ht.
    destruct (quantity _ <=? 0); [apply Hdel|]; apply Hput; auto.
Qed.

Lemma lookup_prototype (id : string) (c : cart) :
  lookup id c = Inherited_prototype -> String.eqb id proto = true.
Proof.
  unfold lookup. destruct (get id c); [discriminate|].
  destruct (String.eqb id proto); [reflexivity|].
  destruct (existsb _ _); discriminate.
Qed.

Lemma apply_unpolluted (pg : page) (o : op) :
  plain o = true -> proto_quantity pg = false -> proto_quantity (apply pg o) = false.
Proof.
  intros Hp Inv.
  destruct o as [id nm pr|id|id|id]; cbn [apply plain] in *;
    [unfold add_to_cart_click|unfold increase_qty_click
    |unfold decrease_qty_click|unfold remove_item_click];
    destruct (lookup id (cart_var pg)) as [item| | |] eqn:L;
    rewrite ?proto_quantity_refreshed; auto;
    apply lookup_prototype in L; rewrite L in Hp; try discriminate Hp.
Qed.

Lemma run_plain (os : list op) :
  forallb plain os = true ->
  names_have_text (cart_var (run fresh os)) = true /\
  proto_quantity (run fresh os) = false.
Proof.
  unfold run.
  assert (H : names_have_text (cart_var fresh) = true /\ proto_quantity fresh = false)
    by now split.
  revert H. generalize fresh.
  induction os as [|o os IH]; intros pg [H1 H2] Hp; cbn [fold_left forallb] in *;
    [now split|].
  apply andb_prop in Hp as [Ho Hp].
  apply IH; [|exact Hp]. split;
    [now apply apply_names_have_text|now apply apply_unpolluted].
Qed.

(** After clicks that are all plain, [updateCart] has returned and the page
    shows the list, the count and the total of the cart. *)
Lemma run_plain_dom (os : list op) :
  forallb plain os = true ->
  let pg := run fresh os in
  completes pg = true /\
  cart_count (dom pg) =
    fold_left (fun a kv => Number_add a (Number_of_Z (quantity (snd kv))))
      (cart_var pg) zero /\
  cart_total (dom pg) = toFixed2 (sum_prices (cart_var pg)).
Proof.
  intros Hp pg. destruct (run_plain os Hp) as [Ht Hf]. fold pg in Ht, Hf.
  destruct (run_in_step os) as [Hd _]. fold pg in Hd.
  unfold completes. rewrite Hd at 2 3. rewrite updateCart_cases, Hf, Ht.
  unfold inherited_keys. cbn [andb].
  destruct (cart_var pg); cbn [fst snd cart_count cart_total]; repeat split.
Qed.

(** ** Totals *)

(** C5, at the id [__proto__]: the first add goes to that id, where
    [cart[id]] is the prototype of all objects, and [cart[id].quantity++]
    leaves the property [quantity] there; then the widget is added twice.
    The loop of [updateCart] visits the line of the widget, reaches the
    inherited key and raises: the cart holds two widgets, and the page goes
    on showing 0 and 0.00 over an emptied list, with the empty cart in the
    store. *)
Theorem proto_id_stops_the_totals :
  let pg := run fresh [Add proto (Str "Gift") (decimal false 5 0); widget; widget] in
  cart_var pg =
    [("X1", {| name := Str "Widget"; price := decimal false 999 (-2); quantity := 2 |})] /\
  sum_quantities (cart_var pg) = 2 /\
  totals (cart_var pg) = Some (Number_of_Z 2, decimal false 1998 (-2)) /\
  inherited_keys (proto_quantity pg) (cart_var pg) = ["quantity"] /\
  snd (updateCart (proto_quantity pg) (cart_var pg) (dom pg)) = TypeError /\
  cart_count (dom pg) = zero /\
  cart_total (dom pg) = "0.00" /\
  cart_items (dom pg) = Emptied /\
  buxxelCart pg = Some "{}".
Proof. vm_compute. repeat split. Qed.

(** X19: after any sequence of operations from the empty cart none of
    which goes to the id [__proto__] or carries a name without a text,
    the quantities of the lines add up to a number that is not negative;
    while it is below 2^53 it is the [totalItems] of the loop and the count
    the page shows; [totalPrice] is the sum of price times quantity in Number
    arithmetic, line after line, and the page shows it to two decimals; for
    whole prices it is the sum of price times quantity exactly, as long as
    that is below 2^53.
    Adding the widget at 9.99 twice gives 2 and 19.98; one decrease gives 1
    and 9.99; a second one gives 0 and 0.00 and leaves the cart empty; two
    widgets and a mug at 4.50 give 3 and 24.48. *)
Theorem totals_sum_surviving_lines (os : list op) :
  forallb plain os = true ->
  let pg := run fresh os in
  let c := cart_var pg in
  (0 <= sum_quantities c /\
   (sum_quantities c < 2 ^ 53 ->
    totals c = Some (Number_of_Z (sum_quantities c), sum_prices c) /\
    cart_count (dom pg) = Number_of_Z (sum_quantities c) /\
    (forall dollars, whole_prices dollars c -> exact_total dollars c < 2 ^ 53 ->
     sum_prices c = Number_of_Z (exact_total dollars c))) /\
   cart_total (dom pg) = toFixed2 (sum_prices c)) /\
  (let twice := run fresh [widget; widget] in
   totals (cart_var twice) = Some (Number_of_Z 2, decimal false 1998 (-2)) /\
   cart_count (dom twice) = Number_of_Z 2 /\ cart_total (dom twice) = "19.98") /\
  (let once := run fresh [widget; widget; Decrease "X1"] in
   totals (cart_var once) = Some (Number_of_Z 1, decimal false 999 (-2)) /\
   cart_count (dom once) = Number_of_Z 1 /\ cart_total (dom once) = "9.99") /\
  (let none := run fresh [widget; widget; Decrease "X1"; Decrease "X1"] in
   totals (cart_var none) = Some (zero, zero) /\ cart_var none = [] /\
   cart_count (dom none) = zero /\ cart_total (dom none) = "0.00") /\
  (let both := run fresh [widget; mug; widget] in
   totals (cart_var both) = Some (Number_of_Z 3, decimal false 2448 (-2)) /\
   cart_count (dom both) = Number_of_Z 3 /\ cart_total (dom both) = "24.48").
Proof.
  intros Hp pg c. split; [|repeat split; vm_compute; reflexivity].
  pose proof (run_positive_quantities os) as Hq. fold pg c in Hq.
  destruct (run_plain os Hp) as [Ht _]. fold pg c in Ht.
  destruct (run_plain_dom os Hp) as (_ & Hcount & Htotal). fold pg c in Hcount, Htotal.
  split; [now apply sum_quantities_nonneg|]. split; [|exact Htotal].
  intros Hs.
  assert (E : fold_left (fun a kv => Number_add a (Number_of_Z (quantity (snd kv)))) c zero =
              Number_of_Z (sum_quantities c)).
  { change zero with (Number_of_Z 0). rewrite (fold_sum_quantities c 0 Hq); [reflexivity|lia|lia]. }
  split; [|split; [now rewrite Hcount|]].
  - unfold totals, updateCart_loop. rewrite updateCart_loop_from, Ht, E, fold_sum_prices.
    reflexivity.
  - intros dollars Hw Hd. now apply sum_prices_whole.
Qed.

Lemma totals_sum_surviving_lines_witness :
  let pg := run fresh [widget; mug; Increase "17"; widget; Remove "X1"] in
  let whole := run fresh [ink; pen; ink; Increase "5"; ink] in
  (cart_count (dom pg) = Number_of_Z 2 /\ cart_total (dom pg) = "9.00") /\
  (whole_prices pen_and_ink (cart_var whole) /\
   exact_total pen_and_ink (cart_var whole) = 27 /\
   sum_prices (cart_var whole) = Number_of_Z 27 /\
   cart_total (dom whole) = "27.00").
Proof.
  pose proof (totals_sum_surviving_lines
                [widget; mug; Increase "17"; widget; Remove "X1"] eq_refl) as H.
  destruct H as [(_ & Hc & Ht) _].
  pose proof (totals_sum_surviving_lines
                [ink; pen; ink; Increase "5"; ink] eq_refl) as H'.
  destruct H' as [(_ & Hc' & _) _].
  assert (Hw : whole_prices pen_and_ink
                 (cart_var (run fresh [ink; pen; ink; Increase "5"; ink])))
    by (repeat (constructor; [split; [discriminate|reflexivity]|]); constructor).
  split; [split; [exact (proj1 (proj2 (Hc eq_refl)))|exact Ht]|].
  split; [exact Hw|]. split; [reflexivity|]. split; [|reflexivity].
  exact (proj2 (proj2 (Hc' eq_refl)) pen_and_ink Hw eq_refl).
Defined.

(** ** Adding an item that is in the cart *)

(** C10: on a cart that has a line for the id, an add leaves the name and
    the price of that line as they are, whatever name and price the button
    carries, raises its quantity by one and leaves every other line as it
    is. *)
Theorem add_existing_keeps_name_and_price
    (pg : page) (id : string) (nm' : value) (pr' : Number) (item : line) :
  get id (cart_var pg) = Some item ->
  let pg' := add_to_cart_click id nm' pr' pg in
  get id (cart_var pg') =
    Some {| name := name item; price := price item; quantity := quantity item + 1 |} /\
  (forall id', id' <> id -> get id' (cart_var pg') = get id' (cart_var pg)).
Proof.
  intros Hg pg'. subst pg'. unfold add_to_cart_click.
  rewrite (lookup_own _ _ _ Hg), cart_var_refreshed. split.
  - apply get_put_same.
  - intros id' Hne. now apply get_put_other.
Qed.

Lemma add_existing_keeps_name_and_price_witness :
  let pg := run fresh [widget] in
  let pg' := add_to_cart_click "X1" (Str "Gadget") (decimal false 5 0) pg in
  get "X1" (cart_var pg') =
    Some {| name := Str "Widget"; price := decimal false 999 (-2); quantity := 1 + 1 |} /\
  (forall id', id' <> "X1" -> get id' (cart_var pg') = get id' (cart_var pg)).
Proof.
  exact (add_existing_keeps_name_and_price (run fresh [widget]) "X1" (Str "Gadget")
           (decimal false 5 0)
           {| name := Str "Widget"; price := decimal false 999 (-2); quantity := 1 |}
           eq_refl).
Defined.

(** ** The cart stored and loaded *)

(** C3, at an absent item and at four stored texts: with nothing stored the
    cart is the empty object, and so it is for the stored text of an empty
    object; a text that is a JSON number becomes the cart as it is; a text
    that is not JSON, the empty text included, ends the statement with a
    SyntaxError. *)
Theorem restore_raises_on_malformed_text :
  restore None = Loaded (Obj []) /\
  restore (Some "{}") = Loaded (Obj []) /\
  restore (Some "5") = Loaded (Num (Number_of_Z 5)) /\
  restore (Some "{oops") = SyntaxError /\
  restore (Some EmptyString) = SyntaxError.
Proof. repeat split. Qed.

(** A SyntaxError of the model is one of the text, not a lack of fuel: no
    amount of fuel reads the stored text as a value. *)
Lemma syntax_error_whatever_the_fuel (text : string) :
  restore (Some text) = SyntaxError ->
  forall f v r, parse_value f text = Some (v, r) -> skip_ws r <> EmptyString.
Proof.
  unfold restore. intros H f v r Hv Hr.
  now rewrite (parse_fuel_suffices f text v r Hv Hr) in H.
Qed.

(** The prices from 0.01 to 20.00 in steps of 0.01 and the quantities from
    1 to 1000 survive being written and read. *)
Lemma prices_in_cents_survive :
  forallb (fun c => number_survives (decimal false (N.of_nat c) (-2))) (seq 1 2000) = true.
Proof. vm_compute. reflexivity. Qed.

Lemma quantities_survive :
  forallb (fun q => number_survives (Number_of_Z (Z.of_nat q))) (seq 1 1000) = true.
Proof. vm_compute. reflexivity. Qed.

Lemma keys_value_of_cart (c : cart) :
  map fst (map (fun kv => (fst kv, value_of_line (snd kv))) c) = map fst c.
Proof. induction c as [|kv c IH]; simpl; [reflexivity|now rewrite IH]. Qed.

Lemma value_of_cart_survives (c : cart) :
  canonical c = true -> values_survive c = true ->
  survives (value_of_cart c) = true.
Proof.
  unfold canonical, values_survive, value_of_cart. intros Hc Hn.
  cbn [survives]. rewrite keys_value_of_cart, Hc. cbn [andb].
  clear Hc. induction c as [|[k l] c IH]; [reflexivity|].
  cbn [forallb map] in Hn |- *.
  apply andb_prop in Hn as [Hl Hn]. rewrite (IH Hn), andb_true_r.
  cbn [fst snd] in Hl |- *. apply andb_prop in Hl as [Hl Hq].
  apply andb_prop in Hl as [Hm Hp].
  unfold value_of_line. cbn [survives forallb map fst]. rewrite Hm, Hp, Hq.
  reflexivity.
Qed.

Lemma get_value_of_cart (id : string) (c : cart) :
  get id (map (fun kv => (fst kv, value_of_line (snd kv))) c) =
  option_map value_of_line (get id c).
Proof.
  induction c as [|[k l] c IH]; simpl; [reflexivity|].
  now destruct (String.eqb id k).
Qed.

(** C9, at items named NaN and Infinity: [.data('name')] hands these names
    out as Numbers, [JSON.stringify] writes a Number that is not finite as
    null, and null is what a reload finds in the place of both names. *)
Theorem number_name_is_not_restored :
  let pg := run fresh [Add "X1" (data "NaN") (decimal false 999 (-2));
                       Add "X2" (data "Infinity") (decimal false 45 (-1))] in
  cart_var pg =
    [("X1", {| name := Num NaN; price := decimal false 999 (-2); quantity := 1 |});
     ("X2", {| name := Num (S754_infinity false); price := decimal false 45 (-1);
               quantity := 1 |})] /\
  buxxelCart pg = Some (saveCart (cart_var pg)) /\
  restore (buxxelCart pg) =
    Loaded (Obj [("X1", Obj [("name", Null); ("price", Num (decimal false 999 (-2)));
                             ("quantity", Num (Number_of_Z 1))]);
                 ("X2", Obj [("name", Null); ("price", Num (decimal false 45 (-1)));
                             ("quantity", Num (Number_of_Z 1))])]).
Proof. vm_compute. repeat split. Qed.

(** X21: for a cart built from the empty cart whose names and Numbers
    survive being written and read, what the statement that loads
    the cart finds in the text of the cart is the cart: the same ids in the
    same order and, under each id, the same name, price and quantity. That
    text is what the store holds whenever [updateCart] has returned on the
    page. *)
Theorem stored_cart_is_restored (os : list op) :
  values_survive (cart_var (run fresh os)) = true ->
  let pg := run fresh os in
  restore (Some (saveCart (cart_var pg))) = Loaded (value_of_cart (cart_var pg)) /\
  (forall id,
     get id (map (fun kv => (fst kv, value_of_line (snd kv))) (cart_var pg)) =
     option_map value_of_line (get id (cart_var pg))) /\
  (completes pg = true ->
   restore (buxxelCart pg) = Loaded (value_of_cart (cart_var pg))).
Proof.
  intros Hn pg.
  assert (Hsaved : restore (Some (saveCart (cart_var pg))) =
                   Loaded (value_of_cart (cart_var pg))).
  { unfold restore, saveCart.
    rewrite parse_stringify; [reflexivity|].
    apply value_of_cart_survives; [apply run_canonical|exact Hn]. }
  split; [exact Hsaved|]. split; [intros id; apply get_value_of_cart|].
  intros Hc. destruct (run_in_step os) as [_ Hs]. fold pg in Hs.
  destruct (Hs Hc) as [E|[E0 E1]].
  - now rewrite E.
  - rewrite E0, E1. reflexivity.
Qed.

Lemma stored_cart_is_restored_witness :
  let pg := run fresh [widget; widget; Add "17" (data "Mug") (decimal false 45 (-1));
                       Decrease "X1"; Add "9" (data "2024") (decimal false 125 (-2))] in
  restore (Some (saveCart (cart_var pg))) = Loaded (value_of_cart (cart_var pg)) /\
  (forall id,
     get id (map (fun kv => (fst kv, value_of_line (snd kv))) (cart_var pg)) =
     option_map value_of_line (get id (cart_var pg))) /\
  (completes pg = true ->
   restore (buxxelCart pg) = Loaded (value_of_cart (cart_var pg))).
Proof.
  apply (stored_cart_is_restored
           [widget; widget; Add "17" (data "Mug") (decimal false 45 (-1));
            Decrease "X1"; Add "9" (data "2024") (decimal false 125 (-2))]).
  vm_compute. reflexivity.
Defined.

End CartFacts.

(** * Properties of the feed *)

Module FeedFacts.

Import JSNumber JSON Conversion Feed JSONSpec FeedSpec.

(** ** Texts that are cut at a character *)

Lemma all_chars_app (p : ascii -> bool) (a b : string) :
  all_chars p (a ++ b) = all_chars p a && all_chars p b.
Proof.
  induction a as [|c a IH]; simpl; [reflexivity|].
  now rewrite IH, andb_assoc.
Qed.

Lemma all_chars_impl (p q : ascii -> bool) (s : string) :
  (forall c, p c = true -> q c = true) -> all_chars p s = true -> all_chars q s = true.
Proof.
  intros Hpq. induction s as [|c s IH]; simpl; [reflexivity|].
  intros [Hc Hs]%andb_prop. now rewrite (Hpq _ Hc), IH.
Qed.

Lemma before_without (c : ascii) (s : string) :
  all_chars (other_than c) s = true -> before c s = s.
Proof.
  induction s as [|a s IH]; simpl; [reflexivity|].
  unfold other_than at 1. intros [Ha Hs]%andb_prop.
  apply negb_true_iff in Ha. rewrite Ha. now rewrite IH.
Qed.

Lemma split_on_without (c : ascii) (s : string) :
  all_chars (other_than c) s = true -> split_on c s = [s].
Proof.
  induction s as [|a s IH]; simpl; [reflexivity|].
  unfold other_than at 1. intros [Ha Hs]%andb_prop.
  apply negb_true_iff in Ha. rewrite Ha. now rewrite IH.
Qed.

Lemma split_on_app (c : ascii) (a b : string) :
  all_chars (other_than c) a = true ->
  split_on c (a ++ String c b) = a :: split_on c b.
Proof.
  induction a as [|x a IH]; simpl.
  - intros _. now rewrite Ascii.eqb_refl.
  - unfold other_than at 1. intros [Hx Ha]%andb_prop.
    apply negb_true_iff in Hx. rewrite Hx. now rewrite IH.
Qed.

(** ** What [encodeURIComponent] gives *)

(** The characters that are left alone are none of the four a URL is cut
    at, and neither is a hexadecimal digit. *)
Lemma unreserved_cuts (c : ascii) : uri_unreserved c = true -> cuts c = false.
Proof.
  destruct c as [[] [] [] [] [] [] [] []]; vm_compute; intros H;
    solve [reflexivity | discriminate H].
Qed.

Lemma hex_cuts (c : ascii) :
  cuts (hex_upper (N_of_ascii c / 16)) = false /\
  cuts (hex_upper (N_of_ascii c mod 16)) = false.
Proof. destruct c as [[] [] [] [] [] [] [] []]; vm_compute; split; reflexivity. Qed.

Lemma encodeURIComponent_cuts (s : string) :
  all_chars (fun c => negb (cuts c)) (encodeURIComponent s) = true.
Proof.
  induction s as [|c s IH]; simpl; [reflexivity|].
  destruct (uri_unreserved c) eqn:E; simpl.
  - now rewrite (unreserved_cuts _ E), IH.
  - destruct (hex_cuts c) as [H1 H2]. now rewrite H1, H2, IH.
Qed.

Lemma cuts_other_than (c a : ascii) :
  cuts c = true -> negb (cuts a) = true -> other_than c a = true.
Proof.
  unfold other_than. intros Hc Ha.
  destruct (Ascii.eqb a c) eqn:E; [|reflexivity].
  apply Ascii.eqb_eq in E. subst a. now rewrite Hc in Ha.
Qed.

Lemma unreserved_other_than (c : ascii) (s : string) :
  cuts c = true -> unreserved s = true -> all_chars (other_than c) s = true.
Proof.
  intros Hc. apply all_chars_impl. intros a Ha.
  apply cuts_other_than; [exact Hc|]. now rewrite (unreserved_cuts _ Ha).
Qed.

Lemma encoded_other_than (c : ascii) (s : string) :
  cuts c = true -> all_chars (other_than c) (encodeURIComponent s) = true.
Proof.
  intros Hc. eapply all_chars_impl; [|apply encodeURIComponent_cuts].
  intros a Ha. now apply cuts_other_than.
Qed.

(** The URL of page 1, read: when the tag is made of characters that need
    no encoding, its three parameters are the page, the tag and the encoded
    search text. *)
Lemma url_read (t text : string) :
  unreserved t = true ->
  let u := url one t text in
  param "page" u = Some "1" /\ param "tag" u = Some t /\
  param "search" u = Some (encodeURIComponent text).
Proof.
  intros Ht u.
  assert (Hu : u = ("/api/listings/paged?page=1&tag=" ++ t ++
                    String "&" ("search=" ++ encodeURIComponent text))%string)
    by reflexivity.
  assert (Hq : query u = ("page=1" ++ String "&" (("tag=" ++ t) ++
                          String "&" ("search=" ++ encodeURIComponent text)))%string).
  { unfold query. rewrite before_without.
    - rewrite Hu. reflexivity.
    - rewrite Hu. cbn -[encodeURIComponent].
      rewrite all_chars_app. cbn -[encodeURIComponent].
      rewrite (unreserved_other_than "#" t eq_refl Ht).
      now rewrite (encoded_other_than "#" text eq_refl). }
  assert (Hs : split_on "&" (query u) =
               ["page=1"; "tag=" ++ t; "search=" ++ encodeURIComponent text]%string).
  { rewrite Hq, split_on_app by reflexivity.
    rewrite split_on_app.
    - rewrite split_on_without; [reflexivity|].
      cbn -[encodeURIComponent]. now apply encoded_other_than.
    - cbn. now apply unreserved_other_than. }
  unfold param. rewrite Hs. cbn -[encodeURIComponent]. repeat split.
Qed.

(** ** The tag as a text *)

(** The last character of a text made of characters that need no encoding
    is no closing brace or bracket. *)
Lemma unreserved_rbrace (s : string) : unreserved s = true -> rbrace s = false.
Proof.
  assert (H : forall s, unreserved s = true ->
                match last_char s with
                | Some d => Ascii.eqb d "}" = false /\ Ascii.eqb d "]" = false
                | None => True
                end).
  { clear s. induction s as [|c s IH]; [exact (fun _ => I)|].
    intros [Hc Hs]%andb_prop. specialize (IH Hs).
    change (last_char (String c s)) with
      (match s with EmptyString => Some c | String _ _ => last_char s end).
    destruct s as [|c' s']; [|exact IH].
    clear IH Hs. revert Hc.
    destruct c as [[] [] [] [] [] [] [] []]; vm_compute; intros H;
      solve [split; reflexivity | discriminate H]. }
  intros Hs. unfold rbrace. destruct s as [|c r]; [reflexivity|].
  apply andb_prop in Hs as [_ Hr]. specialize (H r Hr).
  destruct (last_char r) as [d|]; [|reflexivity].
  destruct H as [-> ->]. now rewrite !andb_false_r.
Qed.

(** For an attribute that is not in braces or brackets, what [.data] hands
    out has the attribute as its text. *)
Lemma data_text (s : string) : rbrace s = false -> to_string (data s) = Some s.
Proof.
  intros Hr. unfold data.
  destruct (String.eqb s "true") eqn:E1; [apply String.eqb_eq in E1; now subst|].
  destruct (String.eqb s "false") eqn:E2; [apply String.eqb_eq in E2; now subst|].
  destruct (String.eqb s "null") eqn:E3; [apply String.eqb_eq in E3; now subst|].
  destruct (numeric s) as [x|] eqn:En; [|now rewrite Hr].
  revert En. unfold numeric.
  destruct (String.eqb s "NaN") eqn:N1;
    [apply String.eqb_eq in N1; subst; now intros [= <-]|].
  destruct (String.eqb s "Infinity") eqn:N2;
    [apply String.eqb_eq in N2; subst; now intros [= <-]|].
  destruct (String.eqb s "-Infinity") eqn:N3;
    [apply String.eqb_eq in N3; subst; now intros [= <-]|].
  destruct (read_numeral s) as [y|]; [|discriminate].
  destruct (String.eqb (Number_toString y) s) eqn:Ey; [|discriminate].
  intros [= <-]. apply String.eqb_eq in Ey. simpl. now rewrite Ey.
Qed.

(** The tag that goes into the URL when the attribute of the active button
    is made of characters that need no encoding: the attribute itself, or
    [all] where [.data] hands out a falsy value. *)
Lemma tag_text_unreserved (tag : string) (s : feed) :
  unreserved tag = true ->
  tag_text (with_tag tag s) = Some (if to_boolean (data tag) then tag else "all").
Proof.
  intros Hu. unfold tag_text, activeTag. simpl.
  destruct (to_boolean (data tag)); [|reflexivity].
  apply data_text. now apply unreserved_rbrace.
Qed.

(** ** What a call of [loadMoreListings] does *)

Lemma truthy_page_one : truthy_page (Some one) = Some one.
Proof. reflexivity. Qed.

(** What [loadMoreListings(true)] leaves: an empty grid, page 1 stored, the
    button disabled, and one more request in flight when the tag has a
    text. *)
Lemma new_filter_effect (s : feed) :
  loadMoreListings true s =
    {| grid := []; btn_disabled := true; btn_html := spinner_html;
       btn_hidden := btn_hidden s; next_page := Some one;
       active_tag := active_tag s; search_bar := search_bar s;
       observing := observing s;
       in_flight := in_flight s ++
         match tag_text s with
         | Some t => [{| rq_url := url one t (search_bar s); rq_isNewFilter := true;
                         rq_originalHtml := btn_html s |}]
         | None => []
         end |}.
Proof.
  unfold loadMoreListings. rewrite andb_false_r. rewrite truthy_page_one.
  reflexivity.
Qed.

(** What [loadMoreListings(false)] does when it passes its two guards. *)
Lemma load_next_effect (s : feed) (p : Number) :
  btn_disabled s = false -> truthy_page (next_page s) = Some p ->
  loadMoreListings false s =
    {| grid := grid s; btn_disabled := true; btn_html := spinner_html;
       btn_hidden := btn_hidden s; next_page := next_page s;
       active_tag := active_tag s; search_bar := search_bar s;
       observing := observing s;
       in_flight := in_flight s ++
         match tag_text s with
         | Some t => [{| rq_url := url p t (search_bar s); rq_isNewFilter := false;
                         rq_originalHtml := btn_html s |}]
         | None => []
         end |}.
Proof.
  intros Hd Hp. unfold loadMoreListings. rewrite Hd. simpl. now rewrite Hp.
Qed.

Lemma load_next_ignored_while_disabled (s : feed) :
  btn_disabled s = true -> loadMoreListings false s = s.
Proof. intros H. unfold loadMoreListings. now rewrite H. Qed.

Lemma load_next_ignored_without_page (s : feed) :
  truthy_page (next_page s) = None -> loadMoreListings false s = s.
Proof.
  intros H. unfold loadMoreListings.
  destruct (btn_disabled s && negb false); [reflexivity|]. now rewrite H.
Qed.

(** A call of [loadMoreListings] sends no request, or one, and then the
    button is disabled. *)
Lemma loadMoreListings_cases (b : bool) (s : feed) :
  (in_flight (loadMoreListings b s) = in_flight s) \/
  (exists rq, in_flight (loadMoreListings b s) = in_flight s ++ [rq] /\
              btn_disabled (loadMoreListings b s) = true).
Proof.
  destruct b.
  - rewrite new_filter_effect. simpl.
    destruct (tag_text s); [right; eexists; split; reflexivity|].
    left. apply app_nil_r.
  - destruct (btn_disabled s) eqn:Hd.
    { left. now rewrite load_next_ignored_while_disabled. }
    destruct (truthy_page (next_page s)) as [p|] eqn:Hp.
    + rewrite (load_next_effect s p Hd Hp). simpl.
      destruct (tag_text s); [right; eexists; split; reflexivity|].
      left. apply app_nil_r.
    + left. now rewrite load_next_ignored_without_page.
Qed.

Lemma remove_at_length {A : Type} (i : nat) (l : list A) (x : A) :
  nth_error l i = Some x -> S (List.length (remove_at i l)) = List.length l.
Proof.
  revert l; induction i as [|i IH]; intros [|y l] H; simpl in H; try discriminate.
  - reflexivity.
  - unfold remove_at in *. simpl. f_equal. now apply IH.
Qed.

Lemma remove_at_last {A : Type} (l : list A) (x : A) :
  remove_at (List.length l) (l ++ [x]) = l.
Proof.
  unfold remove_at. induction l as [|y l IH]; simpl; [reflexivity|].
  now f_equal.
Qed.

Lemma nth_error_last {A : Type} (l : list A) (x : A) :
  nth_error (l ++ [x]) (List.length l) = Some x.
Proof. induction l; simpl; auto. Qed.

(** ** A change of filter *)

(** C6, at tag buttons whose tags are [c#], [R&B] and [[]], with [mug] in
    the search field. The tag of the clicked button goes into the URL as it
    is, while the search text next to it is encoded: of [c#] the request
    carries the tag [c] and no search text, of [R&B] it carries the tag [R];
    the attribute [[]] is handed out as an empty array, whose text is empty.
    For an attribute that is handed out as an object with a [toString] of
    its own the URL cannot be built: nothing is fetched, and the button
    stays disabled. *)
Theorem tag_is_not_encoded :
  let page := with_search "mug" served in
  let sharp := tag_btn_click "c#" page in
  let blues := tag_btn_click "R&B" page in
  let brackets := tag_btn_click "[]" page in
  let object := tag_btn_click ("{" ++ dq ++ "toString" ++ dq ++ ":1}") page in
  (map rq_url (in_flight sharp) = ["/api/listings/paged?page=1&tag=c#&search=mug"] /\
   map (param "tag") (map rq_url (in_flight sharp)) = [Some "c"] /\
   map (param "search") (map rq_url (in_flight sharp)) = [None]) /\
  (map rq_url (in_flight blues) = ["/api/listings/paged?page=1&tag=R&B&search=mug"] /\
   map (param "tag") (map rq_url (in_flight blues)) = [Some "R"]) /\
  (map rq_url (in_flight brackets) = ["/api/listings/paged?page=1&tag=&search=mug"] /\
   map (param "tag") (map rq_url (in_flight brackets)) = [Some EmptyString]) /\
  (in_flight object = [] /\ btn_disabled object = true /\
   intersect object = object).
Proof. vm_compute. repeat split. Qed.

(** X20: whatever the state of the feed (button enabled, disabled or
    hidden, requests pending or not), both filter handlers empty the grid,
    store page 1 and disable the button. They then send the request for page
    1 whose URL holds the text of the tag as it is and the search text
    encoded, unless the tag is a value without a text: then nothing is sent.
    When the tag is made of characters that need no encoding, the URL read
    back gives page 1, that tag ([all] in the place of an attribute that is
    handed out as a falsy value) and the encoded search text. *)
Theorem apply_filter_resets (s : feed) (tag text : string) :
  let by_tag := tag_btn_click tag s in
  let by_search := search_bar_keyup text s in
  (grid by_tag = [] /\ next_page by_tag = Some one /\ btn_disabled by_tag = true /\
   (forall t, tag_text (with_tag tag s) = Some t ->
      in_flight by_tag =
        in_flight s ++
        [{| rq_url := url one t (search_bar s);
            rq_isNewFilter := true; rq_originalHtml := btn_html s |}]) /\
   (tag_text (with_tag tag s) = None -> in_flight by_tag = in_flight s) /\
   (unreserved tag = true ->
      let t := if to_boolean (data tag) then tag else "all" in
      tag_text (with_tag tag s) = Some t /\
      param "page" (url one t (search_bar s)) = Some "1" /\
      param "tag" (url one t (search_bar s)) = Some t /\
      param "search" (url one t (search_bar s)) =
        Some (encodeURIComponent (search_bar s)))) /\
  (grid by_search = [] /\ next_page by_search = Some one /\
   btn_disabled by_search = true /\
   (forall t, tag_text s = Some t ->
      in_flight by_search =
        in_flight s ++
        [{| rq_url := url one t text;
            rq_isNewFilter := true; rq_originalHtml := btn_html s |}]) /\
   (tag_text s = None -> in_flight by_search = in_flight s) /\
   (forall t, tag_text s = Some t -> unreserved t = true ->
      param "page" (url one t text) = Some "1" /\
      param "tag" (url one t text) = Some t /\
      param "search" (url one t text) = Some (encodeURIComponent text))).
Proof.
  intros by_tag by_search. subst by_tag by_search.
  unfold tag_btn_click, search_bar_keyup. rewrite !new_filter_effect.
  fold (with_tag tag s). fold (with_search text s).
  change (tag_text (with_search text s)) with (tag_text s).
  cbn [grid next_page btn_disabled in_flight search_bar btn_html with_tag with_search].
  split; (split; [reflexivity|]; split; [reflexivity|]; split; [reflexivity|]).
  - split; [|split].
    + intros t Ht. now rewrite Ht.
    + intros Ht. rewrite Ht. apply app_nil_r.
    + intros Hu. cbv zeta. split; [now apply tag_text_unreserved|].
      apply url_read. now destruct (to_boolean (data tag)).
  - split; [|split].
    + intros t Ht. now rewrite Ht.
    + intros Ht. rewrite Ht. apply app_nil_r.
    + intros t _ Hu. now apply url_read.
Qed.

(** The theorem at the served page, for the tag [books] and the search text
    [mug & co]. *)
Lemma apply_filter_resets_witness :
  tag_text (with_tag "books" served) = Some "books" /\
  unreserved "books" = true /\
  in_flight (tag_btn_click "books" served) =
    [{| rq_url := "/api/listings/paged?page=1&tag=books&search=";
        rq_isNewFilter := true; rq_originalHtml := "Load More" |}] /\
  param "tag" (url one "books" EmptyString) = Some "books" /\
  in_flight (search_bar_keyup "mug & co" served) =
    [{| rq_url := "/api/listings/paged?page=1&tag=all&search=mug%20%26%20co";
        rq_isNewFilter := true; rq_originalHtml := "Load More" |}] /\
  param "search" (url one "all" "mug & co") = Some "mug%20%26%20co".
Proof.
  pose proof (apply_filter_resets served "books" "mug & co") as [Ht Hs].
  destruct Ht as (_ & _ & _ & Hsent & _ & Hread).
  destruct Hs as (_ & _ & _ & Hsent' & _ & Hread').
  split; [reflexivity|]. split; [reflexivity|].
  split; [exact (Hsent "books" eq_refl)|].
  split; [exact (proj1 (proj2 (proj2 (Hread eq_refl))))|].
  split; [exact (Hsent' "all" eq_refl)|].
  exact (proj2 (proj2 (Hread' "all" eq_refl eq_refl))).
Defined.

(** ** Stale answers *)

(** C1, as claimed, at the served page: page 1 is requested under tag "all",
    the tag "books" is chosen while that request is pending, and the answer
    for "all" then arrives. The claim wants the grid free of its items; the
    grid holds them, alone or after the answer for "books". *)
Lemma stale_response_is_rendered :
  let s1 := ready served in
  let s2 := tag_btn_click "books" s1 in
  map rq_url (in_flight s2) =
    ["/api/listings/paged?page=1&tag=all&search=";
     "/api/listings/paged?page=1&tag=books&search="] /\
  grid (fst (success 0 answer_all s2)) = [Card mug] /\
  grid (run s1 [TagClick "books"; Success 1 answer_books; Success 0 answer_all])
    = [Card atlas; Card mug].
Proof. vm_compute. repeat split. Qed.

(** A filter handler empties the grid and takes no request out of flight. *)
Lemma filter_event_effect (s : feed) (e : event) :
  (exists tag, e = TagClick tag) \/ (exists text, e = SearchKeyup text) ->
  grid (step s e) = [] /\
  exists sent, in_flight (step s e) = in_flight s ++ sent.
Proof.
  intros [[tag ->]|[text ->]]; simpl;
    unfold tag_btn_click, search_bar_keyup; rewrite new_filter_effect; simpl;
    (split; [reflexivity|]); eexists; reflexivity.
Qed.

(** C1, amended: an answer is rendered whatever filter its request was sent
    under. When a filter handler runs while request [i] is pending and the
    answer to [i] arrives next, the grid, emptied by the handler, receives
    every listing of that answer. *)
Theorem stale_response_appended
    (s : feed) (i : nat) (rq : request) (r : response) (e : event) :
  nth_error (in_flight s) i = Some rq ->
  (exists tag, e = TagClick tag) \/ (exists text, e = SearchKeyup text) ->
  let s1 := step s e in
  let s2 := step s1 (Success i r) in
  grid s1 = [] /\
  grid s2 = (if rq_isNewFilter rq && (List.length (listings r) =? 0)%nat
             then [NoMatches] else map Card (listings r)) /\
  (forall l, In l (listings r) -> In (Card l) (grid s2)).
Proof.
  intros Hi He s1 s2.
  destruct (filter_event_effect s e He) as [Hg [sent Hf]]. fold s1 in Hg, Hf.
  assert (Hn : nth_error (in_flight s1) i = Some rq).
  { rewrite Hf, nth_error_app1; [exact Hi|]. apply nth_error_Some. congruence. }
  assert (H2 : grid s2 = (if rq_isNewFilter rq && (List.length (listings r) =? 0)%nat
                          then [NoMatches] else map Card (listings r))).
  { subst s2. simpl. unfold success. rewrite Hn, Hg. simpl.
    destruct (has_next r); [reflexivity|].
    destruct (in_scope "observer"); reflexivity. }
  split; [exact Hg|]. split; [exact H2|].
  intros l Hl. rewrite H2.
  destruct (listings r) as [|l0 ls] eqn:E; [contradiction|].
  rewrite andb_false_r. rewrite <- E in *. now apply in_map.
Qed.

Lemma stale_response_appended_witness :
  grid (step (ready served) (TagClick "books")) = [] /\
  grid (step (step (ready served) (TagClick "books")) (Success 0 answer_all))
    = [Card mug] /\
  (forall l, In l (listings answer_all) ->
     In (Card l)
        (grid (step (step (ready served) (TagClick "books")) (Success 0 answer_all)))).
Proof.
  exact (stale_response_appended (ready served) 0 first_request answer_all
           (TagClick "books") eq_refl
           (or_introl (ex_intro _ "books" eq_refl))).
Defined.

(** ** Requests in flight *)

(** C2, as claimed, at the served page: choosing a tag while the first request
    is pending sends a second one. *)
Lemma two_requests_in_flight :
  List.length (in_flight (run (ready served) [TagClick "books"])) = 2%nat /\
  List.length (in_flight (run (ready served) [SearchKeyup "mug"; TagClick "books"])) = 3%nat.
Proof. split; reflexivity. Qed.

Lemma loadMoreListings_one_at_a_time (b : bool) (s : feed) :
  one_at_a_time s -> (b = true -> in_flight s = []) ->
  one_at_a_time (loadMoreListings b s).
Proof.
  intros Inv Hb.
  destruct b.
  - specialize (Hb eq_refl).
    destruct (loadMoreListings_cases true s) as [E|(rq & E & D)].
    + left. congruence.
    + right. rewrite E, Hb. split; [reflexivity|exact D].
  - destruct Inv as [E0|[L D]].
    + destruct (loadMoreListings_cases false s) as [E|(rq & E & D)].
      * left. congruence.
      * right. rewrite E, E0. split; [reflexivity|exact D].
    + rewrite load_next_ignored_while_disabled by exact D. right. now split.
Qed.

Lemma answered_one_at_a_time (i : nat) (s : feed) (fl : list request) (rq : request) :
  one_at_a_time s -> nth_error (in_flight s) i = Some rq ->
  fl = remove_at i (in_flight s) -> fl = [].
Proof.
  intros [E|[L _]] Hn ->.
  - rewrite E in Hn. destruct i; discriminate.
  - pose proof (remove_at_length _ _ _ Hn) as HL. rewrite L in HL.
    destruct (remove_at i (in_flight s)); [reflexivity|discriminate].
Qed.

Lemma step_one_at_a_time (s : feed) (e : event) :
  one_at_a_time s -> (is_filter e = true -> in_flight s = []) ->
  one_at_a_time (step s e).
Proof.
  intros Inv He. destruct e as [tag|text| |i r|i]; simpl in *.
  - apply loadMoreListings_one_at_a_time; simpl; [left|]; auto.
  - apply loadMoreListings_one_at_a_time; simpl; [left|]; auto.
  - unfold intersect. destruct (observing s); [|exact Inv].
    apply loadMoreListings_one_at_a_time; [exact Inv|discriminate].
  - unfold success. destruct (nth_error (in_flight s) i) as [rq|] eqn:Hn; [|exact Inv].
    left.
    destruct (has_next r); [|destruct (in_scope "observer")]; simpl;
      eapply answered_one_at_a_time; eauto.
  - unfold error. destruct (nth_error (in_flight s) i) as [rq|] eqn:Hn; [|exact Inv].
    left. simpl. eapply answered_one_at_a_time; eauto.
Qed.

(** C2, amended: the disabled button stops [loadMoreListings(false)] only.
    Along any sequence of events whose filter events each arrive with nothing
    in flight, starting with nothing in flight, at most one request is pending,
    and while it is pending the scroll trigger changes nothing. *)
Theorem one_fetch_unless_filter_interrupts (s : feed) (es : list event) :
  in_flight s = [] ->
  filters_when_settled s es ->
  (List.length (in_flight (run s es)) <= 1)%nat /\
  (in_flight (run s es) <> [] -> intersect (run s es) = run s es).
Proof.
  intros H0 Hes.
  assert (Inv : one_at_a_time (run s es)).
  { assert (I0 : one_at_a_time s) by now left.
    clear H0. revert s Hes I0. unfold run.
    induction es as [|e es IH]; intros s Hes I0; simpl in *; [exact I0|].
    destruct Hes as [He Hes]. apply IH; [exact Hes|].
    now apply step_one_at_a_time. }
  destruct Inv as [E|[L D]].
  - rewrite E. split; [simpl; lia|congruence].
  - split; [lia|]. intros _. unfold intersect.
    rewrite load_next_ignored_while_disabled by exact D.
    now destruct (observing _).
Qed.

Lemma one_fetch_unless_filter_interrupts_witness :
  (List.length (in_flight (run served
     [TagClick "books"; Intersect; Success 0 answer_books; Intersect])) <= 1)%nat /\
  (in_flight (run served
     [TagClick "books"; Intersect; Success 0 answer_books; Intersect]) <> [] ->
   intersect (run served
     [TagClick "books"; Intersect; Success 0 answer_books; Intersect]) =
   run served [TagClick "books"; Intersect; Success 0 answer_books; Intersect]).
Proof.
  apply (one_fetch_unless_filter_interrupts served
           [TagClick "books"; Intersect; Success 0 answer_books; Intersect]).
  - reflexivity.
  - simpl. repeat split; intros; try discriminate; reflexivity.
Defined.

(** ** Answers and failures *)

(** An answer announcing a further page stores the page after the one
    answered and enables the button again. *)
Lemma success_with_next (s : feed) (i : nat) (rq : request) (r : response) :
  nth_error (in_flight s) i = Some rq -> has_next r = true ->
  success i r s =
    ({| grid := (if rq_isNewFilter rq && (List.length (listings r) =? 0)%nat
                 then [NoMatches] else grid s ++ map Card (listings r));
        btn_disabled := false; btn_html := rq_originalHtml rq;
        btn_hidden := btn_hidden s; next_page := Some (Number_add (page r) one);
        active_tag := active_tag s; search_bar := search_bar s;
        observing := observing s; in_flight := remove_at i (in_flight s) |}, Normal).
Proof. intros Hn Hr. unfold success. now rewrite Hn, Hr. Qed.

(** An answer announcing no further page hides the button and leaves it
    disabled; the lookup of [observer] then fails, so the observer is never
    disconnected. *)
Lemma success_without_next (s : feed) (i : nat) (rq : request) (r : response) :
  nth_error (in_flight s) i = Some rq -> has_next r = false ->
  success i r s =
    ({| grid := (if rq_isNewFilter rq && (List.length (listings r) =? 0)%nat
                 then [NoMatches] else grid s ++ map Card (listings r));
        btn_disabled := btn_disabled s; btn_html := btn_html s;
        btn_hidden := true; next_page := next_page s;
        active_tag := active_tag s; search_bar := search_bar s;
        observing := observing s; in_flight := remove_at i (in_flight s) |},
     ReferenceError "observer").
Proof. intros Hn Hr. unfold success. now rewrite Hn, Hr. Qed.

(** C7, at the answer that ends the feed: the first request of the served
    page is answered with [has_next = false]. The button is hidden and stays
    disabled, so the scroll trigger changes nothing from then on; but the
    callback ends in a ReferenceError and the observer stays connected. *)
Theorem last_page_leaves_observer_connected :
  let out := success 0 answer_last (ready served) in
  snd out = ReferenceError "observer" /\
  observing (ready served) = true /\
  observing (fst out) = true /\
  btn_hidden (fst out) = true /\
  btn_disabled (fst out) = true /\
  in_flight (fst out) = [] /\
  intersect (fst out) = fst out.
Proof. vm_compute. repeat split. Qed.

(** What the [error] callback changes. *)
Lemma error_effect (s : feed) (i : nat) (rq : request) :
  nth_error (in_flight s) i = Some rq ->
  error i s =
    {| grid := grid s; btn_disabled := false; btn_html := failed_html;
       btn_hidden := btn_hidden s; next_page := next_page s;
       active_tag := active_tag s; search_bar := search_bar s;
       observing := observing s; in_flight := remove_at i (in_flight s) |}.
Proof. intros Hn. unfold error. now rewrite Hn. Qed.

(** The scroll trigger after a failure asks for the page that is stored,
    under the filter the page shows. *)
Lemma load_next_after_error (s : feed) (i : nat) (rq : request) (p : Number) (t : string) :
  nth_error (in_flight s) i = Some rq ->
  truthy_page (next_page s) = Some p -> tag_text s = Some t ->
  loadMoreListings false (error i s) =
    {| grid := grid s; btn_disabled := true; btn_html := spinner_html;
       btn_hidden := btn_hidden s; next_page := next_page s;
       active_tag := active_tag s; search_bar := search_bar s;
       observing := observing s;
       in_flight := remove_at i (in_flight s) ++
         [{| rq_url := url p t (search_bar s); rq_isNewFilter := false;
             rq_originalHtml := failed_html |}] |}.
Proof.
  intros Hn Hp Ht. rewrite (error_effect _ _ _ Hn).
  rewrite (load_next_effect _ p); [|reflexivity|exact Hp].
  change (tag_text _) with (tag_text s). now rewrite Ht.
Qed.

(** A request that [loadMoreListings] has just sent, and that fails before
    anything else happens, is sent again by the next scroll trigger. *)
Lemma retry_after_failure (b : bool) (s : feed) (rq : request) :
  in_flight (loadMoreListings b s) = in_flight s ++ [rq] ->
  let s1 := loadMoreListings b s in
  let s2 := error (List.length (in_flight s)) s1 in
  in_flight (loadMoreListings false s2) =
    in_flight s ++ [{| rq_url := rq_url rq; rq_isNewFilter := false;
                       rq_originalHtml := failed_html |}].
Proof.
  intros E s1 s2.
  assert (H : exists p t, truthy_page (next_page s1) = Some p /\
                          tag_text s1 = Some t /\ rq_url rq = url p t (search_bar s1)).
  { subst s1. revert E. destruct b.
    - rewrite new_filter_effect. simpl.
      change (tag_text {| grid := _ |}) with (tag_text s).
      destruct (tag_text s) as [t|]; intros E.
      + apply app_inv_head in E. injection E as <-.
        exists one, t. repeat split.
      + rewrite app_nil_r in E. apply (f_equal (@List.length _)) in E.
        rewrite length_app in E. simpl in E. lia.
    - destruct (btn_disabled s) eqn:Hd.
      { rewrite load_next_ignored_while_disabled by exact Hd. intros E.
        apply (f_equal (@List.length _)) in E.
        rewrite length_app in E. simpl in E. lia. }
      destruct (truthy_page (next_page s)) as [p|] eqn:Hp.
      + rewrite (load_next_effect s p Hd Hp). simpl.
        change (tag_text {| grid := _ |}) with (tag_text s).
        destruct (tag_text s) as [t|]; intros E.
        * apply app_inv_head in E. injection E as <-.
          exists p, t. split; [exact Hp|split; reflexivity].
        * rewrite app_nil_r in E. apply (f_equal (@List.length _)) in E.
          rewrite length_app in E. simpl in E. lia.
      + rewrite load_next_ignored_without_page by exact Hp. intros E.
        apply (f_equal (@List.length _)) in E.
        rewrite length_app in E. simpl in E. lia. }
  destruct H as (p & t & Hp & Ht & Hu).
  fold s1 in E.
  assert (Hn : nth_error (in_flight s1) (List.length (in_flight s)) = Some rq).
  { rewrite E. apply nth_error_last. }
  subst s2. rewrite (load_next_after_error s1 _ rq p t Hn Hp Ht). simpl.
  now rewrite E, remove_at_last, Hu.
Qed.

(** C8, as claimed, at the served page. First, the answer to the first
    request announces no further page and hides the button while the request
    of a tag click is pending; that request fails, and the button with its
    retry text stays hidden. Second, the request for page 2 fails after a tag
    click has stored page 1: the next scroll trigger asks for page 1 under
    the new tag, which is pending already, not for the page that failed. *)
Lemma failure_behind_a_hidden_button :
  let hidden :=
    run (ready served) [TagClick "books"; Success 0 answer_last; Error 0] in
  let overlap :=
    run (ready served) [Success 0 answer_all; Intersect; TagClick "books"] in
  (btn_hidden hidden = true /\ btn_html hidden = failed_html /\
   btn_disabled hidden = false) /\
  (map rq_url (in_flight overlap) =
     ["/api/listings/paged?page=2&tag=all&search=";
      "/api/listings/paged?page=1&tag=books&search="] /\
   map rq_url (in_flight (run overlap [Error 0; Intersect])) =
     ["/api/listings/paged?page=1&tag=books&search=";
      "/api/listings/paged?page=1&tag=books&search="]).
Proof. vm_compute. repeat split. Qed.

(** C8, amended: the [error] callback enables the button and gives it the
    retry text, which shows where the button is visible; it touches neither
    the stored page nor the grid nor the observer nor the visibility of the
    button. The next scroll trigger asks for the stored page under the
    filter the page shows then; this is the request that failed when it had
    just been sent and nothing happened in between. *)
Theorem failure_returns_to_idle (s : feed) (i : nat) (rq : request) :
  nth_error (in_flight s) i = Some rq ->
  let s' := error i s in
  btn_disabled s' = false /\
  btn_hidden s' = btn_hidden s /\
  btn_html s' = failed_html /\
  next_page s' = next_page s /\
  grid s' = grid s /\
  observing s' = observing s /\
  in_flight s' = remove_at i (in_flight s) /\
  (forall p t, truthy_page (next_page s) = Some p -> tag_text s = Some t ->
   loadMoreListings false s' =
     {| grid := grid s; btn_disabled := true; btn_html := spinner_html;
        btn_hidden := btn_hidden s; next_page := next_page s;
        active_tag := active_tag s; search_bar := search_bar s;
        observing := observing s;
        in_flight := remove_at i (in_flight s) ++
          [{| rq_url := url p t (search_bar s); rq_isNewFilter := false;
              rq_originalHtml := failed_html |}] |}) /\
  (forall b s0, s = loadMoreListings b s0 -> in_flight s = in_flight s0 ++ [rq] ->
   i = List.length (in_flight s0) ->
   in_flight (loadMoreListings false s') =
     in_flight s0 ++ [{| rq_url := rq_url rq; rq_isNewFilter := false;
                         rq_originalHtml := failed_html |}]).
Proof.
  intros Hn s'. subst s'.
  split; [|split; [|split; [|split; [|split; [|split; [|split; [|split]]]]]]];
    try (rewrite (error_effect _ _ _ Hn); reflexivity).
  - intros p t Hp Ht. now apply (load_next_after_error s i rq).
  - intros b s0 -> E ->. now apply retry_after_failure.
Qed.

(** The theorem at the first request of the served page: when it fails, the
    next scroll trigger sends it again. *)
Lemma failure_returns_to_idle_witness :
  nth_error (in_flight (ready served)) 0 = Some first_request /\
  btn_disabled (error 0 (ready served)) = false /\
  btn_hidden (error 0 (ready served)) = false /\
  btn_html (error 0 (ready served)) = failed_html /\
  grid (error 0 (ready served)) = [] /\
  map rq_url (in_flight (loadMoreListings false (error 0 (ready served)))) =
    ["/api/listings/paged?page=1&tag=all&search="].
Proof.
  pose proof (failure_returns_to_idle (ready served) 0 first_request eq_refl)
    as (Hd & Hh & Ht & _ & Hg & _ & _ & _ & Hr).
  split; [reflexivity|]. split; [exact Hd|]. split; [exact Hh|].
  split; [exact Ht|]. split; [exact Hg|].
  exact (f_equal (map rq_url)
           (Hr true {| grid := []; btn_disabled := false; btn_html := "Load More";
                       btn_hidden := false; next_page := None; active_tag := None;
                       search_bar := EmptyString; observing := true;
                       in_flight := [] |} eq_refl eq_refl eq_refl)).
Defined.

End FeedFacts.

(** * More on the cart *)

Module CartMore.

Import JSNumber Object JSON Conversion Cart JSONSpec JSONFacts NumberFacts CartSpec CartFacts.

(** ** Lines under distinct ids *)

Lemma may_follow_absent {A : Type} (k id : string) (o : object A) :
  forallb (may_follow k) (map fst o) = true ->
  forall v, get id o = Some v -> String.eqb id k = false /\ key_before id k = false.
Proof.
  induction o as [|[k' v'] o IH]; simpl; [discriminate|].
  intros H v Hg. apply andb_prop in H as [Hk Ho].
  destruct (String.eqb id k') eqn:E.
  - apply String.eqb_eq in E. subst k'. unfold may_follow in Hk.
    apply andb_prop in Hk as [H1 H2].
    now apply negb_true_iff in H1, H2.
  - now apply (IH Ho v).
Qed.

Lemma get_none_keys {A : Type} (k : string) (o : object A) :
  forallb (may_follow k) (map fst o) = true -> get k o = None.
Proof.
  intros H. destruct (get k o) as [v|] eqn:E; [|reflexivity].
  destruct (may_follow_absent _ _ _ H v E) as [Hne _].
  now rewrite String.eqb_refl in Hne.
Qed.

Lemma delete_absent {A : Type} (k : string) (o : object A) :
  get k o = None -> delete k o = o.
Proof.
  induction o as [|[k' v'] o IH]; simpl; [reflexivity|].
  destruct (String.eqb k k'); [discriminate|]. intros H. now rewrite (IH H).
Qed.

(** Assigning to a property of a canonical object changes its value where
    it stands. *)
Lemma put_present {A : Type} (k : string) (v old : A) (o : object A) :
  canonical o = true -> get k o = Some old ->
  exists o1 o2, o = o1 ++ (k, old) :: o2 /\ put k v o = o1 ++ (k, v) :: o2 /\
                get k o1 = None /\ get k o2 = None.
Proof.
  unfold canonical. induction o as [|[k' v'] o IH]; simpl; [discriminate|].
  intros Hc Hg. apply andb_prop in Hc as [H1 Hc].
  destruct (String.eqb k k') eqn:E.
  - apply String.eqb_eq in E. subst k'. injection Hg as ->.
    exists [], o. repeat split. now apply get_none_keys.
  - destruct (may_follow_absent _ _ _ H1 old Hg) as [_ Hb]. rewrite Hb.
    destruct (IH Hc Hg) as (o1 & o2 & -> & -> & G1 & G2).
    exists ((k', v') :: o1), o2. repeat split; simpl; now rewrite ?E.
Qed.

Lemma sum_quantities_app (c1 c2 : cart) :
  sum_quantities (c1 ++ c2) = sum_quantities c1 + sum_quantities c2.
Proof.
  unfold sum_quantities. induction c1 as [|kv c1 IH]; simpl; [reflexivity|].
  rewrite IH. lia.
Qed.

Lemma sum_put_present (id : string) (l old : line) (c : cart) :
  canonical c = true -> get id c = Some old ->
  sum_quantities (put id l c) = sum_quantities c - quantity old + quantity l.
Proof.
  intros Hc Hg. destruct (put_present id l old c Hc Hg) as (o1 & o2 & -> & -> & _).
  rewrite !sum_quantities_app. simpl. lia.
Qed.

Lemma sum_put_absent (id : string) (l : line) (c : cart) :
  get id c = None -> sum_quantities (put id l c) = sum_quantities c + quantity l.
Proof.
  induction c as [|[k v] c IH]; simpl; [lia|].
  destruct (String.eqb id k); [discriminate|]. intros Hg.
  destruct (key_before id k); simpl; [lia|]. rewrite (IH Hg). lia.
Qed.

Lemma sum_delete (id : string) (old : line) (c : cart) :
  canonical c = true -> get id c = Some old ->
  sum_quantities (delete id c) = sum_quantities c - quantity old.
Proof.
  unfold canonical. induction c as [|[k v] c IH]; simpl; [discriminate|].
  intros Hc Hg. apply andb_prop in Hc as [H1 Hc].
  destruct (String.eqb id k) eqn:E.
  - apply String.eqb_eq in E. subst k. injection Hg as ->.
    rewrite delete_absent by now apply get_none_keys. lia.
  - simpl. rewrite (IH Hc Hg). lia.
Qed.

Lemma delete_put {A : Type} (k : string) (v : A) (o : object A) :
  delete k (put k v o) = delete k o.
Proof.
  induction o as [|[k' v'] o IH]; simpl.
  - now rewrite String.eqb_refl.
  - destruct (String.eqb k k') eqn:E; simpl.
    + now rewrite String.eqb_refl.
    + destruct (key_before k k'); simpl.
      * now rewrite String.eqb_refl, E.
      * now rewrite E, IH.
Qed.

Lemma put_put {A : Type} (k : string) (v1 v2 : A) (o : object A) :
  put k v2 (put k v1 o) = put k v2 o.
Proof.
  induction o as [|[k' v'] o IH]; simpl.
  - now rewrite String.eqb_refl.
  - destruct (String.eqb k k') eqn:E; simpl.
    + now rewrite String.eqb_refl.
    + destruct (key_before k k') eqn:B; simpl.
      * now rewrite String.eqb_refl.
      * now rewrite E, B, IH.
Qed.

Lemma put_get {A : Type} (k : string) (v : A) (o : object A) :
  canonical o = true -> get k o = Some v -> put k v o = o.
Proof.
  intros Hc Hg. now destruct (put_present k v v o Hc Hg) as (o1 & o2 & -> & -> & _).
Qed.

Lemma with_quantity_same (item : line) (q : Z) :
  q = quantity item -> with_quantity item q = item.
Proof. intros ->. now destruct item. Qed.

(** A new id that is no array index goes to the end of the cart. *)
Lemma put_new_at_end {A : Type} (k : string) (v : A) (o : object A) :
  get k o = None -> array_index k = None -> put k v o = o ++ [(k, v)].
Proof.
  intros Hg Hi. induction o as [|[k' v'] o IH]; simpl in *; [reflexivity|].
  destruct (String.eqb k k'); [discriminate|].
  unfold key_before at 1. rewrite Hi. now rewrite (IH Hg).
Qed.

(** ** The count after a click *)

Lemma run_snoc (os : list op) (o : op) : run fresh (os ++ [o]) = apply (run fresh os) o.
Proof. unfold run. now rewrite fold_left_app. Qed.

(** After plain clicks the page shows the sum of the quantities, as long as
    it is below 2^53. *)
Lemma run_plain_count (os : list op) :
  forallb plain os = true ->
  sum_quantities (cart_var (run fresh os)) < 2 ^ 53 ->
  cart_count (dom (run fresh os)) = Number_of_Z (sum_quantities (cart_var (run fresh os))).
Proof.
  intros Hp Hs. destruct (run_plain_dom os Hp) as (_ & Hc & _). rewrite Hc.
  change zero with (Number_of_Z 0).
  rewrite (fold_sum_quantities _ 0 (run_positive_quantities os)); [reflexivity|lia|lia].
Qed.

(** X1: what each click does to the number shown in [#cart-count], on a
    page reached from the empty cart by clicks none of which goes to
    [__proto__] or carries a name without a text, while the numbers stay
    below 2^53. On a line that is there, an add and an increase raise the
    count by one, a decrease lowers it by one and a remove lowers it by the
    quantity of the line. On an id without a line, an add creates the line
    and raises the count by one, unless the id is a name every object
    inherits, such as constructor: then the add changes neither the cart nor
    the count; an increase, a decrease and a remove of an id that is neither
    leave the page as it is. *)
Theorem count_follows_clicks (os : list op) (id : string) (nm : value) (pr : Number) :
  forallb plain os = true -> plain (Add id nm pr) = true ->
  sum_quantities (cart_var (run fresh os)) + 1 < 2 ^ 53 ->
  let pg := run fresh os in
  let n := sum_quantities (cart_var pg) in
  cart_count (dom pg) = Number_of_Z n /\
  match get id (cart_var pg) with
  | Some item =>
      cart_count (dom (add_to_cart_click id nm pr pg)) = Number_of_Z (n + 1) /\
      cart_count (dom (increase_qty_click id pg)) = Number_of_Z (n + 1) /\
      cart_count (dom (decrease_qty_click id pg)) = Number_of_Z (n - 1) /\
      cart_count (dom (remove_item_click id pg)) = Number_of_Z (n - quantity item)
  | None =>
      if ordinary_key id
      then cart_count (dom (add_to_cart_click id nm pr pg)) = Number_of_Z (n + 1) /\
           increase_qty_click id pg = pg /\
           decrease_qty_click id pg = pg /\
           remove_item_click id pg = pg
      else cart_var (add_to_cart_click id nm pr pg) = cart_var pg /\
           cart_count (dom (add_to_cart_click id nm pr pg)) = Number_of_Z n
  end.
Proof.
  intros Hp Ho Hs pg n.
  pose proof (run_canonical os) as Hc. fold pg in Hc.
  pose proof (run_positive_quantities os) as Hpos. fold pg in Hpos.
  pose proof (sum_quantities_nonneg _ Hpos) as H0.
  assert (Hid : String.eqb id proto = false).
  { cbn [plain] in Ho. apply andb_prop in Ho as [Ho _]. now apply negb_true_iff in Ho. }
  assert (Hafter : forall o, plain o = true ->
            sum_quantities (cart_var (apply pg o)) < 2 ^ 53 ->
            cart_count (dom (apply pg o)) =
            Number_of_Z (sum_quantities (cart_var (apply pg o)))).
  { intros o Hpo Hso. unfold pg in *. rewrite <- run_snoc in Hso |- *.
    apply run_plain_count; [|exact Hso].
    rewrite forallb_app, Hp. cbn. now rewrite Hpo. }
  assert (Hplain : plain (Increase id) = true /\ plain (Decrease id) = true /\
                   plain (Remove id) = true).
  { cbn [plain]. now rewrite Hid. }
  destruct Hplain as (Pi & Pd & Pr).
  assert (Hn : n < 2 ^ 53) by (subst n pg; lia).
  assert (Hn1 : n + 1 < 2 ^ 53) by (subst n pg; lia).
  assert (Hn0 : 0 <= n) by (subst n; exact H0).
  split; [apply run_plain_count; [exact Hp|exact Hn]|].
  destruct (get id (cart_var pg)) as [item|] eqn:Hg.
  - assert (Hq : 1 <= quantity item).
    { unfold positive_quantities in Hpos. rewrite Forall_forall in Hpos.
      exact (Hpos _ (get_In _ _ _ Hg)). }
    pose proof (Hafter (Add id nm pr) Ho) as Ha.
    pose proof (Hafter (Increase id) Pi) as Hi.
    pose proof (Hafter (Decrease id) Pd) as Hd.
    pose proof (Hafter (Remove id) Pr) as Hr.
    cbn [apply] in Ha, Hi, Hd, Hr.
    unfold add_to_cart_click, increase_qty_click, decrease_qty_click,
      remove_item_click in *.
    rewrite (lookup_own _ _ _ Hg) in *. cbn [with_quantity quantity] in *.
    rewrite !cart_var_refreshed in *.
    rewrite (sum_put_present _ _ _ _ Hc Hg) in Ha, Hi. cbn [quantity with_quantity] in Ha, Hi.
    fold n in Ha, Hi.
    rewrite (sum_delete _ _ _ Hc Hg) in Hr. fold n in Hr.
    split; [rewrite Ha; [f_equal|]; lia|].
    split; [rewrite Hi; [f_equal|]; lia|].
    split; [|rewrite Hr; [reflexivity|lia]].
    destruct (quantity item - 1 <=? 0) eqn:E.
    + apply Z.leb_le in E. rewrite delete_put in Hd |- *.
      rewrite (sum_delete _ _ _ Hc Hg) in Hd.
      fold n in Hd. rewrite Hd; [f_equal|]; lia.
    + rewrite (sum_put_present _ _ _ _ Hc Hg) in Hd. cbn [quantity with_quantity] in Hd.
      fold n in Hd. rewrite Hd; [f_equal|]; lia.
  - destruct (ordinary_key id) eqn:K.
    + pose proof (Hafter (Add id nm pr) Ho) as Ha. cbn [apply] in Ha.
      unfold add_to_cart_click, increase_qty_click, decrease_qty_click,
        remove_item_click in *.
      rewrite (lookup_absent _ _ Hg K) in *.
      rewrite cart_var_refreshed, (sum_put_absent _ _ _ Hg) in Ha.
      cbn [quantity with_quantity] in Ha. fold n in Ha.
      split; [apply Ha; lia|]. now repeat split.
    + pose proof (Hafter (Add id nm pr) Ho) as Ha. cbn [apply] in Ha.
      unfold add_to_cart_click in *. unfold lookup in *. rewrite Hg, Hid in *.
      unfold ordinary_key in K. rewrite Hid in K. cbn [negb andb] in K.
      apply negb_false_iff in K. rewrite K in *.
      rewrite cart_var_refreshed in *. fold n in Ha.
      split; [reflexivity|apply Ha; lia].
Qed.

Lemma count_follows_clicks_witness :
  cart_count (dom (add_to_cart_click "constructor" (Str "Box") (decimal false 5 0)
                     (run fresh [widget; mug; widget]))) = Number_of_Z 3.
Proof.
  exact (proj2 (proj2 (count_follows_clicks [widget; mug; widget] "constructor"
                         (Str "Box") (decimal false 5 0) eq_refl eq_refl eq_refl))).
Defined.

(** ** One click after another *)

Lemma names_have_text_app (c1 c2 : cart) :
  names_have_text (c1 ++ c2) = names_have_text c1 && names_have_text c2.
Proof. apply forallb_app. Qed.

(** Changing the quantity of a line changes neither whether the names have
    texts nor which keys are inherited. *)
Lemma put_quantity_same_outcome (f : bool) (id : string) (item : line) (q : Z) (c : cart) :
  canonical c = true -> get id c = Some item ->
  let c1 := put id (with_quantity item q) c in
  c1 <> [] /\ names_have_text c1 = names_have_text c /\
  inherited_keys f c1 = inherited_keys f c.
Proof.
  intros Hc Hg c1. subst c1.
  destruct (put_present id (with_quantity item q) item c Hc Hg)
    as (o1 & o2 & E & E1 & _).
  rewrite E1. split; [now destruct o1|]. split.
  - rewrite E, !names_have_text_app. reflexivity.
  - unfold inherited_keys. destruct f; [|reflexivity].
    rewrite <- E1. destruct (String.eqb "quantity" id) eqn:K.
    + apply String.eqb_eq in K. subst id. now rewrite get_put_same, Hg.
    + apply String.eqb_neq in K. now rewrite get_put_other.
Qed.

(** Showing another cart with the same outcome and then the first one again
    gives the page back. *)
Lemma there_and_back (pg : page) (c1 : cart) :
  in_step pg -> cart_var pg <> [] -> c1 <> [] ->
  names_have_text c1 = names_have_text (cart_var pg) ->
  inherited_keys (proto_quantity pg) c1 =
    inherited_keys (proto_quantity pg) (cart_var pg) ->
  refreshed (proto_quantity pg) (cart_var pg)
    (refreshed (proto_quantity pg) c1 pg) = pg.
Proof.
  intros [Hd Hs] Hne Hne1 Hn Hi.
  unfold completes in Hs. unfold refreshed.
  rewrite (updateCart_cases _ c1), Hn, Hi.
  rewrite (updateCart_cases _ (cart_var pg)) in Hd, Hs.
  rewrite (updateCart_cases _ (cart_var pg)).
  destruct pg as [c d b f]. cbn [cart_var dom buxxelCart proto_quantity] in *.
  destruct c as [|kv c]; [contradiction|]. destruct c1 as [|kv1 c1]; [contradiction|].
  destruct (names_have_text (kv :: c) &&
            match inherited_keys f (kv :: c) with [] => true | _ => false end).
  - cbn [fst snd dom buxxelCart] in *.
    destruct (Hs eq_refl) as [E|[E _]]; [|discriminate]. now rewrite <- Hd, E.
  - cbn [fst snd dom buxxelCart cart_count cart_total] in *.
    rewrite Hd. reflexivity.
Qed.

(** X2: on a page reached from the empty cart, an increase followed by a
    decrease of the same line gives the page back. A decrease followed by
    an increase does so only for a line with more than one item: for a line
    with one item the decrease deletes the line and the increase finds
    nothing to raise. *)
Theorem increase_and_decrease_cancel (os : list op) (id : string) (item : line) :
  get id (cart_var (run fresh os)) = Some item ->
  let pg := run fresh os in
  decrease_qty_click id (increase_qty_click id pg) = pg /\
  (1 < quantity item -> increase_qty_click id (decrease_qty_click id pg) = pg) /\
  (quantity item = 1 ->
   cart_var (increase_qty_click id (decrease_qty_click id pg)) = delete id (cart_var pg) /\
   get id (cart_var (increase_qty_click id (decrease_qty_click id pg))) = None).
Proof.
  intros Hg pg. fold pg in Hg.
  pose proof (run_canonical os) as Hc. fold pg in Hc.
  pose proof (run_in_step os) as Hstep. fold pg in Hstep.
  pose proof (own_id_ordinary os id item Hg) as Hk.
  assert (Hne : cart_var pg <> []) by (intros E; rewrite E in Hg; discriminate).
  assert (Hq : 1 <= quantity item).
  { pose proof (run_positive_quantities os) as Inv.
    unfold positive_quantities in Inv. rewrite Forall_forall in Inv.
    exact (Inv _ (get_In _ _ _ Hg)). }
  split; [|split].
  - unfold increase_qty_click. rewrite (lookup_own _ _ _ Hg).
    unfold decrease_qty_click. rewrite cart_var_refreshed, proto_quantity_refreshed.
    rewrite (lookup_own _ _ _ (get_put_same _ _ _)).
    cbn [with_quantity quantity name price].
    replace (quantity item + 1 - 1 <=? 0) with false by (symmetry; apply Z.leb_gt; lia).
    rewrite put_put.
    change (with_quantity (with_quantity item (quantity item + 1)) (quantity item + 1 - 1))
      with (with_quantity item (quantity item + 1 - 1)).
    rewrite (with_quantity_same item) by lia.
    rewrite (put_get _ _ _ Hc Hg).
    destruct (put_quantity_same_outcome (proto_quantity pg) id item (quantity item + 1)
                (cart_var pg) Hc Hg) as (N1 & N2 & N3).
    now apply there_and_back.
  - intros H1. unfold decrease_qty_click. rewrite (lookup_own _ _ _ Hg).
    cbn [with_quantity quantity name price].
    replace (quantity item - 1 <=? 0) with false by (symmetry; apply Z.leb_gt; lia).
    unfold increase_qty_click. rewrite cart_var_refreshed, proto_quantity_refreshed.
    rewrite (lookup_own _ _ _ (get_put_same _ _ _)).
    cbn [with_quantity quantity name price].
    rewrite put_put.
    change (with_quantity (with_quantity item (quantity item - 1)) (quantity item - 1 + 1))
      with (with_quantity item (quantity item - 1 + 1)).
    rewrite (with_quantity_same item) by lia.
    rewrite (put_get _ _ _ Hc Hg).
    destruct (put_quantity_same_outcome (proto_quantity pg) id item (quantity item - 1)
                (cart_var pg) Hc Hg) as (N1 & N2 & N3).
    now apply there_and_back.
  - intros H1. unfold decrease_qty_click. rewrite (lookup_own _ _ _ Hg).
    cbn [with_quantity quantity name price]. rewrite H1.
    change (1 - 1 <=? 0) with true. cbv iota.
    unfold increase_qty_click. rewrite cart_var_refreshed.
    rewrite delete_put.
    rewrite (lookup_absent _ _ (get_delete_same _ _) Hk).
    rewrite cart_var_refreshed.
    split; [reflexivity|apply get_delete_same].
Qed.

Lemma increase_and_decrease_cancel_witness :
  let pg := run fresh [widget; mug; widget] in
  let item := {| name := Str "Widget"; price := decimal false 999 (-2); quantity := 2 |} in
  decrease_qty_click "X1" (increase_qty_click "X1" pg) = pg /\
  (1 < quantity item -> increase_qty_click "X1" (decrease_qty_click "X1" pg) = pg) /\
  (quantity item = 1 ->
   cart_var (increase_qty_click "X1" (decrease_qty_click "X1" pg)) = delete "X1" (cart_var pg) /\
   get "X1" (cart_var (increase_qty_click "X1" (decrease_qty_click "X1" pg))) = None).
Proof.
  exact (increase_and_decrease_cancel [widget; mug; widget] "X1"
           {| name := Str "Widget"; price := decimal false 999 (-2); quantity := 2 |}
           eq_refl).
Defined.

(** X3: a click changes no line but the one of its id: under every other
    id the cart holds after it what it held before, on any page. *)
Theorem other_lines_untouched (pg : page) (o : op) (id' : string) :
  id' <> op_id o ->
  get id' (cart_var (apply pg o)) = get id' (cart_var pg).
Proof.
  intros Hne.
  destruct (cart_after pg o) as [E|[(item & Hg & [E|[[H1 E]|E]])|(nm & pr & Hg & K & E)]];
    rewrite E; auto using get_put_other, get_delete_other.
Qed.

Lemma other_lines_untouched_witness :
  get "17" (cart_var (apply (run fresh [widget; mug]) (Remove "X1"))) =
  get "17" (cart_var (run fresh [widget; mug])).
Proof.
  apply (other_lines_untouched (run fresh [widget; mug]) (Remove "X1") "17").
  discriminate.
Defined.

(** ** What the page shows of a cart *)

(** X4: what [updateCart] writes for any cart. For the empty cart: the
    empty-cart message, the count 0 and the total 0.00. For a cart whose
    names all have a text, on a page where no inherited key is visited: one
    [<li>] per line, in the order of the lines, with the id, the text of the
    name, the price to two decimals and the quantity put into the markup as
    they are; the total is the sum of price times quantity in Number
    arithmetic to two decimals, the exact sum for whole prices, and the count
    is the sum of the quantities, both while they are below 2^53. In
    every other case the container is left emptied, the count and the total
    stay as they were, and the call raises. *)
Theorem updateCart_shows_every_line (f : bool) (c : cart) (shown : view) :
  let out := updateCart f c shown in
  (c = [] ->
   out = ({| cart_items := Empty_message; cart_count := zero; cart_total := "0.00" |},
          Normal)) /\
  (c <> [] -> names_have_text c = true -> inherited_keys f c = [] ->
   cart_items (fst out) =
     Item_list (map (fun kv => li_of kv (text (name (snd kv)))) c) /\
   (positive_quantities c -> sum_quantities c < 2 ^ 53 ->
    cart_count (fst out) = Number_of_Z (sum_quantities c) /\
    (forall dollars, whole_prices dollars c -> exact_total dollars c < 2 ^ 53 ->
     cart_total (fst out) = toFixed2 (Number_of_Z (exact_total dollars c)))) /\
   cart_total (fst out) = toFixed2 (sum_prices c) /\
   snd out = Normal) /\
  (c <> [] -> names_have_text c = false \/ inherited_keys f c <> [] ->
   out = ({| cart_items := Emptied; cart_count := cart_count shown;
             cart_total := cart_total shown |}, TypeError)).
Proof.
  intros out. subst out. rewrite updateCart_cases.
  split; [intros ->; reflexivity|]. split.
  - intros Hc Ht Hi. destruct c as [|kv c]; [contradiction|].
    rewrite Ht, Hi. cbn [andb fst snd cart_items cart_count cart_total].
    split; [reflexivity|]. split; [|split; reflexivity].
    intros Hq Hs. split.
    + change zero with (Number_of_Z 0).
      rewrite (fold_sum_quantities _ 0 Hq); [reflexivity|lia|lia].
    + intros dollars Hw Hd. now rewrite (sum_prices_whole dollars _ Hq Hw Hs Hd).
  - intros Hc H. destruct c as [|kv c]; [contradiction|].
    destruct H as [Ht|Hi]; [now rewrite Ht|].
    destruct (inherited_keys f (kv :: c)); [contradiction|].
    now rewrite andb_false_r.
Qed.

(** ** Ids *)

Lemma canonical_keys_ordered (ks : list string) :
  canonical_keys ks = true ->
  NoDup ks /\ ForallOrdPairs (fun k k' => key_before k' k = false) ks.
Proof.
  induction ks as [|k ks IH]; simpl; intros H.
  - split; constructor.
  - apply andb_prop in H as [Hk Hks]. destruct (IH Hks) as [Hn Ho].
    rewrite forallb_forall in Hk. split.
    + constructor; [|exact Hn]. intros Hin. specialize (Hk _ Hin).
      unfold may_follow in Hk. now rewrite String.eqb_refl in Hk.
    + constructor; [|exact Ho]. apply Forall_forall. intros k' Hin.
      specialize (Hk _ Hin). unfold may_follow in Hk.
      apply andb_prop in Hk as [_ Hb]. now apply negb_true_iff in Hb.
Qed.

Lemma delete_delete {A : Type} (k : string) (o : object A) :
  delete k (delete k o) = delete k o.
Proof.
  induction o as [|[k' v'] o IH]; simpl; [reflexivity|].
  destruct (String.eqb k k') eqn:E; [exact IH|]. simpl. now rewrite E, IH.
Qed.

(** Without the line of its id, the cart is after a click what it was
    before it. *)
Lemma apply_keeps_order (pg : page) (o : op) :
  delete (op_id o) (cart_var (apply pg o)) = delete (op_id o) (cart_var pg).
Proof.
  destruct (cart_after pg o) as [E|[(item & _ & [E|[[_ E]|E]])|(nm & pr & _ & _ & E)]];
    cbv zeta in E; rewrite E;
    auto using delete_put, delete_delete.
Qed.

(** X5: in a cart reached from the empty cart no id has two lines, the ids
    that are array indices stand before all others and in ascending order,
    and no line stands under a name every object inherits. The other ids
    stand in the order in which their lines were created: an add under a new
    id that is neither an array index nor such a name puts its line after
    all the others, a click that changes a line leaves it where it stands,
    and no click moves a line of another id. The page shows what
    [updateCart] leaves for that cart, and whenever [updateCart] has
    returned the store holds the text of the cart, or nothing while no click
    has changed the cart. *)
Theorem cart_ids_distinct_and_page_in_step (os : list op) :
  let pg := run fresh os in
  NoDup (map fst (cart_var pg)) /\
  ForallOrdPairs (fun k k' => key_before k' k = false) (map fst (cart_var pg)) /\
  Forall (fun k => ordinary_key k = true) (map fst (cart_var pg)) /\
  (forall id nm pr,
     get id (cart_var pg) = None -> ordinary_key id = true -> array_index id = None ->
     cart_var (add_to_cart_click id nm pr pg) =
     cart_var pg ++ [(id, {| name := nm; price := pr; quantity := 1 |})]) /\
  (forall id item l,
     get id (cart_var pg) = Some item ->
     map fst (put id l (cart_var pg)) = map fst (cart_var pg)) /\
  (forall o,
     delete (op_id o) (cart_var (apply pg o)) = delete (op_id o) (cart_var pg)) /\
  dom pg = fst (updateCart (proto_quantity pg) (cart_var pg) (dom pg)) /\
  (completes pg = true ->
   buxxelCart pg = Some (saveCart (cart_var pg)) \/
   (cart_var pg = [] /\ buxxelCart pg = None)).
Proof.
  intros pg.
  destruct (canonical_keys_ordered _ (run_canonical os)) as [Hn Ho].
  destruct (run_in_step os) as [Hd Hs].
  split; [exact Hn|]. split; [exact Ho|]. split.
  - apply Forall_map. exact (run_ordinary_keys os).
  - split; [|split; [|split; [|split; [exact Hd|exact Hs]]]].
    + intros id nm pr Hg Hk Hi. unfold add_to_cart_click.
      rewrite (lookup_absent _ _ Hg Hk), cart_var_refreshed.
      now apply put_new_at_end.
    + intros id item l Hg.
      destruct (put_present id l item _ (run_canonical os) Hg)
        as (o1 & o2 & E1 & E2 & _).
      fold pg in E1, E2. rewrite E2, E1, !map_app. reflexivity.
    + intros o. apply apply_keeps_order.
Qed.

End CartMore.

(** * More on the feed *)

Module FeedMore.

Import JSNumber JSON Conversion Feed FeedSpec FeedFacts FeedMoreSpec.

(** ** What no event does *)

Lemma loadMoreListings_keeps (b : bool) (s : feed) :
  observing (loadMoreListings b s) = observing s /\
  btn_hidden (loadMoreListings b s) = btn_hidden s /\
  active_tag (loadMoreListings b s) = active_tag s /\
  search_bar (loadMoreListings b s) = search_bar s.
Proof.
  destruct b; [rewrite new_filter_effect; repeat split|].
  destruct (btn_disabled s) eqn:Hd;
    [rewrite load_next_ignored_while_disabled by exact Hd; repeat split|].
  destruct (truthy_page (next_page s)) as [p|] eqn:Hp.
  - rewrite (load_next_effect s p Hd Hp). repeat split.
  - rewrite load_next_ignored_without_page by exact Hp. repeat split.
Qed.

Lemma step_keeps (s : feed) (e : event) :
  observing (step s e) = observing s /\
  (btn_hidden s = true -> btn_hidden (step s e) = true).
Proof.
  destruct e as [tag|text| |i r|i]; simpl.
  - unfold tag_btn_click.
    destruct (loadMoreListings_keeps true
                {| grid := grid s; btn_disabled := btn_disabled s; btn_html := btn_html s;
                   btn_hidden := btn_hidden s; next_page := next_page s;
                   active_tag := Some tag; search_bar := search_bar s;
                   observing := observing s; in_flight := in_flight s |})
      as (-> & -> & _). now split.
  - unfold search_bar_keyup.
    destruct (loadMoreListings_keeps true
                {| grid := grid s; btn_disabled := btn_disabled s; btn_html := btn_html s;
                   btn_hidden := btn_hidden s; next_page := next_page s;
                   active_tag := active_tag s; search_bar := text;
                   observing := observing s; in_flight := in_flight s |})
      as (-> & -> & _). now split.
  - unfold intersect. destruct (observing s) eqn:E; [|now split].
    destruct (loadMoreListings_keeps false s) as (-> & -> & _). now split.
  - unfold success. destruct (nth_error (in_flight s) i); [|now split].
    destruct (has_next r); simpl; now split.
  - unfold error. destruct (nth_error (in_flight s) i); now split.
Qed.

(** X6: no event connects or disconnects the scroll observer, and none
    shows the load-more button again once it is hidden: after the answer
    that ends one filter's pages the button stays hidden under every later
    filter, whatever its answers announce. *)
Theorem observer_and_hidden_button_stay (s : feed) (es : list event) :
  observing (run s es) = observing s /\
  (btn_hidden s = true -> btn_hidden (run s es) = true) /\
  (forall i rq r, nth_error (in_flight s) i = Some rq -> has_next r = false ->
     btn_hidden (run s (Success i r :: es)) = true).
Proof.
  assert (H : forall es s, observing (run s es) = observing s /\
                           (btn_hidden s = true -> btn_hidden (run s es) = true)).
  { clear. unfold run. induction es as [|e es IH]; intros s; simpl; [now split|].
    destruct (step_keeps s e) as [Ho Hh]. destruct (IH (step s e)) as [Io Ih].
    split; [congruence|auto]. }
  destruct (H es s) as [Ho Hh]. split; [exact Ho|]. split; [exact Hh|].
  intros i rq r Hn Hr. change (run s (Success i r :: es)) with (run (step s (Success i r)) es).
  apply H. simpl. now rewrite (success_without_next s i rq r Hn Hr).
Qed.

(** ** Scrolling *)

Lemma forallb_remove_at {A : Type} (p : A -> bool) (i : nat) (l : list A) :
  forallb p l = true -> forallb p (remove_at i l) = true.
Proof.
  revert l. induction i as [|i IH]; intros [|x l] H; try reflexivity.
  - simpl in H. now apply andb_prop in H as [_ H].
  - simpl in H. apply andb_prop in H as [Hx H].
    change (remove_at (S i) (x :: l)) with (x :: remove_at i l).
    simpl. now rewrite Hx, (IH l H).
Qed.

Lemma nth_error_forallb {A : Type} (p : A -> bool) (i : nat) (l : list A) (x : A) :
  forallb p l = true -> nth_error l i = Some x -> p x = true.
Proof.
  intros H Hn. rewrite forallb_forall in H. apply H. exact (nth_error_In _ _ Hn).
Qed.

Lemma step_scroll (s : feed) (e : event) :
  is_filter e = false -> scroll_requests s = true ->
  scroll_requests (step s e) = true /\ exists more, grid (step s e) = grid s ++ more.
Proof.
  unfold scroll_requests. intros He Hs.
  destruct e as [tag|text| |i r|i]; simpl in *; try discriminate.
  - unfold intersect. destruct (observing s).
    + destruct (btn_disabled s) eqn:Hd.
      { rewrite load_next_ignored_while_disabled by exact Hd.
        split; [exact Hs|exists []; now rewrite app_nil_r]. }
      destruct (truthy_page (next_page s)) as [p|] eqn:Hp.
      * rewrite (load_next_effect s p Hd Hp). simpl.
        split; [|exists []; now rewrite app_nil_r].
        rewrite forallb_app, Hs. now destruct (tag_text s).
      * rewrite load_next_ignored_without_page by exact Hp.
        split; [exact Hs|exists []; now rewrite app_nil_r].
    + split; [exact Hs|exists []; now rewrite app_nil_r].
  - unfold success. destruct (nth_error (in_flight s) i) as [rq|] eqn:Hn.
    + pose proof (nth_error_forallb _ _ _ _ Hs Hn) as Hrq.
      apply negb_true_iff in Hrq. rewrite Hrq. simpl.
      destruct (has_next r); simpl;
        (split; [now apply forallb_remove_at|now exists (map Card (listings r))]).
    + split; [exact Hs|exists []; now rewrite app_nil_r].
  - unfold error. destruct (nth_error (in_flight s) i) as [rq|] eqn:Hn; simpl.
    + split; [now apply forallb_remove_at|exists []; now rewrite app_nil_r].
    + split; [exact Hs|exists []; now rewrite app_nil_r].
Qed.

(** X7: scrolling loses nothing. Along events none of which changes the
    filter, from a page none of whose pending requests was sent by a change
    of filter, the grid only grows at its end: what was rendered stays
    rendered, in its order, whatever answers and failures arrive. *)
Theorem scrolling_only_appends (s : feed) (es : list event) :
  scroll_only es = true -> scroll_requests s = true ->
  exists more, grid (run s es) = grid s ++ more.
Proof.
  unfold run, scroll_only. revert s.
  induction es as [|e es IH]; intros s Hes Hs; simpl in *.
  - exists []. now rewrite app_nil_r.
  - apply andb_prop in Hes as [He Hes]. apply negb_true_iff in He.
    destruct (step_scroll s e He Hs) as [Hs' [m1 E1]].
    destruct (IH (step s e) Hes Hs') as [m2 E2].
    exists (m1 ++ m2). now rewrite E2, E1, app_assoc.
Qed.

Lemma scrolling_only_appends_witness :
  exists more,
    grid (run (run (ready served) [Success 0 answer_all])
              [Intersect; Error 0; Intersect; Success 0 answer_books; Intersect])
    = grid (run (ready served) [Success 0 answer_all]) ++ more.
Proof.
  apply (scrolling_only_appends (run (ready served) [Success 0 answer_all])
           [Intersect; Error 0; Intersect; Success 0 answer_books; Intersect]);
    reflexivity.
Defined.

(** X8: pages follow one another. When an answer announces a further page,
    the Number after the page it reports is stored; for a page below 2^53 - 1
    that is the next integer, and for the page 2^53 it is that page again.
    When that Number is not falsy and the tag has a
    text, the next scroll trigger of a connected observer sends the request
    whose URL holds that Number, the tag and the encoded search text of the
    page as it is then, with the button text restored by the answer as the
    text to restore. *)
Theorem next_page_is_requested
    (s : feed) (i : nat) (rq : request) (r : response) (t : string) :
  nth_error (in_flight s) i = Some rq ->
  has_next r = true -> truthy (Number_add (page r) one) = true ->
  observing s = true -> tag_text s = Some t ->
  let s' := run s [Success i r; Intersect] in
  next_page s' = Some (Number_add (page r) one) /\
  (forall n, 0 <= n -> n + 1 < 2 ^ 53 -> page r = Number_of_Z n ->
     next_page s' = Some (Number_of_Z (n + 1))) /\
  btn_disabled s' = true /\
  in_flight s' =
    remove_at i (in_flight s) ++
    [{| rq_url := url (Number_add (page r) one) t (search_bar s);
        rq_isNewFilter := false; rq_originalHtml := rq_originalHtml rq |}] /\
  Number_add (Number_of_Z (2 ^ 53)) one = Number_of_Z (2 ^ 53).
Proof.
  intros Hn Hr Hp Ho Ht s'. subst s'. unfold run. simpl.
  rewrite (success_with_next s i rq r Hn Hr). simpl.
  unfold intersect. simpl. rewrite Ho.
  rewrite (load_next_effect _ (Number_add (page r) one));
    [|reflexivity|simpl; now rewrite Hp].
  change (tag_text _) with (tag_text s). rewrite Ht. simpl.
  split; [reflexivity|]. split; [|split; [reflexivity|split; reflexivity]].
  intros n H0 H1 ->. f_equal.
  apply (NumberFacts.Number_add_integers n 1); lia.
Qed.

Lemma next_page_is_requested_witness :
  let s' := run (ready served) [Success 0 answer_all; Intersect] in
  next_page s' = Some (Number_of_Z 2) /\
  btn_disabled s' = true /\
  in_flight s' =
    [{| rq_url := "/api/listings/paged?page=2&tag=all&search=";
        rq_isNewFilter := false; rq_originalHtml := "Load More" |}].
Proof.
  pose proof (next_page_is_requested (ready served) 0 first_request answer_all "all"
                eq_refl eq_refl eq_refl eq_refl eq_refl) as (_ & Hn & Hd & Hf & _).
  split; [exact (Hn 1 ltac:(lia) ltac:(lia) eq_refl)|].
  split; [exact Hd|exact Hf].
Defined.

(** X9: the retry text outlives the retry. After a failure the button reads
    the retry text; the scroll trigger that retries takes that text as the
    one to restore, so the answer to the retry, when it announces a further
    page, enables the button with the retry text on it. The retry is sent
    when a page is stored and the tag has a text. *)
Theorem retry_text_sticks
    (s : feed) (i : nat) (rq : request) (r : response) (p : Number) (t : string) :
  nth_error (in_flight s) i = Some rq ->
  next_page s = Some p -> truthy p = true -> tag_text s = Some t ->
  observing s = true -> has_next r = true ->
  let retried := run s [Error i; Intersect] in
  let s' := step retried (Success (List.length (remove_at i (in_flight s))) r) in
  btn_html retried = spinner_html /\
  btn_html s' = failed_html /\ btn_disabled s' = false /\
  in_flight s' = remove_at i (in_flight s).
Proof.
  intros Hn Hp Hz Ht Ho Hr retried s'.
  assert (E : retried =
              {| grid := grid s; btn_disabled := true; btn_html := spinner_html;
                 btn_hidden := btn_hidden s; next_page := next_page s;
                 active_tag := active_tag s; search_bar := search_bar s;
                 observing := observing s;
                 in_flight := remove_at i (in_flight s) ++
                   [{| rq_url := url p t (search_bar s); rq_isNewFilter := false;
                       rq_originalHtml := failed_html |}] |}).
  { subst retried. unfold run. cbn [fold_left step]. unfold intersect.
    assert (Ho' : observing (error i s) = true)
      by (rewrite (error_effect s i rq Hn); exact Ho).
    rewrite Ho'.
    apply (load_next_after_error s i rq p t Hn); [|exact Ht].
    rewrite Hp. simpl. now rewrite Hz. }
  subst s'. rewrite E. cbn [step].
  erewrite success_with_next; [|cbn [in_flight]; apply nth_error_last|exact Hr].
  cbn [fst btn_html btn_disabled in_flight rq_originalHtml].
  repeat split. apply remove_at_last.
Qed.

Lemma retry_text_sticks_witness :
  let retried := run (ready served) [Error 0; Intersect] in
  let s' := step retried
              (Success (List.length (remove_at 0 (in_flight (ready served)))) answer_all) in
  btn_html retried = spinner_html /\
  btn_html s' = failed_html /\ btn_disabled s' = false /\
  in_flight s' = remove_at 0 (in_flight (ready served)).
Proof.
  apply (retry_text_sticks (ready served) 0 first_request answer_all one "all");
    reflexivity.
Defined.

End FeedMore.

(** * Debouncing *)

Module DebounceFacts.

Import JSNumber Feed Debounce FeedSpec FeedFacts DebounceSpec.

Lemma play_pending {A : Type} (delay due : nat) (a : A) (calls : list (nat * A)) :
  play delay (Some (due, a)) calls =
  match calls with
  | [] => [(due, a)]
  | (next, _) :: _ => if (due <=? next)%nat then [(due, a)] else []
  end ++ play delay None calls.
Proof.
  destruct calls as [|[next b] calls]; [reflexivity|].
  simpl. destruct (due <=? next)%nat; reflexivity.
Qed.

Lemma play_survivors {A : Type} (delay : nat) (calls : list (nat * A)) :
  play delay None calls =
  map (fun c => ((fst c + delay)%nat, snd c)) (survivors delay calls).
Proof.
  induction calls as [|[now a] calls IH]; [reflexivity|].
  change (play delay None ((now, a) :: calls))
    with (play delay (Some ((now + delay)%nat, a)) calls).
  rewrite play_pending, IH.
  destruct calls as [|[next b] calls]; [reflexivity|].
  cbn [survivors]. destruct (now + delay <=? next)%nat; reflexivity.
Qed.

Lemma survivors_burst {A : Type} (delay : nat) (calls : list (nat * A)) (last : nat * A) :
  burst delay (calls ++ [last]) = true ->
  survivors delay (calls ++ [last]) = [last].
Proof.
  induction calls as [|[now a] calls IH]; intros H.
  - destruct last; reflexivity.
  - change (((now, a) :: calls) ++ [last]) with ((now, a) :: (calls ++ [last])) in *.
    cbn [burst survivors] in *.
    destruct (calls ++ [last]) as [|[next b] rest] eqn:E.
    + destruct calls; discriminate E.
    + apply andb_true_iff in H. destruct H as [Hlt Hb].
      apply Nat.ltb_lt in Hlt.
      destruct (Nat.leb_spec (now + delay) next) as [Hle|_]; [lia|].
      apply IH, Hb.
Qed.

(** X10: [func] is called for exactly those calls of the debounced function
    that no other call follows within the delay: once for each, [delay]
    milliseconds after the call and with what that call passed. *)
Theorem debounce_calls_for_survivors {A : Type} (delay : nat) (calls : list (nat * A)) :
  play delay None calls =
  map (fun c => ((fst c + delay)%nat, snd c)) (survivors delay calls).
Proof. exact (play_survivors delay calls). Qed.

(** X11: when each call of the debounced function comes less than [delay]
    milliseconds after the one before, [func] is called once only: [delay]
    milliseconds after the last call, with what the last call passed. *)
Theorem burst_calls_once {A : Type} (delay : nat) (calls : list (nat * A))
    (now : nat) (args : A) :
  burst delay (calls ++ [(now, args)]) = true ->
  play delay None (calls ++ [(now, args)]) = [((now + delay)%nat, args)].
Proof.
  intros H. rewrite play_survivors, (survivors_burst _ _ _ H). reflexivity.
Qed.

Lemma burst_calls_once_witness :
  burst 300 ([(0, "a"); (120, "ab")] ++ [(400, "abc")])%nat = true /\
  play 300 None ([(0, "a"); (120, "ab")] ++ [(400, "abc")])%nat = [(700, "abc")]%nat.
Proof.
  split; [reflexivity|].
  exact (burst_calls_once 300 [(0, "a"); (120, "ab")]%nat 400 "abc" eq_refl).
Defined.

Lemma typing_overwrites (delay : nat) (text : string) (s : feed)
    (keys : list (nat * string)) :
  keys <> [] ->
  typing delay None (set_search text s) keys = typing delay None s keys.
Proof.
  destruct keys as [|[now t] keys]; [congruence|]. intros _. reflexivity.
Qed.

Lemma typing_pending (delay due : nat) (text : string) (s : feed)
    (keys : list (nat * string)) :
  typing delay (Some (due, tt)) (set_search text s) keys =
  match keys with
  | [] => search_bar_keyup text s
  | (next, _) :: _ =>
      typing delay None
        (if (due <=? next)%nat then search_bar_keyup text s else s) keys
  end.
Proof.
  destruct keys as [|[next t] keys]; [reflexivity|].
  cbn [typing elapse]. destruct (due <=? next)%nat; reflexivity.
Qed.

Lemma typing_survivors (delay : nat) (keys : list (nat * string)) :
  forall s,
    typing delay None s keys =
    fold_left (fun s c => search_bar_keyup (snd c) s) (survivors delay keys) s.
Proof.
  induction keys as [|[now text] keys IH]; intros s; [reflexivity|].
  change (typing delay None s ((now, text) :: keys))
    with (typing delay (Some ((now + delay)%nat, tt)) (set_search text s) keys).
  rewrite typing_pending.
  destruct keys as [|[next t] keys]; [reflexivity|].
  rewrite IH. cbn [survivors].
  destruct (now + delay <=? next)%nat; reflexivity.
Qed.

(** X12: however much search text is typed, as long as each key stroke
    comes less than 300 milliseconds after the one before, the feed is
    filtered once only, as by one run of the callback on the text the field
    holds in the end: the grid is emptied and one request is sent, for
    page 1 and with that text encoded in its URL (none when the tag is a
    value without a text). *)
Theorem typing_filters_once (s : feed) (keys : list (nat * string))
    (now : nat) (text : string) :
  burst search_delay (keys ++ [(now, text)]) = true ->
  let s' := typing search_delay None s (keys ++ [(now, text)]) in
  s' = search_bar_keyup text s /\
  grid s' = [] /\
  search_bar s' = text /\
  in_flight s' =
    in_flight s ++
    match tag_text s with
    | Some t => [{| rq_url := url one t text; rq_isNewFilter := true;
                    rq_originalHtml := btn_html s |}]
    | None => []
    end.
Proof.
  intros H s'. subst s'.
  rewrite typing_survivors, (survivors_burst _ _ _ H).
  cbn [fold_left snd]. split; [reflexivity|].
  unfold search_bar_keyup. rewrite new_filter_effect.
  repeat split.
Qed.

Lemma typing_filters_once_witness :
  burst search_delay ([(0, "b"); (150, "br")] ++ [(290, "bre")])%nat = true /\
  in_flight (typing search_delay None served ([(0, "b"); (150, "br")] ++ [(290, "bre")])%nat) =
    [{| rq_url := "/api/listings/paged?page=1&tag=all&search=bre";
        rq_isNewFilter := true; rq_originalHtml := "Load More" |}].
Proof.
  split; [reflexivity|].
  exact (proj2 (proj2 (proj2
    (typing_filters_once served [(0, "b"); (150, "br")]%nat 290 "bre" eq_refl)))).
Defined.

End DebounceFacts.

(** * The purveyor profile modal *)

Module PurveyorFacts.

Import JSNumber JSON Conversion Feed Purveyor PurveyorSpec.

Lemma set_button_same (b : nat) (x : button) (bs : nat -> button) :
  set_button b x bs b = x.
Proof. unfold set_button. rewrite Nat.eqb_refl. reflexivity. Qed.

Lemma set_button_other (b b' : nat) (x : button) (bs : nat -> button) :
  b' <> b -> set_button b x bs b' = bs b'.
Proof.
  intros H. unfold set_button. apply Nat.eqb_neq in H. rewrite H. reflexivity.
Qed.

Lemma button_eta (x : button) : {| disabled := disabled x; html := html x |} = x.
Proof. destruct x; reflexivity. Qed.

Lemma view_restores (b : nat) (r : option value) (s : modal) :
  pending s = 0%nat -> addressed s b = true -> renders r = true ->
  let s' := answer r (view_purveyor_btn_click b s) in
  (forall b', buttons s' b' = buttons s b') /\ pending s' = 0%nat /\
  user_id s' = user_id s.
Proof.
  intros Hp Ha Hr s'. subst s'. unfold view_purveyor_btn_click.
  destruct (disabled (buttons s b)) eqn:Hd.
  - unfold answer. rewrite Hp. split; [reflexivity|split; [exact Hp|reflexivity]].
  - unfold addressed in Ha.
    destruct (to_string (data (user_id s b))) as [t|]; [|discriminate].
    assert (E : exists c,
               answer r
                 {| buttons := set_button b {| disabled := true; html := spinner_html |}
                                 (buttons s);
                    user_id := user_id s;
                    purveyorButton := Some b;
                    originalButtonHtml := html (buttons s b);
                    contentArea := Loading; footer_hidden := true;
                    pending := S (pending s) |} =
               {| buttons := set_button b {| disabled := false; html := html (buttons s b) |}
                               (set_button b {| disabled := true; html := spinner_html |}
                                  (buttons s));
                  user_id := user_id s;
                  purveyorButton := None;
                  originalButtonHtml := html (buttons s b);
                  contentArea := c; footer_hidden := false;
                  pending := pending s |}).
    { unfold answer, complete. cbn [pending purveyorButton].
      destruct r as [profile|]; [|now exists Alert].
      unfold renders in Hr. destruct (profileHtml profile) as [markup|]; [|discriminate].
      now exists (Profile markup). }
    destruct E as [c ->]. cbn [buttons pending user_id].
    split; [|split; [exact Hp|reflexivity]].
    intros b'. unfold set_button.
    destruct (b' =? b)%nat eqn:E; [|reflexivity].
    apply Nat.eqb_eq in E. subst b'. rewrite <- Hd. apply button_eta.
Qed.

(** X13: as long as each click on a View Purveyor button is answered before
    the next click, each clicked button carries a user id that has a text,
    and each answer is a failure or a profile the markup can be built from,
    every button of the page ends as it was, enabled and with its own label,
    and no request is left in flight. A profile the markup cannot be built
    from (null, for one) leaves the clicked button disabled with the
    spinner, the modal on its spinner and the footer hidden; so does a click
    on a button whose user id has no text, for which no request is sent. *)
Theorem buttons_restored_one_at_a_time (views : list (nat * option value)) (s : modal) :
  pending s = 0%nat ->
  forallb (addressed s) (map fst views) = true ->
  forallb renders (map snd views) = true ->
  let s' := run s (one_at_a_time views) in
  ((forall b, buttons s' b = buttons s b) /\ pending s' = 0%nat) /\
  (forall b profile,
     disabled (buttons s' b) = false -> addressed s b = true ->
     profileHtml profile = None ->
     let s'' := run s' [Click b; Answer (Some profile)] in
     buttons s'' b = {| disabled := true; html := spinner_html |} /\
     contentArea s'' = Loading /\ footer_hidden s'' = true /\ pending s'' = 0%nat) /\
  (forall b,
     disabled (buttons s' b) = false -> addressed s b = false ->
     let s'' := run s' [Click b] in
     buttons s'' b = {| disabled := true; html := spinner_html |} /\
     contentArea s'' = Loading /\ footer_hidden s'' = true /\ pending s'' = 0%nat).
Proof.
  intros Hp Ha Hr s'.
  assert (H : (forall b, buttons s' b = buttons s b) /\ pending s' = 0%nat /\
              user_id s' = user_id s).
  { subst s'. revert s Hp Ha Hr.
    induction views as [|[b r] views IH]; intros s Hp Ha Hr;
      [split; [reflexivity|split; [exact Hp|reflexivity]]|].
    change (run s (one_at_a_time ((b, r) :: views)))
      with (run (answer r (view_purveyor_btn_click b s)) (one_at_a_time views)).
    cbn [map fst snd forallb] in Ha, Hr.
    apply andb_prop in Ha as [Ha Has]. apply andb_prop in Hr as [Hr Hrs].
    destruct (view_restores b r s Hp Ha Hr) as (Hb & Hp' & Hu).
    assert (Has' : forallb (addressed (answer r (view_purveyor_btn_click b s)))
                     (map fst views) = true).
    { unfold addressed in *. now rewrite Hu. }
    destruct (IH _ Hp' Has' Hrs) as (Hb' & Hp'' & Hu').
    split; [|split; [exact Hp''|congruence]].
    intros b0. rewrite Hb'. apply Hb. }
  destruct H as (Hb & Hp' & Hu).
  split; [split; [exact Hb|exact Hp']|]. split.
  - intros b profile Hd Hab Hn s''. subst s''.
    unfold run. cbn [fold_left step].
    unfold view_purveyor_btn_click. rewrite Hd.
    unfold addressed in Hab. rewrite <- Hu in Hab.
    destruct (to_string (data (user_id s' b))); [|discriminate].
    unfold answer. cbn [pending]. rewrite Hn.
    cbn [buttons contentArea footer_hidden pending].
    rewrite set_button_same. now repeat split.
  - intros b Hd Hab s''. subst s''.
    unfold run. cbn [fold_left step].
    unfold view_purveyor_btn_click. rewrite Hd.
    unfold addressed in Hab. rewrite <- Hu in Hab.
    destruct (to_string (data (user_id s' b))); [discriminate|].
    cbn [buttons contentArea footer_hidden pending].
    rewrite set_button_same. now repeat split.
Qed.

Lemma buttons_restored_one_at_a_time_witness :
  pending (untouched "View Purveyor") = 0%nat /\
  forallb (addressed (untouched "View Purveyor"))
    (map fst [(3%nat, None); (5%nat, Some ada)]) = true /\
  forallb renders (map snd [(3%nat, None); (5%nat, Some ada)]) = true /\
  buttons (run (untouched "View Purveyor")
             (one_at_a_time [(3%nat, None); (5%nat, Some ada)])) 3 =
  buttons (untouched "View Purveyor") 3 /\
  buttons (run (run (untouched "View Purveyor")
                  (one_at_a_time [(3%nat, None); (5%nat, Some ada)]))
             [Click 5; Answer (Some Null)]) 5 =
  {| disabled := true; html := spinner_html |}.
Proof.
  pose proof (buttons_restored_one_at_a_time
                [(3%nat, None); (5%nat, Some ada)]
                (untouched "View Purveyor") eq_refl eq_refl eq_refl) as [[Hb _] [Hs _]].
  split; [reflexivity|]. split; [reflexivity|]. split; [reflexivity|].
  split; [exact (Hb 3%nat)|].
  exact (proj1 (Hs 5%nat Null eq_refl eq_refl eq_refl)).
Defined.

Lemma stuck_step (b : nat) (s : modal) (e : event) : stuck b s -> stuck b (step s e).
Proof.
  intros [Hb Hp]. destruct e as [b'|r]; cbn [step].
  - unfold view_purveyor_btn_click.
    destruct (disabled (buttons s b')) eqn:Hd; [split; assumption|].
    assert (b <> b') as Hne by (intros ->; rewrite Hb in Hd; discriminate Hd).
    split; cbn [buttons purveyorButton].
    + rewrite set_button_other by exact Hne. exact Hb.
    + intros E. injection E as E. congruence.
  - assert (Hc : forall c n,
               stuck b (complete
                          {| buttons := buttons s; user_id := user_id s;
                             purveyorButton := purveyorButton s;
                             originalButtonHtml := originalButtonHtml s;
                             contentArea := c; footer_hidden := false;
                             pending := n |})).
    { intros c n. unfold complete. cbn [buttons purveyorButton originalButtonHtml].
      destruct (purveyorButton s) as [b'|] eqn:E; split; cbn [buttons purveyorButton].
      - rewrite set_button_other by congruence. exact Hb.
      - discriminate.
      - exact Hb.
      - discriminate. }
    unfold answer. destruct (pending s); [split; assumption|].
    destruct r as [profile|]; [|apply Hc].
    destruct (profileHtml profile); [apply Hc|].
    split; assumption.
Qed.

Lemma stuck_run (b : nat) (es : list event) (s : modal) : stuck b s -> stuck b (run s es).
Proof.
  revert s. induction es as [|e es IH]; intros s H; [exact H|].
  apply (IH (step s e)), stuck_step, H.
Qed.

(** X14: when a second View Purveyor button is clicked before the request of
    the first is answered, the first button is never restored: whatever is
    answered or clicked afterwards, it stays disabled and keeps showing the
    spinner. *)
Theorem overlapping_click_leaves_button_disabled (b1 b2 : nat) (s : modal)
    (es : list event) :
  b1 <> b2 ->
  disabled (buttons s b1) = false ->
  disabled (buttons s b2) = false ->
  buttons (run s (Click b1 :: Click b2 :: es)) b1 =
  {| disabled := true; html := spinner_html |}.
Proof.
  intros Hne H1 H2.
  change (run s (Click b1 :: Click b2 :: es))
    with (run (view_purveyor_btn_click b2 (view_purveyor_btn_click b1 s)) es).
  apply stuck_run. unfold view_purveyor_btn_click at 2. rewrite H1.
  unfold view_purveyor_btn_click. cbn [buttons].
  rewrite set_button_other by congruence. rewrite H2.
  split; cbn [buttons purveyorButton].
  - rewrite set_button_other by exact Hne. apply set_button_same.
  - intros E. injection E as E. congruence.
Qed.

Lemma overlapping_click_leaves_button_disabled_witness :
  disabled (buttons (run (untouched "View Purveyor")
                       [Click 1; Click 2; Answer None; Answer None]) 1) = true.
Proof.
  exact (f_equal disabled
           (overlapping_click_leaves_button_disabled 1 2 (untouched "View Purveyor")
              [Answer None; Answer None] ltac:(discriminate)
              eq_refl eq_refl)).
Defined.

End PurveyorFacts.

(** * The description of a card and the image preview *)

Module PreviewFacts.

Import Preview PreviewSpec.

Lemma hex_value_digit (d : N) : (d < 16)%N -> hex_value (hex_digit d) = Some d.
Proof.
  intros H. unfold hex_value, hex_digit.
  destruct (N.ltb_spec d 10).
  - replace ((48 <=? 48 + d) && (48 + d <=? 57))%N with true; [f_equal; lia|].
    symmetry. apply andb_true_iff. split; apply N.leb_le; lia.
  - replace ((48 <=? 55 + d) && (55 + d <=? 57))%N with false.
    2:{ symmetry. apply andb_false_iff. right. apply N.leb_gt. lia. }
    replace ((65 <=? 55 + d) && (55 + d <=? 70))%N with true; [f_equal; lia|].
    symmetry. apply andb_true_iff. split; apply N.leb_le; lia.
Qed.

Lemma hex_digit_not_u (d : N) : (d < 16)%N -> (hex_digit d =? 117)%N = false.
Proof.
  intros H. apply N.eqb_neq. unfold hex_digit. destruct (N.ltb_spec d 10); lia.
Qed.

Lemma hex2_digits (c : N) :
  (c < 256)%N -> hex2 (hex_digit (c / 16)) (hex_digit (c mod 16)) = Some c.
Proof.
  intros H. unfold hex2.
  assert (c / 16 < 16)%N as H1 by (apply N.Div0.div_lt_upper_bound; lia).
  assert (c mod 16 < 16)%N as H2 by (apply N.mod_lt; lia).
  rewrite (hex_value_digit _ H1), (hex_value_digit _ H2).
  f_equal. pose proof (N.div_mod c 16). lia.
Qed.

Lemma hex4_digits (c : N) :
  (c < 65536)%N ->
  hex4 (hex_digit (c / 4096)) (hex_digit ((c / 256) mod 16))
       (hex_digit ((c / 16) mod 16)) (hex_digit (c mod 16)) = Some c.
Proof.
  intros H. unfold hex4, hex2.
  assert (c / 4096 < 16)%N as H1 by (apply N.Div0.div_lt_upper_bound; lia).
  assert ((c / 256) mod 16 < 16)%N as H2 by (apply N.mod_lt; lia).
  assert ((c / 16) mod 16 < 16)%N as H3 by (apply N.mod_lt; lia).
  assert (c mod 16 < 16)%N as H4 by (apply N.mod_lt; lia).
  rewrite (hex_value_digit _ H1), (hex_value_digit _ H2),
    (hex_value_digit _ H3), (hex_value_digit _ H4).
  f_equal.
  pose proof (N.div_mod c 16 ltac:(lia)).
  pose proof (N.div_mod (c / 16) 16 ltac:(lia)).
  pose proof (N.div_mod (c / 256) 16 ltac:(lia)).
  replace (c / 256)%N with (c / 16 / 16)%N in * by (rewrite N.Div0.div_div; reflexivity).
  replace (c / 4096)%N with (c / 16 / 16 / 16)%N in * by (rewrite !N.Div0.div_div; reflexivity).
  lia.
Qed.

Lemma decode_two (a b : N) (rest : units) :
  (a =? 117)%N = false ->
  decode (a :: b :: rest) =
  match hex2 a b with Some n => Some (n, rest) | None => None end.
Proof.
  intros H. destruct rest as [|x [|y [|z rest]]]; cbn [decode]; try reflexivity.
  rewrite H. reflexivity.
Qed.

Lemma unescaped_not_percent (c : N) : unescaped c = true -> (c =? 37)%N = false.
Proof.
  intros H. apply N.eqb_neq. intros ->. discriminate H.
Qed.

Lemma length_escape_unit (c : N) : (1 <= List.length (escape_unit c))%nat.
Proof.
  unfold escape_unit. destruct (unescaped c); [simpl; lia|].
  destruct (c <? 256)%N; simpl; lia.
Qed.

Lemma unescape_escape_from (s : units) :
  code_units s ->
  forall fuel, (List.length (escape s) <= fuel)%nat -> unescape_from fuel (escape s) = s.
Proof.
  induction 1 as [|c s Hc Hs IH]; intros fuel Hf.
  - destruct fuel; reflexivity.
  - change (escape (c :: s)) with (escape_unit c ++ escape s) in *.
    rewrite length_app in Hf. unfold escape_unit in *.
    destruct (unescaped c) eqn:Hu.
    + cbn [app List.length] in *. destruct fuel as [|fuel]; [lia|].
      cbn [unescape_from]. rewrite (unescaped_not_percent _ Hu).
      f_equal. apply IH. lia.
    + destruct (N.ltb_spec c 256) as [Hlt|Hge].
      * cbn [app List.length] in *. destruct fuel as [|fuel]; [lia|].
        cbn [unescape_from]. rewrite N.eqb_refl.
        rewrite decode_two
          by (apply hex_digit_not_u, N.Div0.div_lt_upper_bound; lia).
        rewrite (hex2_digits _ Hlt). f_equal. apply IH. lia.
      * cbn [app List.length] in *. destruct fuel as [|fuel]; [lia|].
        cbn [unescape_from]. rewrite N.eqb_refl.
        cbn [decode]. rewrite N.eqb_refl.
        rewrite (hex4_digits _ Hc). f_equal. apply IH. lia.
Qed.

Lemma unescape_escape_units (s : units) : code_units s -> unescape (escape s) = s.
Proof. intros H. apply (unescape_escape_from s H). lia. Qed.

Lemma escape_unit_safe (c : N) : (c < 65536)%N -> attribute_safe (escape_unit c).
Proof.
  intros Hc.
  assert (forall d, (d < 16)%N -> hex_digit d <> 34%N /\ hex_digit d <> 38%N) as Hh.
  { intros d Hd. unfold hex_digit. destruct (N.ltb_spec d 10); lia. }
  unfold escape_unit, attribute_safe.
  destruct (unescaped c) eqn:Hu.
  - constructor; [|constructor]. split; intros ->; discriminate Hu.
  - destruct (N.ltb_spec c 256).
    + repeat constructor; try lia;
        apply Hh; first [apply N.Div0.div_lt_upper_bound; lia | apply N.mod_lt; lia].
    + repeat constructor; try lia;
        apply Hh; first [apply N.Div0.div_lt_upper_bound; lia | apply N.mod_lt; lia].
Qed.

Lemma escape_nil (s : units) : escape s = [] -> s = [].
Proof.
  destruct s as [|c s]; [reflexivity|].
  change (escape (c :: s)) with (escape_unit c ++ escape s).
  pose proof (length_escape_unit c) as H. intros E.
  apply (f_equal (@List.length N)) in E. rewrite length_app in E. simpl in E. lia.
Qed.

Lemma escape_plain (s : units) :
  forallb unescaped s = true -> escape s = s.
Proof.
  induction s as [|c s IH]; [reflexivity|]. intros H.
  apply andb_true_iff in H. destruct H as [Hc Hs].
  change (escape (c :: s)) with (escape_unit c ++ escape s).
  unfold escape_unit. rewrite Hc, (IH Hs). reflexivity.
Qed.

(** X15: [unescape] undoes [escape] on every string: the text comes back
    code unit by code unit, whatever it contains. *)
Theorem unescape_undoes_escape (s : units) : code_units s -> unescape (escape s) = s.
Proof. exact (unescape_escape_units s). Qed.

Lemma unescape_undoes_escape_witness :
  code_units [104; 233; 37; 8364; 34]%N /\
  unescape (escape [104; 233; 37; 8364; 34]%N) = [104; 233; 37; 8364; 34]%N.
Proof.
  assert (code_units [104; 233; 37; 8364; 34]%N) as H
    by (repeat constructor).
  split; [exact H|exact (unescape_undoes_escape _ H)].
Defined.

(** X16: the description travels safely through the card's attribute: the
    attribute holds neither a double quote nor an ampersand, and the preview
    shows the description as the listing has it, except that a description
    which is exactly [0], [false], [null] or [NaN] is shown as nothing. *)
Theorem preview_shows_description (description : units) :
  code_units description ->
  attribute_safe (data_description description) /\
  image_preview_description (data_description description) =
    (if data_falsy description then [] else description).
Proof.
  intros H. split.
  - unfold data_description, escape, attribute_safe.
    induction H as [|c s Hc Hs IH]; [constructor|].
    cbn [flat_map]. apply Forall_app. split; [apply escape_unit_safe, Hc|exact IH].
  - unfold image_preview_description, data_description.
    assert (data_falsy (escape description) = data_falsy description) as E.
    { unfold data_falsy.
      assert (forall t, forallb unescaped t = true ->
                units_eqb (escape description) t = units_eqb description t) as Ht.
      { intros t Hp. unfold units_eqb.
        destruct (list_eq_dec N.eq_dec (escape description) t) as [E1|E1];
          destruct (list_eq_dec N.eq_dec description t) as [E2|E2]; try reflexivity.
        - exfalso. apply E2.
          rewrite <- (unescape_escape_units description H), E1.
          rewrite <- (escape_plain t Hp) at 1.
          apply unescape_escape_units.
          clear - Hp. induction t as [|c t IH]; [constructor|].
          apply andb_true_iff in Hp. destruct Hp as [Hc Ht].
          constructor; [|apply IH, Ht].
          unfold unescaped in Hc.
          destruct (N.ltb_spec c 65536); [assumption|].
          exfalso. revert Hc.
          replace (c <=? 57)%N with false by (symmetry; apply N.leb_gt; lia).
          replace (c <=? 90)%N with false by (symmetry; apply N.leb_gt; lia).
          replace (c <=? 122)%N with false by (symmetry; apply N.leb_gt; lia).
          rewrite !andb_false_r. cbn [orb existsb units_of map list_ascii_of_string].
          repeat match goal with
                 | |- context [(c =? ?k)%N] =>
                     replace (c =? k)%N with false
                       by (symmetry; apply N.eqb_neq; vm_compute N_of_ascii; lia)
                 end.
          discriminate.
        - exfalso. apply E1. rewrite E2. apply escape_plain, Hp. }
      cbn [map existsb].
      rewrite !Ht by reflexivity. reflexivity. }
    rewrite E. destruct (data_falsy description); [reflexivity|].
    apply unescape_escape_units, H.
Qed.

Lemma preview_shows_description_witness :
  code_units (units_of "Fresh & local") /\
  image_preview_description (data_description (units_of "Fresh & local")) =
    units_of "Fresh & local".
Proof.
  assert (code_units (units_of "Fresh & local")) as H
    by (repeat constructor).
  split; [exact H|exact (proj2 (preview_shows_description _ H))].
Defined.

End PreviewFacts.

(** * The stored session *)

Module SessionFacts.

Import JSNumber Object JSON Session JSONSpec JSONFacts.

(** X17: a login survives the reload: read back from the storage, the
    session decides the navbar as the login response itself would, and it
    never raises; after a logout the page shows the guest links. *)
Theorem session_survives_reload (response : value) (item : option string) :
  survives response = true ->
  updateAuthState (login_success response item) = Shown (navbar_of response) /\
  updateAuthState (logout_btn_click (login_success response item)) = Shown Guest.
Proof.
  intros H. split; [|reflexivity].
  unfold updateAuthState, login_success. rewrite (parse_stringify _ H). reflexivity.
Qed.

Lemma session_survives_reload_witness :
  updateAuthState
    (login_success
       (Obj [("user", Obj [("email", Str "ana@example.com")]); ("access_token", Str "t")])
       None) =
  Shown (User (Some (Str "ana@example.com"))).
Proof.
  exact (proj1 (session_survives_reload
                  (Obj [("user", Obj [("email", Str "ana@example.com")]);
                        ("access_token", Str "t")])
                  None eq_refl)).
Defined.

End SessionFacts.

(** * The tag buttons *)

Module TagsFacts.

Import JSNumber JSON Conversion Feed Tags FeedSpec FeedFacts.

Lemma first_active_none (bar : list tag_btn) :
  first_active (map (fun b' => {| data_tag := data_tag b'; active := false |}) bar) = None.
Proof. induction bar as [|b bar IH]; [reflexivity|exact IH]. Qed.

Lemma activate_nth (bar : list tag_btn) :
  forall i j b,
    nth_error bar j = Some b ->
    nth_error (activate i bar) j =
    Some {| data_tag := data_tag b; active := (j =? i)%nat |}.
Proof.
  induction bar as [|b0 bar IH]; intros i j b H; [destruct j; discriminate H|].
  destruct j as [|j].
  - injection H as <-. destruct i; reflexivity.
  - cbn [nth_error] in H. destruct i as [|i]; cbn [activate nth_error].
    + rewrite nth_error_map, H. reflexivity.
    + exact (IH _ _ _ H).
Qed.

Lemma first_active_activate (bar : list tag_btn) :
  forall i b, nth_error bar i = Some b -> first_active (activate i bar) = Some (data_tag b).
Proof.
  induction bar as [|b0 bar IH]; intros i b H; [destruct i; discriminate H|].
  destruct i as [|i].
  - injection H as <-. reflexivity.
  - cbn [nth_error] in H. cbn [activate first_active active]. apply IH, H.
Qed.

(** X18: after a click on a tag button, that button is the only active one,
    whichever buttons were active before, and the feed is filtered anew by
    its tag: the grid is emptied, page 1 is stored, and the request sent is
    the one for page 1 with the text of that button's tag in its URL (none
    when the tag is a value without a text). When the tag is made of
    characters that need no encoding and is not handed out as a falsy value,
    the URL read back gives that tag. *)
Theorem clicked_tag_is_the_active_one (bar : list tag_btn) (s : feed) (i : nat)
    (b : tag_btn) :
  nth_error bar i = Some b ->
  let page' := Tags.tag_btn_click i (bar, s) in
  (forall j b', nth_error bar j = Some b' ->
     nth_error (fst page') j =
     Some {| data_tag := data_tag b'; active := (j =? i)%nat |}) /\
  List.length (fst page') = List.length bar /\
  active_tag (snd page') = Some (data_tag b) /\
  grid (snd page') = [] /\ next_page (snd page') = Some one /\
  in_flight (snd page') =
    in_flight s ++
    match tag_text (with_tag (data_tag b) s) with
    | Some t => [{| rq_url := url one t (search_bar s); rq_isNewFilter := true;
                    rq_originalHtml := btn_html s |}]
    | None => []
    end /\
  (unreserved (data_tag b) = true -> to_boolean (data (data_tag b)) = true ->
   tag_text (with_tag (data_tag b) s) = Some (data_tag b) /\
   param "tag" (url one (data_tag b) (search_bar s)) = Some (data_tag b)).
Proof.
  intros H page'. subst page'. unfold Tags.tag_btn_click. rewrite H. cbn [fst snd].
  split; [|split].
  - intros j b' Hj. apply activate_nth, Hj.
  - clear. revert i. induction bar as [|b0 bar IH]; intros i; [reflexivity|].
    destruct i; cbn [activate List.length]; [rewrite length_map; reflexivity|].
    rewrite IH. reflexivity.
  - rewrite (first_active_activate _ _ _ H). fold (with_tag (data_tag b) s).
    rewrite new_filter_effect.
    cbn [active_tag grid next_page in_flight with_tag search_bar btn_html].
    split; [reflexivity|]. split; [reflexivity|]. split; [reflexivity|].
    split; [reflexivity|]. intros Hu Hb. split.
    + pose proof (tag_text_unreserved (data_tag b) s Hu) as E.
      now rewrite Hb in E.
    + exact (proj1 (proj2 (url_read _ (search_bar s) Hu))).
Qed.

Lemma clicked_tag_is_the_active_one_witness :
  nth_error
    (fst (Tags.tag_btn_click 2
            ([ {| data_tag := "all"; active := true |};
               {| data_tag := "books"; active := true |};
               {| data_tag := "tools"; active := false |} ], served))) 1 =
  Some {| data_tag := "books"; active := false |} /\
  in_flight
    (snd (Tags.tag_btn_click 2
            ([ {| data_tag := "all"; active := true |};
               {| data_tag := "books"; active := true |};
               {| data_tag := "tools"; active := false |} ], served))) =
  [{| rq_url := "/api/listings/paged?page=1&tag=tools&search=";
      rq_isNewFilter := true; rq_originalHtml := "Load More" |}].
Proof.
  pose proof (clicked_tag_is_the_active_one
                [ {| data_tag := "all"; active := true |};
                  {| data_tag := "books"; active := true |};
                  {| data_tag := "tools"; active := false |} ]
                served 2 {| data_tag := "tools"; active := false |} eq_refl)
    as (Hb & _ & _ & _ & _ & Hf & _).
  split; [exact (Hb 1%nat {| data_tag := "books"; active := true |} eq_refl)|].
  exact Hf.
Defined.

End TagsFacts.

